(** * magic-cta-pipe: image cleaning glue, island counting and stereo gating

    A shallow embedding of
    - [hillas_preprocessing_MAGICCleaning_stereo_mars.py]
        ([get_num_islands], [process_dataset_mc], [process_dataset_data]) and
    - [stereo_reco_MAGIC_LST.py] ([stereo_reco_MAGIC_LST]),
    together with the properties the design document states about them.

    Python exceptions are values of [exn]; a call that may raise returns a
    [result].  Console output and rows handed to the HDF5 table writer are
    collected, in program order, in a trace of [action]s. *)

From Stdlib Require Import String List Arith Lia Bool ZArith.
From Stdlib Require Import Floats.SpecFloat.
Import ListNotations.

Set Implicit Arguments.

(* ================================================================== *)
(** * Exceptions                                                        *)
(* ================================================================== *)

Inductive exn : Type :=
  | ValueError
  | IndexError
  | NameError
  | RuntimeError.

Inductive result (A : Type) : Type :=
  | Ok (a : A)
  | Raise (e : exn).

Arguments Ok {A} a.
Arguments Raise {A} e.

Definition rbind {A B} (r : result A) (k : A -> result B) : result B :=
  match r with
  | Ok a => k a
  | Raise e => Raise e
  end.

Declare Scope result_scope.
Delimit Scope result_scope with result.
Notation "x <- c ;; k" := (rbind c (fun x => k))
  (at level 61, c at next level, right associativity) : result_scope.
Notation "' p <- c ;; k" := (rbind c (fun p => k))
  (at level 61, p pattern, c at next level, right associativity) : result_scope.

(* ================================================================== *)
(** * Arrays and floating point values                                  *)
(* ================================================================== *)

(** numpy [float64] values: IEEE 754 with signed zeros, infinities, NaN. *)
Definition float := spec_float.

Definition fzero : float := S754_zero false.

(** [x == 0] on floats: true for both zeros, false for NaN. *)
Definition feq0 (x : float) : bool := SFeqb x fzero.

(** [np.isnan] *)
Definition isnan (x : float) : bool :=
  match x with
  | S754_nan => true
  | _ => false
  end.

(** Truth value of a float ([bool(x)]): everything but the zeros, NaN included. *)
Definition truthy (x : float) : bool := negb (feq0 x).

(** [np.any(a)] on a float array. *)
Definition np_any (a : list float) : bool := existsb truthy a.

(** [mask.sum()] on a boolean array. *)
Definition mask_sum (mask : list bool) : nat := count_occ bool_dec mask true.

(** [np.nonzero(mask)[0]]: the positions at which a boolean array is true,
    in increasing order. *)
Fixpoint nonzero_from (i : nat) (mask : list bool) : list nat :=
  match mask with
  | [] => []
  | b :: m => if b then i :: nonzero_from (S i) m else nonzero_from (S i) m
  end.

Definition nonzero (mask : list bool) : list nat := nonzero_from 0 mask.

(** [a[mask]] for a one-dimensional array and a boolean mask; numpy raises
    [IndexError] when the two lengths differ. *)
Definition bool_index {A} (a : list A) (mask : list bool) (d : A) : result (list A) :=
  if length mask =? length a
  then Ok (map (fun i => nth i a d) (nonzero mask))
  else Raise IndexError.

(** [a[~mask] = 0] on a copy of [a]. *)
Fixpoint zero_where_false (mask : list bool) (a : list float) : list float :=
  match mask, a with
  | b :: m, x :: a' => (if b then x else fzero) :: zero_where_false m a'
  | _, _ => []
  end.

(** [c = a.copy(); c[~mask] = 0]; [IndexError] when the lengths differ. *)
Definition copy_and_zero (a : list float) (mask : list bool) : result (list float) :=
  if length mask =? length a
  then Ok (zero_where_false mask a)
  else Raise IndexError.

(* ================================================================== *)
(** * Pixel topology                                                    *)
(* ================================================================== *)

(** A scipy sparse boolean matrix: its shape and its entries.  Entries
    outside the shape are never read. *)
Record sparse_matrix : Type := {
  n_rows : nat;
  n_cols : nat;
  entry : nat -> nat -> bool
}.

(** Whether every position of [idx] addresses one of [n] rows or columns. *)
Definition in_range (n : nat) (idx : list nat) : bool :=
  forallb (fun i => i <? n) idx.

(** [m[mask]] on a scipy sparse matrix.  The boolean index is turned into
    the positions at which it is true ([np.where(mask)[0]]) and the rows at
    these positions are taken; the length of the mask is not compared with
    the number of rows, and [IndexError] is raised only when a position lies
    beyond the last row. *)
Definition select_rows (m : sparse_matrix) (mask : list bool) : result sparse_matrix :=
  let idx := nonzero mask in
  if in_range (n_rows m) idx
  then Ok {| n_rows := length idx;
             n_cols := n_cols m;
             entry := fun a b => entry m (nth a idx 0) b |}
  else Raise IndexError.

(** [m[:, mask]]: the columns at the positions at which [mask] is true. *)
Definition select_cols (m : sparse_matrix) (mask : list bool) : result sparse_matrix :=
  let idx := nonzero mask in
  if in_range (n_cols m) idx
  then Ok {| n_rows := n_rows m;
             n_cols := length idx;
             entry := fun a b => entry m a (nth b idx 0) |}
  else Raise IndexError.

Inductive camera_name_t : Type :=
  | LSTCam
  | MAGICCam
  | OtherCam (name : string).

(** The attributes of a ctapipe [CameraGeometry] that the scripts read.
    The pixel positions are kept as plain numbers. *)
Record CameraGeometry : Type := {
  camera_name : camera_name_t;
  n_pixels : nat;
  pix_id : list Z;
  pix_x : list float;
  pix_y : list float;
  pix_type : string;
  pix_rotation : float;
  cam_rotation : float;
  neighbor_matrix_sparse : sparse_matrix
}.

(* ================================================================== *)
(** * scipy.sparse.csgraph.connected_components                         *)
(* ================================================================== *)

(** The library routine, called with [directed=False]: an entry in either
    direction makes an edge; vertices are scanned in increasing order and
    each vertex that has no label yet starts a flood fill that labels
    everything it reaches. *)

Definition undirected_edge (m : sparse_matrix) (u v : nat) : bool :=
  entry m u v || entry m v u.

Definition memb (v : nat) (l : list nat) : bool := existsb (Nat.eqb v) l.

(** One round of the fill: add every vertex that touches the filled set. *)
Definition expand (m : sparse_matrix) (verts filled : list nat) : list nat :=
  filled ++
  filter (fun v => negb (memb v filled) &&
                   existsb (fun u => undirected_edge m u v) filled) verts.

Fixpoint flood_fill (rounds : nat) (m : sparse_matrix) (verts filled : list nat)
  : list nat :=
  match rounds with
  | O => filled
  | S r => flood_fill r m verts (expand m verts filled)
  end.

(** [comps] holds the vertex sets labelled so far, in label order. *)
Fixpoint label_scan (m : sparse_matrix) (n : nat) (todo : list nat)
  (comps : list (list nat)) : list (list nat) :=
  match todo with
  | [] => comps
  | v :: rest =>
      if existsb (memb v) comps
      then label_scan m n rest comps
      else label_scan m n rest (comps ++ [flood_fill n m (seq 0 n) [v]])
  end.

Fixpoint label_of (comps : list (list nat)) (v : nat) : nat :=
  match comps with
  | [] => 0
  | c :: cs => if memb v c then 0 else S (label_of cs v)
  end.

(** Returns [(n_components, labels)]; the graph must be square. *)
Definition connected_components (m : sparse_matrix) : result (nat * list nat) :=
  if n_rows m =? n_cols m
  then let n := n_rows m in
       let comps := label_scan m n (seq 0 n) [] in
       Ok (length comps, map (label_of comps) (seq 0 n))
  else Raise ValueError.

(* ================================================================== *)
(** * get_num_islands                                                   *)
(* ================================================================== *)

Open Scope result_scope.

Definition get_num_islands (camera : CameraGeometry) (clean_mask : list bool)
  (event_image : list float) : result nat :=
  let neighbors := neighbor_matrix_sparse camera in
  rows <- select_rows neighbors clean_mask ;;
  clean_neighbors <- select_cols rows clean_mask ;;
  ' (num_islands, labels) <- connected_components clean_neighbors ;;
  Ok num_islands.

Close Scope result_scope.

(** [neighbors[mask][:, mask]]: rows and columns of the selected pixels. *)
Definition clean_neighbors (camera : CameraGeometry) (mask : list bool) : sparse_matrix :=
  let idx := nonzero mask in
  {| n_rows := length idx;
     n_cols := length idx;
     entry := fun a b => entry (neighbor_matrix_sparse camera) (nth a idx 0) (nth b idx 0) |}.

(* ================================================================== *)
(** * Output trace                                                      *)
(* ================================================================== *)

(** The columns of the containers this code fills or reads. *)
Record HillasParametersContainer : Type := {
  intensity : float;
  hillas_x : float;
  hillas_y : float;
  length_ : float;
  width : float;
  psi : float
}.

Record TimingParametersContainer : Type := {
  slope : float;
  intercept : float
}.

Record LeakageContainer : Type := {
  pixels_width_1 : float;
  pixels_width_2 : float;
  intensity_width_1 : float;
  intensity_width_2 : float
}.

(** Output of [stereo_par_calc_mars] and of [HillasReconstructor.predict]. *)
Record StereoContainer : Type := {
  reco_alt : float;
  reco_az : float;
  reco_core_x : float;
  reco_core_y : float
}.

(** [event.dl1.tel[tel_id]] *)
Record DL1CameraContainer : Type := {
  image : list float;
  peak_time : list float
}.

(** [event.pointing.tel[tel_id]] *)
Record TelescopePointingContainer : Type := {
  altitude : float;
  azimuth : float
}.

(** An astropy [SkyCoord] in the horizon frame, once it has been built. *)
Record SkyCoord : Type := {
  alt : float;
  az : float
}.

Record MCEventContainer : Type := {
  energy : float;
  mc_alt : float;
  mc_az : float;
  core_x : float;
  core_y : float
}.

(** [InfoContainer] of [process_dataset_mc]; [_InfoContainer] of
    [stereo_reco_MAGIC_LST] has the same columns but [true_core_x/y]. *)
Record InfoContainerMC : Type := {
  mc_obs_id : Z;
  mc_event_id : Z;
  mc_tel_id : Z;
  true_energy : float;
  true_alt : float;
  true_az : float;
  true_core_x : float;
  true_core_y : float;
  mc_tel_alt : float;
  mc_tel_az : float;
  mc_n_islands : nat
}.

(** [InfoContainer] of [process_dataset_data]. *)
Record InfoContainerData : Type := {
  data_obs_id : Z;
  data_event_id : Z;
  data_tel_id : Z;
  data_mjd : float;
  data_tel_alt : float;
  data_tel_az : float;
  data_n_islands : nat
}.

Record InfoContainerSim : Type := {
  sim_obs_id : Z;
  sim_event_id : Z;
  sim_tel_id : Z;
  sim_true_energy : float;
  sim_true_alt : float;
  sim_true_az : float;
  sim_tel_alt : float;
  sim_tel_az : float;
  sim_num_islands : nat
}.

Inductive container : Type :=
  | CObsId (obs : Z)
  | CMcHeader (run_header : Z)
  | CInfoMC (i : InfoContainerMC)
  | CInfoData (i : InfoContainerData)
  | CInfoSim (i : InfoContainerSim)
  | CHillas (h : HillasParametersContainer)
  | CLeakage (l : LeakageContainer)
  | CTiming (t : TimingParametersContainer)
  | CStereo (s : StereoContainer).

(** What [print] is given.  The identifiers interpolated into a message are
    kept as fields. *)
Inductive message : Type :=
  | HillasCalculationFailed (event obs tel : Z)
  | DidNotPassCleaning (event obs tel : Z)
  | WidthZeroStereoSkipped (event obs : Z)
  | WidthNaNStereoSkipped (event obs : Z)
  | SelectAtLeastTwoTelescopes
  | EventCount (count : Z)
  | ImageNotReconstructed
  | ExceptionText (e : exn).

Inductive action : Type :=
  | Print (msg : message)
  | Write (table_name : string) (containers : list container).

(** A computation that prints and writes, and returns or raises. *)
Definition M (A : Type) : Type := (list action * result A)%type.

Definition ret {A} (a : A) : M A := ([], Ok a).

Definition bind {A B} (c : M A) (k : A -> M B) : M B :=
  match c with
  | (t, Ok a) => let (t', r) := k a in (t ++ t', r)
  | (t, Raise e) => (t, Raise e)
  end.

Definition emit (a : action) : M unit := ([a], Ok tt).

Definition lift {A} (r : result A) : M A := ([], r).

(** [try: body  except <classes>: handler] *)
Definition try_except {A} (body : M A) (caught : exn -> bool) (handler : exn -> M A) : M A :=
  match body with
  | (t, Ok a) => (t, Ok a)
  | (t, Raise e) =>
      if caught e then let (t', r) := handler e in (t ++ t', r) else (t, Raise e)
  end.

Declare Scope trace_scope.
Delimit Scope trace_scope with trace.
Notation "x <- c ;; k" := (bind c (fun x => k))
  (at level 61, c at next level, right associativity) : trace_scope.
Notation "' p <- c ;; k" := (bind c (fun p => k))
  (at level 61, p pattern, c at next level, right associativity) : trace_scope.
Notation "c ;;; k" := (bind c (fun _ => k))
  (at level 61, right associativity) : trace_scope.

(** [for x in xs: st = body(st, x)], stopping at the first exception. *)
Fixpoint for_each {A S} (body : S -> A -> M S) (xs : list A) (st : S) : M S :=
  match xs with
  | [] => ret st
  | x :: rest => bind (body st x) (for_each body rest)
  end.

Definition trace_of {A} (c : M A) : list action := fst c.
Definition outcome_of {A} (c : M A) : result A := snd c.

Definition is_ValueError (e : exn) : bool :=
  match e with
  | ValueError => true
  | _ => false
  end.

(** [except Exception] *)
Definition is_Exception (e : exn) : bool := true.

(** A block of statements that assigns variables of the enclosing function:
    given the variables [S], what the block prints and writes, the variables
    when control leaves it, and whether it is left normally or by an
    exception.  What was assigned before an exception is raised stays
    assigned. *)
Definition Block (S A : Type) : Type := S -> list action * S * result A.

Definition bret {S A} (a : A) : Block S A := fun s => ([], s, Ok a).

Definition bbind {S A B} (c : Block S A) (k : A -> Block S B) : Block S B :=
  fun s =>
    match c s with
    | (t, s', Ok a) => let '(t', s'', r) := k a s' in (t ++ t', s'', r)
    | (t, s', Raise e) => (t, s', Raise e)
    end.

(** A call that reads no variable of the block. *)
Definition call {S A} (r : result A) : Block S A := fun s => ([], s, r).

Definition assign {S} (f : S -> S) : Block S unit := fun s => ([], f s, Ok tt).

Definition output {S} (a : action) : Block S unit := fun s => ([a], s, Ok tt).

(** [writer.write(table_name, containers)] with a writer that may refuse the
    row: a refused row raises and is not in the table. *)
Definition write {S} (writer : string -> list container -> result unit)
  (table_name : string) (containers : list container) : Block S unit :=
  fun s =>
    match writer table_name containers with
    | Ok _ => ([Write table_name containers], s, Ok tt)
    | Raise e => ([], s, Raise e)
    end.

(** [try: body  except <classes>: handler], the handler starting from the
    variables as the body left them. *)
Definition try_block {S} (body : Block S unit) (caught : exn -> bool)
  (handler : exn -> Block S unit) : Block S unit :=
  fun s =>
    match body s with
    | (t, s', Ok a) => (t, s', Ok a)
    | (t, s', Raise e) =>
        if caught e
        then let '(t', s'', r) := handler e s' in (t ++ t', s'', r)
        else (t, s', Raise e)
    end.

(** The block as one step of the function around it: the variables it
    leaves, unless an exception leaves the function. *)
Definition run_block {S} (c : Block S unit) (s : S) : M S :=
  let '(t, s', r) := c s in
  (t, match r with
      | Ok _ => Ok s'
      | Raise e => Raise e
      end).

Declare Scope block_scope.
Delimit Scope block_scope with block.
Notation "x <- c ;; k" := (bbind c (fun x => k))
  (at level 61, c at next level, right associativity) : block_scope.
Notation "' p <- c ;; k" := (bbind c (fun p => k))
  (at level 61, p pattern, c at next level, right associativity) : block_scope.
Notation "c ;;; k" := (bbind c (fun _ => k))
  (at level 61, right associativity) : block_scope.

(* ================================================================== *)
(** * Dictionaries keyed by telescope                                   *)
(* ================================================================== *)

(** A Python [dict]: insertion ordered, one entry per key. *)
Definition dict (V : Type) : Type := list (Z * V).

Fixpoint dict_set {V} (k : Z) (v : V) (d : dict V) : dict V :=
  match d with
  | [] => [(k, v)]
  | (k', v') :: rest =>
      if Z.eqb k k' then (k, v) :: rest else (k', v') :: dict_set k v rest
  end.

Fixpoint dict_get {V} (k : Z) (d : dict V) : option V :=
  match d with
  | [] => None
  | (k', v) :: rest => if Z.eqb k k' then Some v else dict_get k rest
  end.

Definition dict_keys {V} (d : dict V) : list Z := map fst d.
Definition dict_values {V} (d : dict V) : list V := map snd d.

(** [scipy.int32(n)] on a numpy integer: the low 32 bits, signed. *)
Definition int32 (n : Z) : Z := ((n + 2 ^ 31) mod 2 ^ 32 - 2 ^ 31)%Z.

(** [a > 0] element-wise. *)
Definition gt0 (a : list float) : list bool := map (fun v => SFltb fzero v) a.

(** [any([h["width"].value == 0 for h in d.values()])] and its NaN twin. *)
Definition any_width_zero (d : dict HillasParametersContainer) : bool :=
  existsb (fun h => feq0 (width h)) (dict_values d).

Definition any_width_nan (d : dict HillasParametersContainer) : bool :=
  existsb (fun h => isnan (width h)) (dict_values d).

(* ================================================================== *)
(** * Numeric constants of the scripts                                  *)
(* ================================================================== *)

Definition prec : Z := 53.
Definition emax : Z := 1024.

Definition of_Z (n : Z) : float := binary_normalize prec emax n 0 false.
Definition fdiv (a b : float) : float := SFdiv prec emax a b.
Definition fmul (a b : float) : float := SFmul prec emax a b.

(** A decimal literal [n / 10^k] is the double nearest to it, which is what a
    correctly rounded division of the two integers gives. *)
Definition literal (n : Z) (k : nat) : float := fdiv (of_Z n) (of_Z (10 ^ Z.of_nat k)).

Record cleaning_config_t : Type := {
  picture_thresh : float;
  boundary_thresh : float;
  max_time_off : float;
  max_time_diff : float;
  usetime : bool;
  usesum : bool;
  findhotpixels : bool
}.

Definition cleaning_config_MAGIC (find_hot : bool) : cleaning_config_t :=
  {| picture_thresh := of_Z 6;
     boundary_thresh := literal 35 1;
     max_time_off := fmul (literal 45 1) (literal 164 2);
     max_time_diff := fmul (literal 15 1) (literal 164 2);
     usetime := true;
     usesum := true;
     findhotpixels := find_hot |}.

Definition aberration_factor : float := fdiv (of_Z 1) (literal 10713 4).

(* ================================================================== *)
(** * hillas_preprocessing_MAGICCleaning_stereo_mars.py                 *)
(* ================================================================== *)

Module HillasPreprocessing.

Open Scope trace_scope.

(** An event as [MAGICEventSource] yields it.  [pointing_array] is the
    [array_pointing] of the event, the [SkyCoord] built before the telescope
    loop (lines 191-195 and 358-362) from [event.pointing.array_altitude]
    and [array_azimuth]. *)
Record ArrayEvent : Type := {
  index_obs_id : Z;
  index_event_id : Z;
  r1_tels_with_data : list Z;
  dl1_tel : Z -> DL1CameraContainer;
  pointing_tel : Z -> TelescopePointingContainer;
  pointing_array : SkyCoord;
  mc : MCEventContainer;
  mcheader : Z;
  trigger_time_mjd : float
}.

Record EventSource : Type := {
  subarray_tel1_camera : CameraGeometry;
  events : list ArrayEvent
}.

(** What the script calls and does not define: the [CameraGeometry]
    constructor, the cleaning engine, the shape parameterizer, the bad-pixel
    calculator and the two stereo reconstructions, and, inside the [try]
    block of the telescope loop, the [SkyCoord] constructor, the unit
    conversions made while the metadata container is filled ([convert_units],
    which reads the event and the telescope) and the table writer.  Each may
    raise.  The rows written outside the [try] block and the lines printed
    are recorded in the trace as they are reached. *)
Record collaborators : Type := {
  camera_geometry :
    camera_name_t -> list Z -> list float -> list float -> list float ->
    string -> float -> float -> result CameraGeometry;
  magic_clean_clean_image :
    CameraGeometry -> cleaning_config_t ->
    list float -> list float -> option (list bool) ->
    result (list bool * list float * list float);
  hillas_parameters :
    CameraGeometry -> list float -> result HillasParametersContainer;
  timing_parameters :
    CameraGeometry -> list float -> list float ->
    HillasParametersContainer -> list bool -> result TimingParametersContainer;
  leakage : CameraGeometry -> list float -> list bool -> result LeakageContainer;
  sky_coord : float -> float -> result SkyCoord;
  convert_units : ArrayEvent -> Z -> result unit;
  writer_write : string -> list container -> result unit;
  stereo_par_calc_mars :
    dict HillasParametersContainer -> dict SkyCoord -> result StereoContainer;
  hillas_reconstructor_predict :
    dict HillasParametersContainer -> SkyCoord -> result StereoContainer;
  get_badrmspixel_mask : ArrayEvent -> result (list (list bool));
  get_deadpixel_mask : ArrayEvent -> result (list (list bool))
}.

(** The module-level names a function of the script reads without binding
    them.  [scale_camera_geometry] reads [geom] (for
    [geom.guess_pixel_area]); the script has no import and no assignment
    that binds this name. *)
Record globals : Type := {
  geom : option (list float -> list float -> string -> result (list float))
}.

(** The script as it stands. *)
Definition as_shipped : globals := {| geom := None |}.

Definition scale_camera_geometry (names : globals) (ext : collaborators)
  (camera : CameraGeometry) (factor : float) : result CameraGeometry :=
  (let pix_x_scaled := map (fmul factor) (pix_x camera) in
   let pix_y_scaled := map (fmul factor) (pix_y camera) in
   guess_pixel_area <- match geom names with
                       | Some guess => Ok guess
                       | None => Raise NameError
                       end ;;
   pix_area_scaled <- guess_pixel_area pix_x_scaled pix_y_scaled (pix_type camera) ;;
   camera_geometry ext MAGICCam (pix_id camera) pix_x_scaled pix_y_scaled
     pix_area_scaled (pix_type camera) (pix_rotation camera) (cam_rotation camera))%result.

(** [l[i]] on a Python list: negative indices count from the end. *)
Definition py_index {A} (l : list A) (i : Z) : result A :=
  let n := Z.of_nat (length l) in
  let j := if (i <? 0)%Z then (i + n)%Z else i in
  if ((0 <=? j) && (j <? n))%Z
  then match nth_error l (Z.to_nat j) with
       | Some a => Ok a
       | None => Raise IndexError
       end
  else Raise IndexError.

(** [np.logical_or] of two one-dimensional arrays, with broadcasting of a
    one-element operand. *)
Definition logical_or (a b : list bool) : result (list bool) :=
  match a, b with
  | [u], _ => Ok (map (orb u) b)
  | _, [v] => Ok (map (fun u => orb u v) a)
  | _, _ =>
      if length a =? length b
      then Ok (map (fun p => orb (fst p) (snd p)) (combine a b))
      else Raise ValueError
  end.

(** The caller's share of the cleaning: copies of the engine's charge and
    time arrays with every pixel outside the mask set to zero. *)
Definition zero_outside_mask (clean_mask : list bool)
  (event_image event_pulse_time : list float) : result (list float * list float) :=
  (event_image_cleaned <- copy_and_zero event_image clean_mask ;;
   event_pulse_time_cleaned <- copy_and_zero event_pulse_time clean_mask ;;
   Ok (event_image_cleaned, event_pulse_time_cleaned))%result.

(** The variables a telescope iteration reads and assigns. *)
Record tel_state (Info : Type) : Type := {
  computed_hillas_params : dict HillasParametersContainer;
  telescope_pointings : dict SkyCoord;
  event_info : option Info
}.

Arguments computed_hillas_params {Info} _.
Arguments telescope_pointings {Info} _.
Arguments event_info {Info} _.

(** [computed_hillas_params[tel_id] = hillas_params] *)
Definition set_hillas_params {Info} (tel_id : Z) (hillas_params : HillasParametersContainer)
  (st : tel_state Info) : tel_state Info :=
  {| computed_hillas_params := dict_set tel_id hillas_params (computed_hillas_params st);
     telescope_pointings := telescope_pointings st;
     event_info := event_info st |}.

(** [telescope_pointings[tel_id] = pointing] *)
Definition set_pointing {Info} (tel_id : Z) (pointing : SkyCoord)
  (st : tel_state Info) : tel_state Info :=
  {| computed_hillas_params := computed_hillas_params st;
     telescope_pointings := dict_set tel_id pointing (telescope_pointings st);
     event_info := event_info st |}.

(** [event_info = info] *)
Definition set_event_info {Info} (info : Info) (st : tel_state Info) : tel_state Info :=
  {| computed_hillas_params := computed_hillas_params st;
     telescope_pointings := telescope_pointings st;
     event_info := Some info |}.

Section Script.
Variable ext : collaborators.
Variable camera_scaled : CameraGeometry.

(** ** The body shared by the two telescope loops

    The two loops differ in the unsuitable-pixel mask and in the metadata
    container; [mk_info] fills the latter once the unit conversions went
    through. *)
Section Telescope.
Variable Info : Type.
Variable as_container : Info -> container.
Variable mk_info : ArrayEvent -> Z -> nat -> Info.

(** The body of the [try] block (lines 216-252 and 387-419). *)
Definition try_body (event : ArrayEvent) (tel_id : Z) (num_islands : nat)
  (clean_mask : list bool) (event_image : list float)
  (event_image_cleaned event_pulse_time_cleaned : list float)
  : Block (tel_state Info) unit :=
  (hillas_params <- call (hillas_parameters ext camera_scaled event_image_cleaned) ;;
   let image_mask := gt0 event_image_cleaned in
   timing_params <- call (timing_parameters ext camera_scaled event_image_cleaned
                            event_pulse_time_cleaned hillas_params image_mask) ;;
   leakage_params <- call (leakage ext camera_scaled event_image clean_mask) ;;
   assign (set_hillas_params tel_id hillas_params) ;;;
   pointing <- call (sky_coord ext (altitude (pointing_tel event tel_id))
                       (azimuth (pointing_tel event tel_id))) ;;
   assign (set_pointing tel_id pointing) ;;;
   call (convert_units ext event tel_id) ;;;
   let info := mk_info event tel_id num_islands in
   assign (set_event_info info) ;;;
   write (writer_write ext) "hillas_params"
     [as_container info; CHillas hillas_params;
      CLeakage leakage_params; CTiming timing_params])%block.

Definition after_cleaning (event : ArrayEvent) (st : tel_state Info) (tel_id : Z)
  (cleaned : list bool * list float * list float) : M (tel_state Info) :=
  let '(clean_mask, event_image, event_pulse_time) := cleaned in
  num_islands <- lift (get_num_islands camera_scaled clean_mask event_image) ;;
  ' (event_image_cleaned, event_pulse_time_cleaned) <-
      lift (zero_outside_mask clean_mask event_image event_pulse_time) ;;
  if np_any event_image_cleaned then
    run_block
      (try_block
         (try_body event tel_id num_islands clean_mask event_image
            event_image_cleaned event_pulse_time_cleaned)
         is_ValueError
         (fun _ =>
            output (Print (HillasCalculationFailed
                             (index_event_id event) (index_obs_id event) tel_id))))
      st
  else
    emit (Print (DidNotPassCleaning
                   (index_event_id event) (index_obs_id event) tel_id)) ;;;
    ret st.

(** ** The stereo step that closes an event *)
Variable set_tel_id : Info -> Z -> Info.

Definition stereo_step (event : ArrayEvent) (st : tel_state Info)
  : M (tel_state Info) :=
  let computed := computed_hillas_params st in
  if 1 <? length (dict_keys computed) then
    if any_width_zero computed then
      emit (Print (WidthZeroStereoSkipped (index_event_id event) (index_obs_id event))) ;;;
      ret st
    else if any_width_nan computed then
      emit (Print (WidthNaNStereoSkipped (index_event_id event) (index_obs_id event))) ;;;
      ret st
    else
      stereo_params_mars <-
        lift (stereo_par_calc_mars ext computed (telescope_pointings st)) ;;
      stereo_params_cta <-
        lift (hillas_reconstructor_predict ext computed (pointing_array event)) ;;
      match event_info st with
      | None => lift (Raise NameError)
      | Some info =>
          let info := set_tel_id info (-1)%Z in
          emit (Write "stereo_params_mars"
                  [as_container info; CStereo stereo_params_mars]) ;;;
          emit (Write "stereo_params_cta"
                  [as_container info; CStereo stereo_params_cta]) ;;;
          ret {| computed_hillas_params := computed;
                 telescope_pointings := telescope_pointings st;
                 event_info := Some info |}
      end
  else ret st.
End Telescope.

(** ** process_dataset_mc *)

Definition mk_info_mc (event : ArrayEvent) (tel_id : Z) (num_islands : nat)
  : InfoContainerMC :=
  {| mc_obs_id := index_obs_id event;
     mc_event_id := int32 (index_event_id event);
     mc_tel_id := tel_id;
     true_energy := energy (mc event);
     true_alt := mc_alt (mc event);
     true_az := mc_az (mc event);
     true_core_x := core_x (mc event);
     true_core_y := core_y (mc event);
     mc_tel_alt := altitude (pointing_tel event tel_id);
     mc_tel_az := azimuth (pointing_tel event tel_id);
     mc_n_islands := num_islands |}.

Definition set_tel_id_mc (i : InfoContainerMC) (t : Z) : InfoContainerMC :=
  {| mc_obs_id := mc_obs_id i;
     mc_event_id := mc_event_id i;
     mc_tel_id := t;
     true_energy := true_energy i;
     true_alt := true_alt i;
     true_az := true_az i;
     true_core_x := true_core_x i;
     true_core_y := true_core_y i;
     mc_tel_alt := mc_tel_alt i;
     mc_tel_az := mc_tel_az i;
     mc_n_islands := mc_n_islands i |}.

Definition process_telescope_mc (event : ArrayEvent)
  (st : tel_state InfoContainerMC) (tel_id : Z) : M (tel_state InfoContainerMC) :=
  let event_image := image (dl1_tel event tel_id) in
  let event_pulse_time := peak_time (dl1_tel event tel_id) in
  cleaned <- lift (magic_clean_clean_image ext camera_scaled
                     (cleaning_config_MAGIC false)
                     event_image event_pulse_time None) ;;
  after_cleaning CInfoMC mk_info_mc event st tel_id cleaned.

(** The variables that live across events. *)
Record mc_state : Type := {
    obs_id_last : Z;
    mc_event_info : option InfoContainerMC
  }.

Definition telescope_loop_mc (event : ArrayEvent) (info : option InfoContainerMC)
  : M (tel_state InfoContainerMC) :=
  for_each (process_telescope_mc event) (r1_tels_with_data event)
    {| computed_hillas_params := [];
       telescope_pointings := [];
       event_info := info |}.

Definition write_mc_header (event : ArrayEvent) (st : mc_state) : M mc_state :=
  if negb (index_obs_id event =? obs_id_last st)%Z then
    emit (Write "mc_header" [CObsId (index_obs_id event); CMcHeader (mcheader event)]) ;;;
    ret {| obs_id_last := index_obs_id event; mc_event_info := mc_event_info st |}
  else ret st.

Definition process_event_mc (st : mc_state) (event : ArrayEvent) : M mc_state :=
  st <- write_mc_header event st ;;
  ts <- telescope_loop_mc event (mc_event_info st) ;;
  ts <- stereo_step CInfoMC set_tel_id_mc event ts ;;
  ret {| obs_id_last := obs_id_last st; mc_event_info := event_info ts |}.

Definition event_loop_mc (evs : list ArrayEvent) : M mc_state :=
  for_each process_event_mc evs
    {| obs_id_last := (-1)%Z; mc_event_info := None |}.

(** ** process_dataset_data *)

Definition mk_info_data (event : ArrayEvent) (tel_id : Z) (num_islands : nat)
  : InfoContainerData :=
  {| data_obs_id := index_obs_id event;
     data_event_id := int32 (index_event_id event);
     data_tel_id := tel_id;
     data_mjd := trigger_time_mjd event;
     data_tel_alt := altitude (pointing_tel event tel_id);
     data_tel_az := azimuth (pointing_tel event tel_id);
     data_n_islands := num_islands |}.

Definition set_tel_id_data (i : InfoContainerData) (t : Z) : InfoContainerData :=
  {| data_obs_id := data_obs_id i;
     data_event_id := data_event_id i;
     data_tel_id := t;
     data_mjd := data_mjd i;
     data_tel_alt := data_tel_alt i;
     data_tel_az := data_tel_az i;
     data_n_islands := data_n_islands i |}.

Definition process_telescope_data (event : ArrayEvent)
  (st : tel_state InfoContainerData) (tel_id : Z) : M (tel_state InfoContainerData) :=
  let event_image := image (dl1_tel event tel_id) in
  let event_pulse_time := peak_time (dl1_tel event tel_id) in
  badrmspixel_mask <- lift (get_badrmspixel_mask ext event) ;;
  deadpixel_mask <- lift (get_deadpixel_mask ext event) ;;
  bad <- lift (py_index badrmspixel_mask (tel_id - 1)) ;;
  dead <- lift (py_index deadpixel_mask (tel_id - 1)) ;;
  unsuitable_mask <- lift (logical_or bad dead) ;;
  cleaned <- lift (magic_clean_clean_image ext camera_scaled
                     (cleaning_config_MAGIC true)
                     event_image event_pulse_time (Some unsuitable_mask)) ;;
  after_cleaning CInfoData mk_info_data event st tel_id cleaned.

Record data_state : Type := {
    previous_event_id : Z;
    data_event_info : option InfoContainerData
  }.

Definition telescope_loop_data (event : ArrayEvent) (info : option InfoContainerData)
  : M (tel_state InfoContainerData) :=
  for_each (process_telescope_data event) (r1_tels_with_data event)
    {| computed_hillas_params := [];
       telescope_pointings := [];
       event_info := info |}.

Definition process_event_data (st : data_state) (event : ArrayEvent) : M data_state :=
  if (previous_event_id st =? index_event_id event)%Z then ret st
  else
    let previous := index_event_id event in
    ts <- telescope_loop_data event (data_event_info st) ;;
    ts <- stereo_step CInfoData set_tel_id_data event ts ;;
    ret {| previous_event_id := previous; data_event_info := event_info ts |}.

Definition event_loop_data (evs : list ArrayEvent) : M data_state :=
  for_each process_event_data evs
    {| previous_event_id := 0%Z; data_event_info := None |}.
End Script.

Definition process_dataset_mc (names : globals) (ext : collaborators)
  (source : EventSource) : M unit :=
  camera_scaled <- lift (scale_camera_geometry names ext (subarray_tel1_camera source)
                           aberration_factor) ;;
  event_loop_mc ext camera_scaled (events source) ;;;
  ret tt.

Definition process_dataset_data (names : globals) (ext : collaborators)
  (source : EventSource) : M unit :=
  camera_scaled <- lift (scale_camera_geometry names ext (subarray_tel1_camera source)
                           aberration_factor) ;;
  event_loop_data ext camera_scaled (events source) ;;;
  ret tt.

Close Scope trace_scope.

End HillasPreprocessing.

(* ================================================================== *)
(** * stereo_reco_MAGIC_LST.py                                          *)
(* ================================================================== *)

Module StereoReco.

Open Scope trace_scope.

(** An event as [SimTelEventSource] yields it.  [pointing_array] is the
    [array_pointing] of the event, the [SkyCoord] built at lines 126-130. *)
Record ArrayEvent : Type := {
  count : Z;
  index_obs_id : Z;
  index_event_id : Z;
  r0_tels_with_data : list Z;
  pointing_tel : Z -> TelescopePointingContainer;
  pointing_array : SkyCoord;
  mc : MCEventContainer
}.

Record tailcuts_config_t : Type := {
  tc_picture_thresh : float;
  tc_boundary_thresh : float;
  keep_isolated_pixels : bool;
  min_number_picture_neighbors : nat
}.

Definition cleaning_config_LST : tailcuts_config_t :=
  {| tc_picture_thresh := of_Z 8;
     tc_boundary_thresh := of_Z 4;
     keep_isolated_pixels := true;
     min_number_picture_neighbors := 0 |}.

Definition id_LST : list Z := [1; 2; 3; 4]%Z.
Definition id_MAGIC : list Z := [5; 6]%Z.

Definition memZ (t : Z) (l : list Z) : bool := existsb (Z.eqb t) l.

(** [list(set(a).intersection(b))], up to the order of the result. *)
Definition set_intersection (a b : list Z) : list Z :=
  nodup Z.eq_dec (filter (fun t => memZ t b) a).

(** What the script calls and does not define.  [calibrator] fills
    [event.dl1] and is given here as the items of [event.dl1.tel] it leaves,
    in iteration order; [check_write_stereo] lives in
    [magicctapipe.reco.stereo], writes through the table writer and may
    change the [tel_id] of the metadata it is handed.  [sky_coord],
    [convert_units] (the unit conversions made while the metadata container
    is filled) and [writer_write] are the calls made inside the [try] block
    after the first dictionary has been updated. *)
Record collaborators : Type := {
  calibrator : ArrayEvent -> result (list (Z * DL1CameraContainer));
  subarray_geometry : Z -> result CameraGeometry;
  tailcuts_clean :
    CameraGeometry -> list float -> tailcuts_config_t -> result (list bool);
  number_of_islands : CameraGeometry -> list bool -> result (nat * list nat);
  magic_clean_clean_image :
    CameraGeometry -> cleaning_config_t ->
    list float -> list float -> option (list bool) ->
    result (list bool * list float * list float);
  hillas_parameters :
    CameraGeometry -> list float -> result HillasParametersContainer;
  leakage : CameraGeometry -> list float -> list bool -> result LeakageContainer;
  timing_parameters :
    CameraGeometry -> list float -> list float ->
    HillasParametersContainer -> result TimingParametersContainer;
  sky_coord : float -> float -> result SkyCoord;
  convert_units : ArrayEvent -> Z -> result unit;
  writer_write : string -> list container -> result unit;
  check_write_stereo :
    ArrayEvent -> Z -> dict HillasParametersContainer -> SkyCoord ->
    dict SkyCoord -> InfoContainerSim -> M (option StereoContainer * InfoContainerSim);
  show_array_display :
    ArrayEvent -> dict HillasParametersContainer -> dict float ->
    option StereoContainer -> M unit
}.

(** [a[mask]] once the lengths are known to agree. *)
Definition take {A} (a : list A) (mask : list bool) (d : A) : list A :=
  map (fun i => nth i a d) (nonzero mask).

(** [geom[mask]]: the camera restricted to the selected pixels. *)
Definition geometry_getitem (geom : CameraGeometry) (mask : list bool)
  : result CameraGeometry :=
  if length mask =? n_pixels geom
  then Ok {| camera_name := camera_name geom;
             n_pixels := length (nonzero mask);
             pix_id := take (pix_id geom) mask 0%Z;
             pix_x := take (pix_x geom) mask fzero;
             pix_y := take (pix_y geom) mask fzero;
             pix_type := pix_type geom;
             pix_rotation := pix_rotation geom;
             cam_rotation := cam_rotation geom;
             neighbor_matrix_sparse := clean_neighbors geom mask |}
  else Raise IndexError.

(** The variables a telescope iteration reads and assigns; [loop_tel_id] is
    the loop variable, which outlives the loop. *)
Record tel_state : Type := {
  telescope_pointings : dict SkyCoord;
  computed_hillas_params : dict HillasParametersContainer;
  time_gradients : dict float;
  skip : bool;
  event_info : option InfoContainerSim;
  loop_tel_id : option Z
}.

Definition set_loop_tel_id (st : tel_state) (t : Z) : tel_state :=
  {| telescope_pointings := telescope_pointings st;
     computed_hillas_params := computed_hillas_params st;
     time_gradients := time_gradients st;
     skip := skip st;
     event_info := event_info st;
     loop_tel_id := Some t |}.

Definition set_skip (st : tel_state) : tel_state :=
  {| telescope_pointings := telescope_pointings st;
     computed_hillas_params := computed_hillas_params st;
     time_gradients := time_gradients st;
     skip := true;
     event_info := event_info st;
     loop_tel_id := loop_tel_id st |}.

(** [computed_hillas_params[tel_id] = hillas_params] *)
Definition set_hillas_params (tel_id : Z) (hillas_params : HillasParametersContainer)
  (st : tel_state) : tel_state :=
  {| telescope_pointings := telescope_pointings st;
     computed_hillas_params := dict_set tel_id hillas_params (computed_hillas_params st);
     time_gradients := time_gradients st;
     skip := skip st;
     event_info := event_info st;
     loop_tel_id := loop_tel_id st |}.

(** [telescope_pointings[tel_id] = pointing] *)
Definition set_pointing (tel_id : Z) (pointing : SkyCoord) (st : tel_state) : tel_state :=
  {| telescope_pointings := dict_set tel_id pointing (telescope_pointings st);
     computed_hillas_params := computed_hillas_params st;
     time_gradients := time_gradients st;
     skip := skip st;
     event_info := event_info st;
     loop_tel_id := loop_tel_id st |}.

(** [time_gradients[tel_id] = gradient] *)
Definition set_time_gradient (tel_id : Z) (gradient : float) (st : tel_state) : tel_state :=
  {| telescope_pointings := telescope_pointings st;
     computed_hillas_params := computed_hillas_params st;
     time_gradients := dict_set tel_id gradient (time_gradients st);
     skip := skip st;
     event_info := event_info st;
     loop_tel_id := loop_tel_id st |}.

(** [event_info = info] *)
Definition set_event_info (info : InfoContainerSim) (st : tel_state) : tel_state :=
  {| telescope_pointings := telescope_pointings st;
     computed_hillas_params := computed_hillas_params st;
     time_gradients := time_gradients st;
     skip := skip st;
     event_info := Some info;
     loop_tel_id := loop_tel_id st |}.

Definition engine_t : Type :=
  list float -> list float -> option (list bool) ->
  result (list bool * list float * list float).

Section Script.
Variable ext : collaborators.
Variable tels : list Z.
Variable display : bool.
(** [magic_clean] is bound only when a MAGIC telescope was asked for. *)
Variable magic_clean : option engine_t.

Definition mk_info (event : ArrayEvent) (tel_id : Z) (num_islands : nat)
  : InfoContainerSim :=
  {| sim_obs_id := index_obs_id event;
     sim_event_id := int32 (index_event_id event);
     sim_tel_id := tel_id;
     sim_true_energy := energy (mc event);
     sim_true_alt := mc_alt (mc event);
     sim_true_az := mc_az (mc event);
     sim_tel_alt := altitude (pointing_tel event tel_id);
     sim_tel_az := azimuth (pointing_tel event tel_id);
     sim_num_islands := num_islands |}.

(** Hillas, leakage and timing of a cleaned image, and the bookkeeping
    that follows them (lines 179-228).  The time gradient read back at line
    208 is the slope stored at line 205. *)
Definition analyse (event : ArrayEvent) (tel_id : Z)
  (geom : CameraGeometry) (image peakpos : list float) (clean : list bool)
  (num_islands : nat) : Block tel_state unit :=
  (geom_clean <- call (geometry_getitem geom clean) ;;
   image_clean <- call (bool_index image clean fzero) ;;
   hillas_params <- call (hillas_parameters ext geom_clean image_clean) ;;
   leakage_params <- call (leakage ext geom image clean) ;;
   peakpos_clean <- call (bool_index peakpos clean fzero) ;;
   timing_params <- call (timing_parameters ext geom_clean image_clean
                            peakpos_clean hillas_params) ;;
   assign (set_hillas_params tel_id hillas_params) ;;;
   pointing <- call (sky_coord ext (altitude (pointing_tel event tel_id))
                       (azimuth (pointing_tel event tel_id))) ;;
   assign (set_pointing tel_id pointing) ;;;
   assign (set_time_gradient tel_id (slope timing_params)) ;;;
   (if SFltb (SFabs (slope timing_params)) (literal 2 1)
    then assign (set_time_gradient tel_id (of_Z 1))
    else bret tt) ;;;
   call (convert_units ext event tel_id) ;;;
   let info := mk_info event tel_id num_islands in
   assign (set_event_info info) ;;;
   write (writer_write ext) "hillas_params"
     [CInfoSim info; CHillas hillas_params;
      CLeakage leakage_params; CTiming timing_params])%block.

(** The body of the [try] block of one telescope; a [continue] leaves it
    normally. *)
Definition telescope_body (event : ArrayEvent) (tel_id : Z) (dl1 : DL1CameraContainer)
  : Block tel_state unit :=
  (geom <- call (subarray_geometry ext tel_id) ;;
   let image := image dl1 in
   let peakpos := peak_time dl1 in
   match camera_name geom with
   | LSTCam =>
       clean <- call (tailcuts_clean ext geom image cleaning_config_LST) ;;
       if mask_sum clean <? 5 then bret tt
       else
         ' (num_islands, island_ids) <- call (number_of_islands ext geom clean) ;;
         analyse event tel_id geom image peakpos clean num_islands
   | MAGICCam =>
       match magic_clean with
       | None => call (Raise NameError)
       | Some clean_image =>
           ' (clean, event_image, peakpos) <- call (clean_image image peakpos None) ;;
           if mask_sum clean <? 5 then bret tt
           else
             num_islands <- call (get_num_islands geom clean event_image) ;;
             analyse event tel_id geom image peakpos clean num_islands
       end
   | OtherCam _ => bret tt
   end)%block.

(** One iteration of the loop over [event.dl1.tel.items()]: the handler
    finds the dictionaries as the body left them. *)
Definition process_telescope (event : ArrayEvent) (st : tel_state)
  (item : Z * DL1CameraContainer) : M tel_state :=
  let (tel_id, dl1) := item in
  let st := set_loop_tel_id st tel_id in
  if negb (memZ tel_id tels) then ret st
  else
    run_block
      (try_block
         (telescope_body event tel_id dl1)
         is_Exception
         (fun e =>
            (output (Print ImageNotReconstructed) ;;;
             output (Print (ExceptionText e)) ;;;
             assign set_skip)%block))
      st.

(** The loop over [event.dl1.tel.items()], left at the first [break]. *)
Fixpoint telescope_loop (event : ArrayEvent)
  (items : list (Z * DL1CameraContainer)) (st : tel_state) : M tel_state :=
  match items with
  | [] => ret st
  | item :: rest =>
      st <- process_telescope event st item ;;
      if skip st then ret st else telescope_loop event rest st
  end.

(** The variables that live across events. *)
Record loop_state : Type := {
    last_event_info : option InfoContainerSim;
    last_tel_id : option Z
  }.

Definition print_count (event : ArrayEvent) : M unit :=
  if display then emit (Print (EventCount (count event)))
  else if (count event mod 10 =? 0)%Z then emit (Print (EventCount (count event)))
  else ret tt.

(** What follows the telescope loop: the two [continue]s and the call of
    [check_write_stereo]. *)
Definition finish_event (event : ArrayEvent) (ts : tel_state) : M loop_state :=
  let array_pointing := pointing_array event in
  let st := {| last_event_info := event_info ts;
               last_tel_id := loop_tel_id ts |} in
  if skip ts then ret st
  else if length (computed_hillas_params ts) <? 2 then ret st
  else
    match loop_tel_id ts, event_info ts with
    | Some tel_id, Some info =>
        ' (stereo_params, info) <-
            check_write_stereo ext event tel_id (computed_hillas_params ts)
              array_pointing (telescope_pointings ts) info ;;
        (if display
         then show_array_display ext event (computed_hillas_params ts)
                (time_gradients ts) stereo_params
         else ret tt) ;;;
        ret {| last_event_info := Some info; last_tel_id := loop_tel_id ts |}
    | _, _ => lift (Raise NameError)
    end.

Definition process_event (st : loop_state) (event : ArrayEvent) : M loop_state :=
  print_count event ;;;
  let sel_tels := set_intersection (r0_tels_with_data event) tels in
  if length sel_tels <? 2 then ret st
  else
    items <- lift (calibrator ext event) ;;
    ts <- telescope_loop event items
            {| telescope_pointings := [];
               computed_hillas_params := [];
               time_gradients := [];
               skip := false;
               event_info := last_event_info st;
               loop_tel_id := last_tel_id st |} ;;
    finish_event event ts.

Definition event_loop (evs : list ArrayEvent) : M loop_state :=
  for_each process_event evs {| last_event_info := None; last_tel_id := None |}.
End Script.

Definition stereo_reco_MAGIC_LST (ext : collaborators) (source : list ArrayEvent)
  (tels : list Z) (max_events : nat) (display : bool) : M unit :=
  let tels := set_intersection tels (id_LST ++ id_MAGIC) in
  if length tels <? 2 then emit (Print SelectAtLeastTwoTelescopes)
  else
    let consider_MAGIC := existsb (fun t => memZ t id_MAGIC) tels in
    let evs := if max_events =? 0 then source else firstn max_events source in
    magic_clean <-
      (if consider_MAGIC
       then camera <- lift (subarray_geometry ext 5%Z) ;;
            ret (Some (magic_clean_clean_image ext camera (cleaning_config_MAGIC false)))
       else ret None) ;;
    event_loop ext tels display magic_clean evs ;;;
    ret tt.

Close Scope trace_scope.

End StereoReco.

(* ================================================================== *)
(** * The cleaning engine                                               *)
(* ================================================================== *)

(** [MAGIC_Cleaning.magic_clean] is not part of the sources at hand; the
    scripts only call it.  The engine below follows the design document,
    section 4.1, step by step. *)

Module CleaningEngine.

(** Modelled from the spec: the pixel topology of section 3, a pixel count
    and an adjacency relation (the engine's own type is missing). *)
Record PixelTopology : Type := {
  pixel_count : nat;
  adjacency : nat -> nat -> bool
}.

(** Modelled from the spec: the recognised options of section 4.1 (the
    engine's configuration is missing). *)
Record config : Type := {
  picture_threshold : float;
  boundary_threshold : float;
  max_time_offset : float;
  max_time_difference : float;
  use_time : bool;
  use_sum_time_reference : bool;
  find_hot_pixels : bool
}.

Definition fadd (a b : float) : float := SFadd prec emax a b.
Definition fsub (a b : float) : float := SFsub prec emax a b.

(** Modelled from the spec: a value of the image or of the time map; NaN
    fails every threshold test, and so does a value that is missing. *)
Definition value_at (a : list float) (i : nat) : float := nth i a S754_nan.

(** Modelled from the spec: a time difference no larger than a bound,
    [|a - b| <= bound]; false as soon as a NaN is involved. *)
Definition within (a b bound : float) : bool := SFleb (SFabs (fsub a b)) bound.

(** Modelled from the spec: the sum behind a mean (the cleaning engine is
    missing). *)
Definition fsum (l : list float) : float := fold_left fadd l fzero.

Section Engine.
(** The design leaves two points open: the statistical test that makes a
    pixel hot, and the number of passes of the core-time rejection. *)
Variable is_hot : PixelTopology -> list float -> nat -> bool.
Variable max_passes : nat.

Variable topology : PixelTopology.
Variable image : list float.
Variable time_map : list float.
Variable unsuitable_mask : list bool.
Variable cfg : config.

(** Modelled from the spec: the pixel indices [0 .. N-1] (the cleaning
    engine is missing). *)
Definition pixels : list nat := seq 0 (pixel_count topology).

(** Modelled from the spec: step 1, the pixels left out of every further
    step (the cleaning engine itself is missing from the sources). *)
Definition excluded (i : nat) : bool :=
  nth i unsuitable_mask false || (find_hot_pixels cfg && is_hot topology image i).

(** Modelled from the spec: step 2, remaining pixels whose charge reaches
    the picture threshold (the cleaning engine is missing). *)
Definition core_candidates : list bool :=
  map (fun i => negb (excluded i) && SFleb (picture_threshold cfg) (value_at image i))
      pixels.

(** Modelled from the spec: step 3, the mean arrival time of the core
    candidates, weighted by charge or not (the cleaning engine is missing). *)
Definition reference_time (core : list bool) : float :=
  let members := filter (fun i => nth i core false) pixels in
  if use_sum_time_reference cfg
  then fdiv (fsum (map (fun i => fmul (value_at image i) (value_at time_map i)) members))
            (fsum (map (value_at image) members))
  else fdiv (fsum (map (value_at time_map) members))
            (of_Z (Z.of_nat (length members))).

(** Modelled from the spec: one pass of step 3, dropping the core pixels
    whose time is further than [max_time_offset] from the reference (the
    cleaning engine is missing). *)
Definition reject_outliers (core : list bool) : list bool :=
  let reference := reference_time core in
  map (fun i => nth i core false &&
                within (value_at time_map i) reference (max_time_offset cfg))
      pixels.

(** Modelled from the spec: step 3 repeated a bounded number of times (the
    cleaning engine is missing). *)
Fixpoint reject_passes (passes : nat) (core : list bool) : list bool :=
  match passes with
  | O => core
  | S p => reject_passes p (reject_outliers core)
  end.

(** Modelled from the spec: steps 3 and 4, the accepted core pixels (the
    cleaning engine is missing). *)
Definition accepted_core : list bool :=
  if use_time cfg then reject_passes max_passes core_candidates else core_candidates.

(** Modelled from the spec: step 5, whether pixel [i] joins the mask next
    to an accepted neighbour (the cleaning engine is missing). *)
Definition recruits (mask : list bool) (i : nat) : bool :=
  negb (excluded i) &&
  SFleb (boundary_threshold cfg) (value_at image i) &&
  existsb (fun j => adjacency topology i j && nth j mask false &&
                    (negb (use_time cfg) ||
                     within (value_at time_map i) (value_at time_map j)
                            (max_time_difference cfg)))
          pixels.

(** Modelled from the spec: one round of the boundary expansion of step 5
    (the cleaning engine is missing). *)
Definition expand_boundary (mask : list bool) : list bool :=
  map (fun i => nth i mask false || recruits mask i) pixels.

(** Modelled from the spec: step 5 repeated until nothing is added (the
    cleaning engine is missing).  Every round that changes the mask adds a
    pixel, so [pixel_count] rounds reach the fixed point. *)
Fixpoint expand_rounds (rounds : nat) (mask : list bool) : list bool :=
  match rounds with
  | O => mask
  | S r => expand_rounds r (expand_boundary mask)
  end.

(** Modelled from the spec: [clean(image, time_map, topology,
    unsuitable_mask, config)], steps 1 to 6 (the cleaning engine is
    missing from the sources). *)
Definition clean : list bool :=
  expand_rounds (pixel_count topology) accepted_core.
End Engine.

End CleaningEngine.

(* ================================================================== *)
(** * Concrete cameras, events and collaborators                        *)
(* ================================================================== *)

(** Small instances on which the scripts can be run; the collaborators are
    stand-ins with the right interfaces. *)
Module Samples.

(** [n] pixels in a row, each next to its two neighbours. *)
Definition row_neighbors (n : nat) : sparse_matrix :=
  {| n_rows := n; n_cols := n;
     entry := fun i j => (i =? S j) || (j =? S i) |}.

Definition row_camera (name : camera_name_t) (n : nat) : CameraGeometry :=
  {| camera_name := name;
     n_pixels := n;
     pix_id := map Z.of_nat (seq 0 n);
     pix_x := map (fun i => of_Z (Z.of_nat i)) (seq 0 n);
     pix_y := repeat fzero n;
     pix_type := "hexagonal";
     pix_rotation := fzero;
     cam_rotation := fzero;
     neighbor_matrix_sparse := row_neighbors n |}.

(** A stand-in for the [CameraGeometry] constructor: the pixels it is given,
    each next to the one before and the one after it. *)
Definition row_geometry (name : camera_name_t) (ids : list Z)
  (xs ys areas : list float) (type : string) (pix_rot cam_rot : float)
  : result CameraGeometry :=
  Ok {| camera_name := name;
        n_pixels := length ids;
        pix_id := ids;
        pix_x := xs;
        pix_y := ys;
        pix_type := type;
        pix_rotation := pix_rot;
        cam_rotation := cam_rot;
        neighbor_matrix_sparse := row_neighbors (length ids) |}.

Definition ellipse (w : float) : HillasParametersContainer :=
  {| intensity := of_Z 100; hillas_x := fzero; hillas_y := fzero;
     length_ := of_Z 2; width := w; psi := fzero |}.

Definition no_timing : TimingParametersContainer :=
  {| slope := fzero; intercept := fzero |}.

Definition no_leakage : LeakageContainer :=
  {| pixels_width_1 := fzero; pixels_width_2 := fzero;
     intensity_width_1 := fzero; intensity_width_2 := fzero |}.

Definition origin : StereoContainer :=
  {| reco_alt := fzero; reco_az := fzero; reco_core_x := fzero; reco_core_y := fzero |}.

Definition zenith : SkyCoord := {| alt := of_Z 1; az := fzero |}.

Definition upwards : TelescopePointingContainer :=
  {| altitude := of_Z 1; azimuth := fzero |}.

(** A [SkyCoord] constructor that takes every direction. *)
Definition any_direction (alt az : float) : result SkyCoord :=
  Ok {| alt := alt; az := az |}.

Definition shower : MCEventContainer :=
  {| energy := of_Z 1; mc_alt := of_Z 1; mc_az := fzero;
     core_x := fzero; core_y := fzero |}.

(** Keeps the pixels whose charge reaches the boundary threshold. *)
Definition threshold_engine (camera : CameraGeometry) (cfg : cleaning_config_t)
  (event_image event_pulse_time : list float) (unsuitable : option (list bool))
  : result (list bool * list float * list float) :=
  Ok (map (fun q => SFleb (boundary_thresh cfg) q) event_image,
      event_image, event_pulse_time).

(** Refuses an image with a saturated pixel or with a single lit pixel. *)
Definition toy_hillas (camera : CameraGeometry) (img : list float)
  : result HillasParametersContainer :=
  if existsb (fun q => SFleb (of_Z 1000) q) img then Raise RuntimeError
  else if length (filter truthy img) <? 2 then Raise ValueError
  else Ok (ellipse (of_Z 1)).

Definition charges (l : list Z) : list float := map of_Z l.

Definition value_or {A} (d : A) (r : result A) : A :=
  match r with
  | Ok a => a
  | Raise _ => d
  end.

Module Magic.
Import HillasPreprocessing.

Definition ext : collaborators :=
  {| camera_geometry := row_geometry;
     magic_clean_clean_image := threshold_engine;
     hillas_parameters := toy_hillas;
     timing_parameters := fun _ _ _ _ _ => Ok no_timing;
     leakage := fun _ _ _ => Ok no_leakage;
     sky_coord := any_direction;
     convert_units := fun _ _ => Ok tt;
     writer_write := fun _ _ => Ok tt;
     stereo_par_calc_mars := fun _ _ => Ok origin;
     hillas_reconstructor_predict := fun _ _ => Ok origin;
     get_badrmspixel_mask := fun _ => Ok [repeat false 4; repeat false 4];
     get_deadpixel_mask := fun _ => Ok [repeat false 4; repeat false 4] |}.

Definition camera : CameraGeometry := row_camera MAGICCam 4.

(** Telescope 1 sees a single lit pixel, telescope 2 a two-pixel image. *)
Definition event (id : Z) : ArrayEvent :=
  {| index_obs_id := 7;
     index_event_id := id;
     r1_tels_with_data := [1; 2]%Z;
     dl1_tel := fun t =>
       if (t =? 1)%Z
       then {| image := charges [10; 0; 0; 0]%Z; peak_time := charges [3; 3; 3; 3]%Z |}
       else {| image := charges [10; 10; 0; 0]%Z; peak_time := charges [3; 3; 3; 3]%Z |};
     pointing_tel := fun _ => upwards;
     pointing_array := zenith;
     mc := shower;
     mcheader := 0;
     trigger_time_mjd := of_Z 59000 |}.

Definition empty_state : tel_state InfoContainerMC :=
  {| computed_hillas_params := [];
     telescope_pointings := [];
     event_info := None |}.

(** As [event], with a saturated pixel in the image of telescope 1. *)
Definition saturated_event (id : Z) : ArrayEvent :=
  {| index_obs_id := 7;
     index_event_id := id;
     r1_tels_with_data := [1; 2]%Z;
     dl1_tel := fun t =>
       if (t =? 1)%Z
       then {| image := charges [2000; 10; 0; 0]%Z; peak_time := charges [3; 3; 3; 3]%Z |}
       else {| image := charges [10; 10; 0; 0]%Z; peak_time := charges [3; 3; 3; 3]%Z |};
     pointing_tel := fun _ => upwards;
     pointing_array := zenith;
     mc := shower;
     mcheader := 0;
     trigger_time_mjd := of_Z 59000 |}.

Definition start : mc_state := {| obs_id_last := (-1)%Z; mc_event_info := None |}.

Definition state_with (d : dict HillasParametersContainer)
  : tel_state InfoContainerMC :=
  {| computed_hillas_params := d;
     telescope_pointings := map (fun kv => (fst kv, zenith)) d;
     event_info := Some (mk_info_mc (event 1) 2 1) |}.
End Magic.

Module Sim.
Import StereoReco.

Definition saturated : DL1CameraContainer :=
  {| image := charges [2000; 10; 10; 10; 10; 10]%Z;
     peak_time := charges [3; 3; 3; 3; 3; 3]%Z |}.

Definition bright : DL1CameraContainer :=
  {| image := charges [10; 10; 10; 10; 10; 10]%Z;
     peak_time := charges [3; 3; 3; 3; 3; 3]%Z |}.

Definition faint : DL1CameraContainer :=
  {| image := charges [10; 10; 10; 0; 0; 0]%Z;
     peak_time := charges [3; 3; 3; 3; 3; 3]%Z |}.

Definition check_t : Type :=
  ArrayEvent -> Z -> dict HillasParametersContainer -> SkyCoord ->
  dict SkyCoord -> InfoContainerSim -> M (option StereoContainer * InfoContainerSim).

(** A stand-in for [check_write_stereo] that writes one row with the
    metadata it is handed. *)
Definition plain_check : check_t :=
  fun _ _ _ _ _ info =>
    (emit (Write "stereo_params" [CInfoSim info; CStereo origin]) ;;;
     ret (Some origin, info))%trace.

(** Collaborators for an array of row cameras in which the calibration
    leaves [items] in [event.dl1.tel]. *)
Definition with_items (items : list (Z * DL1CameraContainer)) (check : check_t)
  : collaborators :=
  {| calibrator := fun _ => Ok items;
     subarray_geometry := fun t =>
       Ok (row_camera (if (t <=? 4)%Z then LSTCam else MAGICCam) 6);
     tailcuts_clean := fun _ img cfg =>
       Ok (map (fun q => SFleb (tc_boundary_thresh cfg) q) img);
     number_of_islands := fun geom mask =>
       connected_components (clean_neighbors geom mask);
     magic_clean_clean_image := threshold_engine;
     hillas_parameters := toy_hillas;
     leakage := fun _ _ _ => Ok no_leakage;
     timing_parameters := fun _ _ _ _ => Ok no_timing;
     sky_coord := any_direction;
     convert_units := fun _ _ => Ok tt;
     writer_write := fun _ _ => Ok tt;
     check_write_stereo := check;
     show_array_display := fun _ _ _ _ => ret tt |}.

Definition ext : collaborators :=
  with_items [(1%Z, saturated); (2%Z, bright)] plain_check.

Definition event : ArrayEvent :=
  {| count := 0;
     index_obs_id := 7;
     index_event_id := 42;
     r0_tels_with_data := [1; 2]%Z;
     pointing_tel := fun _ => upwards;
     pointing_array := zenith;
     mc := shower |}.

Definition empty_state : tel_state :=
  {| telescope_pointings := [];
     computed_hillas_params := [];
     time_gradients := [];
     skip := false;
     event_info := None;
     loop_tel_id := None |}.

End Sim.

Module Engine.
Import CleaningEngine.

Definition row (n : nat) : PixelTopology :=
  {| pixel_count := n; adjacency := fun i j => (i =? S j) || (j =? S i) |}.

Definition cfg (with_time : bool) : config :=
  {| picture_threshold := of_Z 6;
     boundary_threshold := literal 35 1;
     max_time_offset := fmul (literal 45 1) (literal 164 2);
     max_time_difference := fmul (literal 15 1) (literal 164 2);
     use_time := with_time;
     use_sum_time_reference := true;
     find_hot_pixels := false |}.

Definition never_hot (t : PixelTopology) (img : list float) (i : nat) : bool := false.

(** Five pixels in a row: a core pixel, a boundary pixel, a dead pixel
    with a large charge, a boundary pixel cut off behind it, a dim pixel. *)
Definition image : list float := charges [10; 4; 50; 4; 1]%Z.
Definition time_map : list float := charges [3; 3; 3; 3; 3]%Z.
Definition unsuitable : list bool := [false; false; true; false; false].
End Engine.

End Samples.

(* ================================================================== *)
(** * The main code of the pre-processing script                        *)
(* ================================================================== *)

(** Lines 443-535 of [hillas_preprocessing_MAGICCleaning_stereo_mars.py]:
    the choice of the data types and samples to process, the checks on the
    configuration and the calls of [process_dataset_mc] and
    [process_dataset_data].  The configuration is the parsed YAML file, a
    mapping of mappings; the two processing functions are applied to the
    file names found in it. *)
Module PreprocessingMain.

(** A mapping with string keys, in the order of the file. *)
Definition sdict (V : Type) : Type := list (string * V).

Fixpoint sdict_get {V} (k : string) (d : sdict V) : option V :=
  match d with
  | [] => None
  | (k', v) :: rest => if String.eqb k k' then Some v else sdict_get k rest
  end.

Definition sdict_keys {V} (d : sdict V) : list string := map fst d.

(** [k in d] *)
Definition sdict_mem {V} (k : string) (d : sdict V) : bool :=
  existsb (String.eqb k) (sdict_keys d).

(** [config]: the sections [data_files] (data type, then sample, then
    telescope type, then file names) and [image_cleaning] (telescope type,
    then settings of some type [C]); either may be missing. *)
Record config_t (C : Type) : Type := {
  data_files : option (sdict (sdict (sdict (sdict string))));
  image_cleaning : option (sdict C)
}.

Arguments data_files {C} _.
Arguments image_cleaning {C} _.

Record args_t : Type := {
  config_path : string;
  usereal : bool;
  usemc : bool;
  usetest : bool;
  usetrain : bool
}.

Inductive main_exn : Type :=
  | KeyError (key : string)
  | TelescopeNotInConfigurationFile (telescope_type : string)
  | TelescopeWithoutCleaningSettings (telescope_type : string)
  | SystemExit
  | Propagated (e : exn).

Inductive main_action : Type :=
  | PrintFileNotFound (path : string)
  | PrintMissingSection (section : string)
  | InfoMessage (data_type sample telescope_type : string)
  | Processed (is_mc : bool) (input_mask output_name : string) (output : list action).

(** What the script has done when it stops, and the exception that stopped
    it, if any. *)
Definition run : Type := (list main_action * option main_exn)%type.

Definition andthen (r : run) (k : run) : run :=
  match r with
  | (t, None) => let (t', e) := k in (t ++ t', e)
  | (t, Some e) => (t, Some e)
  end.

(** [for x in xs: body(x)], left at the first exception. *)
Fixpoint for_all {A} (body : A -> run) (xs : list A) : run :=
  match xs with
  | [] => ([], None)
  | x :: rest => andthen (body x) (for_all body rest)
  end.

(** [c.lower()] on an ASCII letter. *)
Definition lower_ascii (c : Ascii.ascii) : Ascii.ascii :=
  let n := Ascii.nat_of_ascii c in
  if (65 <=? n) && (n <=? 90) then Ascii.ascii_of_nat (n + 32) else c.

(** [s.lower()], for ASCII strings. *)
Fixpoint lower (s : string) : string :=
  match s with
  | EmptyString => EmptyString
  | String c rest => String (lower_ascii c) (lower rest)
  end.

Section Main.
Variable C : Type.
(** [process_dataset_mc(input_mask, output_name)] and
    [process_dataset_data(input_mask, output_name)]. *)
Variable process_dataset_mc : string -> string -> M unit.
Variable process_dataset_data : string -> string -> M unit.

Definition data_type_to_process (args : args_t)
  (files : sdict (sdict (sdict (sdict string)))) : list string :=
  if usereal args && usemc args then sdict_keys files
  else if usereal args then ["data"%string]
  else if usemc args then ["mc"%string]
  else sdict_keys files.

Definition data_sample_to_process (args : args_t) : list string :=
  if usetrain args && usetest args then ["train_sample"%string; "test_sample"%string]
  else if usetrain args then ["train_sample"%string]
  else if usetest args then ["test_sample"%string]
  else ["train_sample"%string; "test_sample"%string].

(** [d[k]], raising [KeyError]. *)
Definition lookup {V} (k : string) (d : sdict V) (found : V -> run) : run :=
  match sdict_get k d with
  | Some v => found v
  | None => ([], Some (KeyError k))
  end.

Definition call (is_mc : bool) (input_mask output_name : string) : run :=
  let (output, r) := (if is_mc then process_dataset_mc else process_dataset_data)
                       input_mask output_name in
  ([Processed is_mc input_mask output_name output],
   match r with
   | Ok _ => None
   | Raise e => Some (Propagated e)
   end).

(** The body of the innermost loop. *)
Definition process_one (files : sdict (sdict (sdict (sdict string))))
  (cleaning : sdict C) (data_type sample telescope_type : string) : run :=
  lookup data_type files (fun by_sample =>
  lookup sample by_sample (fun by_telescope =>
  if negb (sdict_mem telescope_type by_telescope)
  then ([], Some (TelescopeNotInConfigurationFile telescope_type))
  else if negb (sdict_mem telescope_type cleaning)
  then ([], Some (TelescopeWithoutCleaningSettings telescope_type))
  else
    andthen ([InfoMessage data_type sample telescope_type], None)
      (let is_mc := String.eqb (lower data_type) "mc" in
       lookup telescope_type by_telescope (fun names =>
       lookup "input_mask" names (fun input_mask =>
       lookup "hillas_output" names (fun output_name =>
       call is_mc input_mask output_name)))))).

Definition main (args : args_t) (loaded : option (config_t C)) : run :=
  match loaded with
  | None => ([PrintFileNotFound (config_path args)], Some SystemExit)
  | Some config =>
      match data_files config with
      | None => ([PrintMissingSection "data_files"], Some SystemExit)
      | Some files =>
          match image_cleaning config with
          | None => ([PrintMissingSection "image_cleaning"], Some SystemExit)
          | Some cleaning =>
              let telescopes_to_process := sdict_keys cleaning in
              for_all (fun data_type =>
                for_all (fun sample =>
                  for_all (process_one files cleaning data_type sample)
                    telescopes_to_process)
                  (data_sample_to_process args))
                (data_type_to_process args files)
          end
      end
  end.
End Main.

End PreprocessingMain.

(* ================================================================== *)
(** * Further concrete instances                                        *)
(* ================================================================== *)

Module MoreSamples.

(** The row camera with each neighbour pair stored in one direction only. *)
Definition one_way_row_camera (name : camera_name_t) (n : nat) : CameraGeometry :=
  {| camera_name := name;
     n_pixels := n;
     pix_id := map Z.of_nat (seq 0 n);
     pix_x := map (fun i => of_Z (Z.of_nat i)) (seq 0 n);
     pix_y := repeat fzero n;
     pix_type := "hexagonal";
     pix_rotation := fzero;
     cam_rotation := fzero;
     neighbor_matrix_sparse :=
       {| n_rows := n; n_cols := n; entry := fun i j => j =? S i |} |}.


(** The collaborators of [Samples.Magic], with a time fit that fails. *)
Definition no_time_fit : HillasPreprocessing.collaborators :=
  {| HillasPreprocessing.camera_geometry := Samples.row_geometry;
     HillasPreprocessing.magic_clean_clean_image := Samples.threshold_engine;
     HillasPreprocessing.hillas_parameters := Samples.toy_hillas;
     HillasPreprocessing.timing_parameters := fun _ _ _ _ _ => Raise ValueError;
     HillasPreprocessing.leakage := fun _ _ _ => Ok Samples.no_leakage;
     HillasPreprocessing.sky_coord := Samples.any_direction;
     HillasPreprocessing.convert_units := fun _ _ => Ok tt;
     HillasPreprocessing.writer_write := fun _ _ => Ok tt;
     HillasPreprocessing.stereo_par_calc_mars := fun _ _ => Ok Samples.origin;
     HillasPreprocessing.hillas_reconstructor_predict := fun _ _ => Ok Samples.origin;
     HillasPreprocessing.get_badrmspixel_mask :=
       fun _ => Ok [repeat false 4; repeat false 4];
     HillasPreprocessing.get_deadpixel_mask :=
       fun _ => Ok [repeat false 4; repeat false 4] |}.

(** [Samples.Magic.event] under another observation identifier. *)
Definition event_of_obs (obs id : Z) : HillasPreprocessing.ArrayEvent :=
  {| HillasPreprocessing.index_obs_id := obs;
     HillasPreprocessing.index_event_id := id;
     HillasPreprocessing.r1_tels_with_data := [1; 2]%Z;
     HillasPreprocessing.dl1_tel := fun _ =>
       {| image := Samples.charges [10; 10; 0; 0]%Z;
          peak_time := Samples.charges [3; 3; 3; 3]%Z |};
     HillasPreprocessing.pointing_tel := fun _ => Samples.upwards;
     HillasPreprocessing.pointing_array := Samples.zenith;
     HillasPreprocessing.mc := Samples.shower;
     HillasPreprocessing.mcheader := obs;
     HillasPreprocessing.trigger_time_mjd := of_Z 59000 |}.

(** Two telescopes with a full image, then one whose image is too small. *)
Definition three_items : list (Z * DL1CameraContainer) :=
  [(1%Z, Samples.Sim.bright); (2%Z, Samples.Sim.bright); (3%Z, Samples.Sim.faint)].

Definition after_three_items : StereoReco.tel_state :=
  Samples.value_or Samples.Sim.empty_state
    (outcome_of (StereoReco.telescope_loop Samples.Sim.ext [1; 2; 3]%Z None
                   Samples.Sim.event three_items Samples.Sim.empty_state)).

(** An event of the MAGIC+LST script in which a single telescope triggered. *)
Definition lonely_event : StereoReco.ArrayEvent :=
  {| StereoReco.count := 3;
     StereoReco.index_obs_id := 7;
     StereoReco.index_event_id := 43;
     StereoReco.r0_tels_with_data := [2; 2; 9]%Z;
     StereoReco.pointing_tel := fun _ => Samples.upwards;
     StereoReco.pointing_array := Samples.zenith;
     StereoReco.mc := Samples.shower |}.

(** A configuration with one telescope type, MC and real data. *)
Definition magic_files : PreprocessingMain.sdict string :=
  [("input_mask"%string, "in.root"%string); ("hillas_output"%string, "out.h5"%string)].

Definition both_samples
  : PreprocessingMain.sdict (PreprocessingMain.sdict (PreprocessingMain.sdict string)) :=
  [("train_sample"%string, [("magic"%string, magic_files)]);
   ("test_sample"%string, [("magic"%string, magic_files)])].

Definition config : PreprocessingMain.config_t nat :=
  {| PreprocessingMain.data_files :=
       Some [("mc"%string, both_samples); ("data"%string, both_samples)];
     PreprocessingMain.image_cleaning := Some [("magic"%string, 6)] |}.

Definition args (real mc : bool) : PreprocessingMain.args_t :=
  {| PreprocessingMain.config_path := "config.yaml";
     PreprocessingMain.usereal := real;
     PreprocessingMain.usemc := mc;
     PreprocessingMain.usetest := false;
     PreprocessingMain.usetrain := false |}.

(** Stand-ins for the two processing functions. *)
Definition quiet (input_mask output_name : string) : M unit := ret tt.

(** The collaborators of [Samples.Magic], with a [SkyCoord] constructor
    that refuses an altitude above 2 rad. *)
Definition strict_sky : HillasPreprocessing.collaborators :=
  {| HillasPreprocessing.camera_geometry := Samples.row_geometry;
     HillasPreprocessing.magic_clean_clean_image := Samples.threshold_engine;
     HillasPreprocessing.hillas_parameters := Samples.toy_hillas;
     HillasPreprocessing.timing_parameters := fun _ _ _ _ _ => Ok Samples.no_timing;
     HillasPreprocessing.leakage := fun _ _ _ => Ok Samples.no_leakage;
     HillasPreprocessing.sky_coord := fun alt az =>
       if SFltb (of_Z 2) alt then Raise ValueError else Ok {| alt := alt; az := az |};
     HillasPreprocessing.convert_units := fun _ _ => Ok tt;
     HillasPreprocessing.writer_write := fun _ _ => Ok tt;
     HillasPreprocessing.stereo_par_calc_mars := fun _ _ => Ok Samples.origin;
     HillasPreprocessing.hillas_reconstructor_predict := fun _ _ => Ok Samples.origin;
     HillasPreprocessing.get_badrmspixel_mask :=
       fun _ => Ok [repeat false 4; repeat false 4];
     HillasPreprocessing.get_deadpixel_mask :=
       fun _ => Ok [repeat false 4; repeat false 4] |}.

(** [stereo_event 1] with an altitude of 3 rad reported for telescope 1. *)
Definition tilted_event : HillasPreprocessing.ArrayEvent :=
  {| HillasPreprocessing.index_obs_id := 7;
     HillasPreprocessing.index_event_id := 1;
     HillasPreprocessing.r1_tels_with_data := [1; 2]%Z;
     HillasPreprocessing.dl1_tel := fun _ =>
       {| image := Samples.charges [10; 10; 0; 0]%Z;
          peak_time := Samples.charges [3; 3; 3; 3]%Z |};
     HillasPreprocessing.pointing_tel := fun t =>
       if (t =? 1)%Z then {| altitude := of_Z 3; azimuth := fzero |}
       else Samples.upwards;
     HillasPreprocessing.pointing_array := Samples.zenith;
     HillasPreprocessing.mc := Samples.shower;
     HillasPreprocessing.mcheader := 0;
     HillasPreprocessing.trigger_time_mjd := of_Z 59000 |}.



(** The collaborators of [Samples.Sim], with a [SkyCoord] constructor
    that refuses an altitude above 2 rad. *)
Definition no_second_pointing : StereoReco.collaborators :=
  {| StereoReco.calibrator := fun _ =>
       Ok [(1%Z, Samples.Sim.bright); (2%Z, Samples.Sim.bright)];
     StereoReco.subarray_geometry := fun t =>
       Ok (Samples.row_camera (if (t <=? 4)%Z then LSTCam else MAGICCam) 6);
     StereoReco.tailcuts_clean := fun _ img cfg =>
       Ok (map (fun q => SFleb (StereoReco.tc_boundary_thresh cfg) q) img);
     StereoReco.number_of_islands := fun geom mask =>
       connected_components (clean_neighbors geom mask);
     StereoReco.magic_clean_clean_image := Samples.threshold_engine;
     StereoReco.hillas_parameters := Samples.toy_hillas;
     StereoReco.leakage := fun _ _ _ => Ok Samples.no_leakage;
     StereoReco.timing_parameters := fun _ _ _ _ => Ok Samples.no_timing;
     StereoReco.sky_coord := fun alt az =>
       if SFltb (of_Z 2) alt then Raise ValueError else Ok {| alt := alt; az := az |};
     StereoReco.convert_units := fun _ _ => Ok tt;
     StereoReco.writer_write := fun _ _ => Ok tt;
     StereoReco.check_write_stereo := Samples.Sim.plain_check;
     StereoReco.show_array_display := fun _ _ _ _ => ret tt |}.

(** [Samples.Sim.event] with an altitude of 3 rad reported for
    telescope 2. *)
Definition sim_tilted_event : StereoReco.ArrayEvent :=
  {| StereoReco.count := 0;
     StereoReco.index_obs_id := 7;
     StereoReco.index_event_id := 42;
     StereoReco.r0_tels_with_data := [1; 2]%Z;
     StereoReco.pointing_tel := fun t =>
       if (t =? 2)%Z then {| altitude := of_Z 3; azimuth := fzero |}
       else Samples.upwards;
     StereoReco.pointing_array := Samples.zenith;
     StereoReco.mc := Samples.shower |}.

(** The variables the telescope loop of [Samples.Sim.event] leaves when
    telescopes 1 and 3 are dropped for their small images. *)
Definition one_ellipse_left : StereoReco.tel_state :=
  Samples.value_or Samples.Sim.empty_state
    (outcome_of (StereoReco.telescope_loop Samples.Sim.ext [1; 2; 3]%Z None
                   Samples.Sim.event
                   [(1%Z, Samples.Sim.faint); (2%Z, Samples.Sim.bright);
                    (3%Z, Samples.Sim.faint)]
                   Samples.Sim.empty_state)).

(** The variables the telescope loop of [Samples.Sim.event] leaves when
    telescopes 1 and 2 get their ellipses and telescope 3 raises. *)
Definition two_ellipses_and_skip : StereoReco.tel_state :=
  Samples.value_or Samples.Sim.empty_state
    (outcome_of (StereoReco.telescope_loop Samples.Sim.ext [1; 2; 3]%Z None
                   Samples.Sim.event
                   [(1%Z, Samples.Sim.bright); (2%Z, Samples.Sim.bright);
                    (3%Z, Samples.Sim.saturated)]
                   Samples.Sim.empty_state)).






(** The variables of an event of the real-data path before its first
    telescope. *)
Definition empty_data_state : HillasPreprocessing.tel_state InfoContainerData :=
  {| HillasPreprocessing.computed_hillas_params := [];
     HillasPreprocessing.telescope_pointings := [];
     HillasPreprocessing.event_info := None |}.

End MoreSamples.

(** The rows of one table in a trace. *)
Definition rows_of (table : string) (t : list action) : list (list container) :=
  flat_map (fun a => match a with
                     | Write name row => if String.eqb name table then [row] else []
                     | Print _ => []
                     end) t.

(** The [SkyCoord] of telescope [tel] in [event], as the constructor gives
    it in the pre-processing script. *)
Definition pointing_of (ext : HillasPreprocessing.collaborators)
  (event : HillasPreprocessing.ArrayEvent) (tel : Z) : result SkyCoord :=
  HillasPreprocessing.sky_coord ext
    (altitude (HillasPreprocessing.pointing_tel event tel))
    (azimuth (HillasPreprocessing.pointing_tel event tel)).

(** The line printed when the [try] block of telescope [tel] is left by a
    [ValueError]. *)
Definition failed_line (event : HillasPreprocessing.ArrayEvent) (tel : Z) : list action :=
  [Print (HillasCalculationFailed (HillasPreprocessing.index_event_id event)
            (HillasPreprocessing.index_obs_id event) tel)].

(** The variables of the event once telescope [tel] has got its ellipse
    [h], its pointing [p] and the metadata of an image of [n] islands. *)
Definition fully_recorded {Info : Type}
  (mk_info : HillasPreprocessing.ArrayEvent -> Z -> nat -> Info)
  (event : HillasPreprocessing.ArrayEvent) (tel : Z)
  (h : HillasParametersContainer) (p : SkyCoord) (n : nat)
  (st : HillasPreprocessing.tel_state Info) : HillasPreprocessing.tel_state Info :=
  HillasPreprocessing.set_event_info (mk_info event tel n)
    (HillasPreprocessing.set_pointing tel p
       (HillasPreprocessing.set_hillas_params tel h st)).

(** What one telescope iteration of the pre-processing script leaves when it
    ends normally.  Either nothing is recorded and a message is printed; or
    a [ValueError] came after the ellipse was stored, from the [SkyCoord]
    constructor, from the unit conversions or from the writer, and the
    message is printed with the ellipse, or the ellipse and the pointing, or
    all three variables assigned; or the row is written and all three are
    assigned. *)
Definition telescope_outcome {Info : Type} (ext : HillasPreprocessing.collaborators)
  (as_container : Info -> container)
  (mk_info : HillasPreprocessing.ArrayEvent -> Z -> nat -> Info)
  (event : HillasPreprocessing.ArrayEvent)
  (st : HillasPreprocessing.tel_state Info) (tel : Z)
  (t : list action) (st' : HillasPreprocessing.tel_state Info) : Prop :=
  (st' = st /\
   (t = [Print (DidNotPassCleaning (HillasPreprocessing.index_event_id event)
                  (HillasPreprocessing.index_obs_id event) tel)] \/
    t = failed_line event tel)) \/
  (exists h,
     t = failed_line event tel /\
     pointing_of ext event tel = Raise ValueError /\
     st' = HillasPreprocessing.set_hillas_params tel h st) \/
  (exists h p,
     t = failed_line event tel /\
     pointing_of ext event tel = Ok p /\
     HillasPreprocessing.convert_units ext event tel = Raise ValueError /\
     st' = HillasPreprocessing.set_pointing tel p
             (HillasPreprocessing.set_hillas_params tel h st)) \/
  (exists h p n row,
     t = failed_line event tel /\
     pointing_of ext event tel = Ok p /\
     HillasPreprocessing.writer_write ext "hillas_params" row = Raise ValueError /\
     st' = fully_recorded mk_info event tel h p n st) \/
  (exists h p n l tm,
     t = [Write "hillas_params"
            [as_container (mk_info event tel n); CHillas h; CLeakage l; CTiming tm]] /\
     pointing_of ext event tel = Ok p /\
     st' = fully_recorded mk_info event tel h p n st).

(** For telescope [tel], nothing that follows the storing of the ellipse in
    the [try] block raises [ValueError]. *)
Definition bookkeeping_sound (ext : HillasPreprocessing.collaborators)
  (event : HillasPreprocessing.ArrayEvent) (tel : Z) : Prop :=
  pointing_of ext event tel <> Raise ValueError /\
  HillasPreprocessing.convert_units ext event tel <> Raise ValueError /\
  (forall row, HillasPreprocessing.writer_write ext "hillas_params" row <> Raise ValueError).

(** What the dictionaries of an event hold between two telescope
    iterations: every telescope with a pointing has an ellipse, no key is
    repeated, and the pointing recorded for a telescope is the one built
    from its pointing in this event. *)
Definition dictionaries_agree {Info : Type} (ext : HillasPreprocessing.collaborators)
  (event : HillasPreprocessing.ArrayEvent)
  (st : HillasPreprocessing.tel_state Info) : Prop :=
  incl (dict_keys (HillasPreprocessing.telescope_pointings st))
       (dict_keys (HillasPreprocessing.computed_hillas_params st)) /\
  NoDup (dict_keys (HillasPreprocessing.computed_hillas_params st)) /\
  NoDup (dict_keys (HillasPreprocessing.telescope_pointings st)) /\
  (forall k p, dict_get k (HillasPreprocessing.telescope_pointings st) = Some p ->
               pointing_of ext event k = Ok p).

(** What the telescope loop of an event leaves in its dictionaries: they
    agree in the sense above, every telescope with an ellipse is a
    telescope of the event, and, when the [SkyCoord] constructor raises
    [ValueError] for no telescope of the event, the ellipses and the
    pointings are recorded under the same telescopes. *)
Definition recorded_for_event {Info : Type} (ext : HillasPreprocessing.collaborators)
  (event : HillasPreprocessing.ArrayEvent)
  (ts : HillasPreprocessing.tel_state Info) : Prop :=
  dictionaries_agree ext event ts /\
  incl (dict_keys (HillasPreprocessing.computed_hillas_params ts))
       (HillasPreprocessing.r1_tels_with_data event) /\
  ((forall tel, In tel (HillasPreprocessing.r1_tels_with_data event) ->
                pointing_of ext event tel <> Raise ValueError) ->
   dict_keys (HillasPreprocessing.telescope_pointings ts) =
   dict_keys (HillasPreprocessing.computed_hillas_params ts)).

(** The rows of Hillas parameters in the output [t] of a telescope loop
    against the ellipses it leaves: never more rows than ellipses, and as
    many when nothing raises [ValueError] after an ellipse is stored. *)
Definition rows_and_ellipses {Info : Type} (ext : HillasPreprocessing.collaborators)
  (event : HillasPreprocessing.ArrayEvent) (t : list action)
  (ts : HillasPreprocessing.tel_state Info) : Prop :=
  length (rows_of "hillas_params" t) <=
    length (HillasPreprocessing.computed_hillas_params ts) /\
  ((forall tel, In tel (HillasPreprocessing.r1_tels_with_data event) ->
                bookkeeping_sound ext event tel) ->
   length (rows_of "hillas_params" t) =
   length (HillasPreprocessing.computed_hillas_params ts)).




(** In the MC path the cleaning of telescope [tel] went through and
    returned [cleaned]. *)
Definition cleaned_mc (ext : HillasPreprocessing.collaborators) (camera : CameraGeometry)
  (event : HillasPreprocessing.ArrayEvent) (tel : Z)
  (cleaned : list bool * list float * list float) : Prop :=
  HillasPreprocessing.magic_clean_clean_image ext camera (cleaning_config_MAGIC false)
    (image (HillasPreprocessing.dl1_tel event tel))
    (peak_time (HillasPreprocessing.dl1_tel event tel)) None = Ok cleaned.

(** In the real-data path the bad-pixel masks of telescope [tel] were
    obtained and the cleaning, told which pixels are unsuitable, went
    through and returned [cleaned]. *)
Definition cleaned_data (ext : HillasPreprocessing.collaborators) (camera : CameraGeometry)
  (event : HillasPreprocessing.ArrayEvent) (tel : Z)
  (cleaned : list bool * list float * list float) : Prop :=
  exists badrmspixel_mask deadpixel_mask bad dead unsuitable_mask,
    HillasPreprocessing.get_badrmspixel_mask ext event = Ok badrmspixel_mask /\
    HillasPreprocessing.get_deadpixel_mask ext event = Ok deadpixel_mask /\
    HillasPreprocessing.py_index badrmspixel_mask (tel - 1) = Ok bad /\
    HillasPreprocessing.py_index deadpixel_mask (tel - 1) = Ok dead /\
    HillasPreprocessing.logical_or bad dead = Ok unsuitable_mask /\
    HillasPreprocessing.magic_clean_clean_image ext camera (cleaning_config_MAGIC true)
      (image (HillasPreprocessing.dl1_tel event tel))
      (peak_time (HillasPreprocessing.dl1_tel event tel)) (Some unsuitable_mask) =
      Ok cleaned.

(** A failure that lies in the image of one telescope: the cleaned image
    has no pixel other than 0, or the Hillas computation raises
    [ValueError] on it.  [msg] is the line the script prints for it. *)
Definition image_failure (ext : HillasPreprocessing.collaborators) (camera : CameraGeometry)
  (event : HillasPreprocessing.ArrayEvent) (tel : Z)
  (cleaned : list bool * list float * list float) (msg : message) : Prop :=
  exists num_islands image_cleaned time_cleaned,
    get_num_islands camera (fst (fst cleaned)) (snd (fst cleaned)) = Ok num_islands /\
    HillasPreprocessing.zero_outside_mask (fst (fst cleaned)) (snd (fst cleaned))
      (snd cleaned) = Ok (image_cleaned, time_cleaned) /\
    ((np_any image_cleaned = false /\
      msg = DidNotPassCleaning (HillasPreprocessing.index_event_id event)
              (HillasPreprocessing.index_obs_id event) tel) \/
     (np_any image_cleaned = true /\
      HillasPreprocessing.hillas_parameters ext camera image_cleaned = Raise ValueError /\
      msg = HillasCalculationFailed (HillasPreprocessing.index_event_id event)
              (HillasPreprocessing.index_obs_id event) tel)).

(** The rows the [mc_header] table of a run is expected to hold: one for
    every event whose observation differs from that of the event before it,
    [last] being the observation before the first event. *)
Fixpoint header_rows (last : Z) (evs : list HillasPreprocessing.ArrayEvent)
  : list (list container) :=
  match evs with
  | [] => []
  | e :: rest =>
      (if (HillasPreprocessing.index_obs_id e =? last)%Z then []
       else [[CObsId (HillasPreprocessing.index_obs_id e);
              CMcHeader (HillasPreprocessing.mcheader e)]])
      ++ header_rows (HillasPreprocessing.index_obs_id e) rest
  end.

(** What the stereo step may put on the output. *)
Definition stereo_output (a : action) : Prop :=
  match a with
  | Print _ => True
  | Write table _ =>
      table = "stereo_params_mars"%string \/ table = "stereo_params_cta"%string
  end.

(** Two states of the MAGIC+LST telescope loop that differ at most in the
    loop variable. *)
Definition same_products (st st' : StereoReco.tel_state) : Prop :=
  StereoReco.telescope_pointings st = StereoReco.telescope_pointings st' /\
  StereoReco.computed_hillas_params st = StereoReco.computed_hillas_params st' /\
  StereoReco.time_gradients st = StereoReco.time_gradients st' /\
  StereoReco.skip st = StereoReco.skip st' /\
  StereoReco.event_info st = StereoReco.event_info st'.

(** The telescopes of [event.dl1.tel] that the MAGIC+LST script was asked
    to analyse. *)
Definition selected_items (tels : list Z) (items : list (Z * DL1CameraContainer))
  : list (Z * DL1CameraContainer) :=
  filter (fun item => StereoReco.memZ (fst item) tels) items.

(** A time gradient large enough to be drawn as an arrow. *)
Definition arrow_sized (g : float) : Prop :=
  SFltb (SFabs g) (literal 2 1) = false.

(** The time gradient recorded for a time fit: its slope, or 1 when the
    slope is smaller than 0.2 in absolute value. *)
Definition arrow_gradient (timing_params : TimingParametersContainer) : float :=
  if SFltb (SFabs (slope timing_params)) (literal 2 1)
  then of_Z 1 else slope timing_params.

(** The variables of an event of the MAGIC+LST script once telescope [tel]
    has got its ellipse [h], its pointing [p] and its time gradient [g]. *)
Definition sim_measured (tel : Z) (h : HillasParametersContainer) (p : SkyCoord)
  (g : float) (st : StereoReco.tel_state) : StereoReco.tel_state :=
  StereoReco.set_time_gradient tel g
    (StereoReco.set_pointing tel p (StereoReco.set_hillas_params tel h st)).

(** What the [try] block of telescope [tel] has assigned when control leaves
    it, starting from [st]: nothing, the ellipse, the ellipse with the
    pointing and the time gradient, or these and the metadata. *)
Definition sim_recorded (event : StereoReco.ArrayEvent) (st : StereoReco.tel_state)
  (tel : Z) (st' : StereoReco.tel_state) : Prop :=
  st' = st \/
  (exists h, st' = StereoReco.set_hillas_params tel h st) \/
  (exists h p g, arrow_sized g /\ st' = sim_measured tel h p g st) \/
  (exists h p g n,
     arrow_sized g /\
     st' = StereoReco.set_event_info (StereoReco.mk_info event tel n)
             (sim_measured tel h p g st)).

(** How the [try] block of telescope [tel] is left, starting from [st]: by
    an exception, with nothing written and what had been assigned; or
    normally, with nothing done ([continue]) or with the row written and the
    ellipse, pointing, time gradient and metadata assigned. *)
Definition sim_left_as (event : StereoReco.ArrayEvent) (tel : Z)
  (st : StereoReco.tel_state) (t : list action) (st' : StereoReco.tel_state)
  (r : result unit) : Prop :=
  match r with
  | Raise _ => t = [] /\ sim_recorded event st tel st'
  | Ok _ =>
      (t = [] /\ st' = st) \/
      (exists n h l tp p g,
         arrow_sized g /\
         t = [Write "hillas_params"
                [CInfoSim (StereoReco.mk_info event tel n); CHillas h;
                 CLeakage l; CTiming tp]] /\
         st' = StereoReco.set_event_info (StereoReco.mk_info event tel n)
                 (sim_measured tel h p g st))
  end.

(** What one telescope iteration of the MAGIC+LST script leaves: nothing
    but the loop variable (telescope not asked for, image too small, camera
    unknown); or the two failure messages and the [skip] flag, with what the
    [try] block had assigned before the exception; or one row of Hillas
    parameters and the ellipse, pointing, time gradient and metadata
    recorded. *)
Definition sim_telescope_outcome (event : StereoReco.ArrayEvent)
  (st : StereoReco.tel_state) (tel : Z)
  (t : list action) (st' : StereoReco.tel_state) : Prop :=
  (t = [] /\ st' = StereoReco.set_loop_tel_id st tel) \/
  (exists e left,
     t = [Print ImageNotReconstructed; Print (ExceptionText e)] /\
     sim_recorded event (StereoReco.set_loop_tel_id st tel) tel left /\
     st' = StereoReco.set_skip left) \/
  (exists n h l tp p g,
     arrow_sized g /\
     t = [Write "hillas_params"
            [CInfoSim (StereoReco.mk_info event tel n); CHillas h;
             CLeakage l; CTiming tp]] /\
     st' = StereoReco.set_event_info (StereoReco.mk_info event tel n)
             (sim_measured tel h p g (StereoReco.set_loop_tel_id st tel))).

(** The three dictionaries of the MAGIC+LST telescope loop hold the same
    telescopes and every time gradient is large enough for an arrow. *)
Definition sim_dictionaries_agree (st : StereoReco.tel_state) : Prop :=
  dict_keys (StereoReco.telescope_pointings st) =
    dict_keys (StereoReco.computed_hillas_params st) /\
  dict_keys (StereoReco.time_gradients st) =
    dict_keys (StereoReco.computed_hillas_params st) /\
  NoDup (dict_keys (StereoReco.computed_hillas_params st)) /\
  (forall k g, In (k, g) (StereoReco.time_gradients st) -> arrow_sized g).

(** The weaker state of the dictionaries that an exception can leave: the
    pointings and the time gradients hold the same telescopes, all of which
    have an ellipse, and at most one ellipse has neither. *)
Definition sim_dictionaries_nest (st : StereoReco.tel_state) : Prop :=
  dict_keys (StereoReco.time_gradients st) =
    dict_keys (StereoReco.telescope_pointings st) /\
  incl (dict_keys (StereoReco.telescope_pointings st))
       (dict_keys (StereoReco.computed_hillas_params st)) /\
  length (StereoReco.computed_hillas_params st) <=
    S (length (StereoReco.telescope_pointings st)) /\
  NoDup (dict_keys (StereoReco.computed_hillas_params st)) /\
  (forall k g, In (k, g) (StereoReco.time_gradients st) -> arrow_sized g).

(** The state in which the telescope loop of an event starts. *)
Definition fresh_state (info : option InfoContainerSim) (tel : option Z)
  : StereoReco.tel_state :=
  {| StereoReco.telescope_pointings := [];
     StereoReco.computed_hillas_params := [];
     StereoReco.time_gradients := [];
     StereoReco.skip := false;
     StereoReco.event_info := info;
     StereoReco.loop_tel_id := tel |}.

(** The number of datasets a run of the main code has processed. *)
Definition processed_count (t : list PreprocessingMain.main_action) : nat :=
  length (filter (fun a => match a with
                           | PreprocessingMain.Processed _ _ _ _ => true
                           | _ => false
                           end) t).

(** An action of the main code that concerns data type [data_type], handled
    as MC or as real data according to [as_mc]. *)
Definition of_kind (data_type : string) (as_mc : bool)
  (a : PreprocessingMain.main_action) : Prop :=
  match a with
  | PreprocessingMain.Processed is_mc _ _ _ => is_mc = as_mc
  | PreprocessingMain.InfoMessage dt _ _ => dt = data_type
  | _ => True
  end.

(* ================================================================== *)
(** * Connectivity, stated independently of any traversal              *)
(* ================================================================== *)

(** Undirected reachability inside the vertex set [D] along edges [E]. *)
Inductive reach (D : nat -> Prop) (E : nat -> nat -> Prop) : nat -> nat -> Prop :=
  | reach_refl : forall v, D v -> reach D E v v
  | reach_step : forall u v w, reach D E u v -> D w -> E v w -> reach D E u w.

(** [R] picks exactly one vertex out of every class of [C] on [D]. *)
Definition representatives (D : nat -> Prop) (C : nat -> nat -> Prop)
  (R : list nat) : Prop :=
  NoDup R /\
  (forall r, In r R -> D r) /\
  (forall r r', In r R -> In r' R -> C r r' -> r = r') /\
  (forall v, D v -> exists r, In r R /\ C r v).

(** A pixel selected by the mask. *)
Definition selected (mask : list bool) (i : nat) : Prop := nth i mask false = true.

(** Two pixels are neighbours when the matrix has an entry either way. *)
Definition adjacent (camera : CameraGeometry) (i j : nat) : Prop :=
  undirected_edge (neighbor_matrix_sparse camera) i j = true.

(** Connected within the graph restricted to the selected pixels. *)
Definition connected (camera : CameraGeometry) (mask : list bool) : nat -> nat -> Prop :=
  reach (selected mask) (adjacent camera).

(** One pixel per island. *)
Definition island_representatives (camera : CameraGeometry) (mask : list bool)
  (R : list nat) : Prop :=
  representatives (selected mask) (connected camera mask) R.

(** The camera's matrix is [N x N] and the mask has one entry per pixel. *)
Definition well_shaped (camera : CameraGeometry) (mask : list bool) : Prop :=
  n_rows (neighbor_matrix_sparse camera) = n_pixels camera /\
  n_cols (neighbor_matrix_sparse camera) = n_pixels camera /\
  length mask = n_pixels camera.

(** What a telescope iteration may put on the output: a message, or a row
    of the per-telescope table. *)
Definition monocular (a : action) : Prop :=
  match a with
  | Print _ => True
  | Write table _ => table = "hillas_params"%string
  end.


(** The cleaning of telescope [tel_id] in the MAGIC+LST script went through
    and kept fewer than five pixels. *)
Definition keeps_fewer_than_five (ext : StereoReco.collaborators)
  (magic_clean : option StereoReco.engine_t) (geom : CameraGeometry)
  (dl1 : DL1CameraContainer) : Prop :=
  (camera_name geom = LSTCam /\
   exists clean,
     StereoReco.tailcuts_clean ext geom (image dl1) StereoReco.cleaning_config_LST = Ok clean /\
     mask_sum clean < 5) \/
  (camera_name geom = MAGICCam /\
   exists clean_image clean event_image peakpos,
     magic_clean = Some clean_image /\
     clean_image (image dl1) (peak_time dl1) None = Ok (clean, event_image, peakpos) /\
     mask_sum clean < 5).

(** The graph [connected_components] is given: vertices [0 .. n-1], an edge
    wherever the matrix has an entry in either direction. *)
Definition vertex (n : nat) (v : nat) : Prop := v < n.
Definition edge (m : sparse_matrix) (u v : nat) : Prop := undirected_edge m u v = true.

(** A vertex set that no edge leaves. *)
Definition closed (m : sparse_matrix) (n : nat) (S : list nat) : Prop :=
  forall u v, In u S -> v < n -> edge m u v -> In v S.

(** What the flood fill started at [s] labels. *)
Definition fill (m : sparse_matrix) (n : nat) (s : nat) : list nat :=
  flood_fill n m (seq 0 n) [s].

(** Starting vertices that lie in different components. *)
Definition separated (m : sparse_matrix) (n : nat) (starts : list nat) : Prop :=
  NoDup starts /\
  (forall s, In s starts -> s < n) /\
  (forall s s', In s starts -> In s' starts ->
                reach (vertex n) (edge m) s s' -> s = s').

(** A cleaning mask that holds no excluded pixel. *)
Definition avoids (is_hot : CleaningEngine.PixelTopology -> list float -> nat -> bool)
  (topology : CleaningEngine.PixelTopology) (image : list float)
  (unsuitable_mask : list bool) (cfg : CleaningEngine.config) (mask : list bool) : Prop :=
  forall i, nth i mask false = true ->
            CleaningEngine.excluded is_hot topology image unsuitable_mask cfg i = false.

(* ================================================================== *)
(** * Reachability is an equivalence                                    *)
(* ================================================================== *)

Section Reach.
Variable D : nat -> Prop.
Variable E : nat -> nat -> Prop.
Hypothesis E_sym : forall u v, E u v -> E v u.

Lemma reach_dom_l : forall u v, reach D E u v -> D u.
Proof. induction 1; auto. Qed.

Lemma reach_dom_r : forall u v, reach D E u v -> D v.
Proof. induction 1; auto. Qed.

Lemma reach_trans : forall u v w, reach D E u v -> reach D E v w -> reach D E u w.
Proof.
  intros u v w Huv Hvw. revert u Huv.
  induction Hvw as [v Hv | v w x Hvw IH Hx Hwx]; intros u Huv.
  - exact Huv.
  - apply reach_step with w; auto.
Qed.

Lemma reach_sym : forall u v, reach D E u v -> reach D E v u.
Proof.
  induction 1 as [v Hv | u v w Huv IH Hw Hvw].
  - now apply reach_refl.
  - apply reach_trans with v; auto.
    apply reach_step with w; auto.
    + now apply reach_refl.
    + eapply reach_dom_r; eauto.
Qed.

(** An injection between two lists, through a relation. *)
Lemma injection_length :
  forall (C : nat -> nat -> Prop) (R1 R2 : list nat),
    NoDup R1 ->
    (forall x, In x R1 -> exists y, In y R2 /\ C x y) ->
    (forall x x' y, In x R1 -> In x' R1 -> C x y -> C x' y -> x = x') ->
    length R1 <= length R2.
Proof.
  intros C R1. induction R1 as [|x R1 IH]; intros R2 Hnd Hex Hinj; simpl.
  - lia.
  - destruct (Hex x (or_introl eq_refl)) as [y [Hy Hxy]].
    destruct (in_split _ _ Hy) as [A [B ->]].
    rewrite length_app. simpl.
    assert (length R1 <= length (A ++ B)) as Hle.
    { apply IH.
      - now inversion Hnd.
      - intros x' Hx'. destruct (Hex x' (or_intror Hx')) as [y' [Hy' Hxy']].
        exists y'. split; auto.
        apply in_app_or in Hy'. apply in_or_app.
        destruct Hy' as [?|[<-|?]]; auto.
        exfalso. inversion Hnd as [|? ? Hnin _]; subst. apply Hnin.
        rewrite (Hinj x x' y); simpl; auto.
      - intros a a' b Ha Ha'. apply Hinj; simpl; auto. }
    rewrite length_app in Hle. lia.
Qed.

(** Any two systems of representatives have the same size. *)
Lemma representatives_length :
  forall R1 R2,
    representatives D (reach D E) R1 ->
    representatives D (reach D E) R2 ->
    length R1 = length R2.
Proof.
  assert (forall R1 R2,
    representatives D (reach D E) R1 ->
    representatives D (reach D E) R2 ->
    length R1 <= length R2) as Hle.
  { intros R1 R2 (Hnd1 & Hd1 & Hsep1 & _) (_ & _ & _ & Hcov2).
    apply injection_length with (C := fun x y => reach D E y x).
    - exact Hnd1.
    - intros x Hx. destruct (Hcov2 x (Hd1 x Hx)) as [y [Hy Hyx]]. eauto.
    - intros x x' y Hx Hx' Hyx Hyx'. apply Hsep1; auto.
      apply reach_trans with y; auto. now apply reach_sym. }
  intros R1 R2 H1 H2. apply Nat.le_antisymm; auto.
Qed.
End Reach.

(* ================================================================== *)
(** * The flood fill labels exactly what is reachable                   *)
(* ================================================================== *)

Lemma memb_In : forall v l, memb v l = true <-> In v l.
Proof.
  intros v l. unfold memb. rewrite existsb_exists. split.
  - intros [x [Hx He]]. apply Nat.eqb_eq in He. now subst.
  - intros H. exists v. split; auto. apply Nat.eqb_refl.
Qed.

Lemma undirected_edge_sym :
  forall m u v, undirected_edge m u v = true -> undirected_edge m v u = true.
Proof. intros m u v. unfold undirected_edge. now rewrite orb_comm. Qed.

Section Flood.
Variable m : sparse_matrix.
Variable n : nat.

Let vertex := vertex n.
Let edge := edge m.
Let closed := closed m n.
Let fill := fill m n.

Lemma edge_sym : forall u v, edge u v -> edge v u.
Proof. intros u v. apply undirected_edge_sym. Qed.

Lemma expand_in : forall S v,
  In v (expand m (seq 0 n) S) <->
  In v S \/ (v < n /\ ~ In v S /\ exists u, In u S /\ edge u v).
Proof.
  intros S v. unfold expand. rewrite in_app_iff, filter_In, in_seq.
  rewrite andb_true_iff, negb_true_iff, existsb_exists.
  split; intros [H|H]; auto; right.
  - destruct H as [Hv [Hn Hex]]. repeat split; try lia; auto.
    intros Hin. apply memb_In in Hin. congruence.
  - destruct H as [Hv [Hn Hex]]. repeat split; try lia; auto.
    destruct (memb v S) eqn:Hm; auto. apply memb_In in Hm. contradiction.
Qed.

Lemma flood_sound : forall s r S,
  (forall x, In x S -> reach vertex edge s x) ->
  forall x, In x (flood_fill r m (seq 0 n) S) -> reach vertex edge s x.
Proof.
  intros s r. induction r as [|r IH]; intros S HS x Hx; simpl in Hx; auto.
  apply IH in Hx; auto.
  intros y Hy. apply expand_in in Hy. destruct Hy as [Hy | (Hy & _ & u & Hu & Huy)]; auto.
  apply reach_step with u; auto.
Qed.

Lemma closed_expand : forall S, closed S -> expand m (seq 0 n) S = S.
Proof.
  intros S HS. unfold expand.
  replace (filter _ (seq 0 n)) with (@nil nat); [now rewrite app_nil_r|].
  symmetry. destruct (filter _ _) as [|v l] eqn:Hf; auto.
  assert (In v (v :: l)) as Hin by (simpl; auto).
  rewrite <- Hf in Hin. apply filter_In in Hin. destruct Hin as [Hv Hc].
  apply in_seq in Hv. apply andb_true_iff in Hc. destruct Hc as [Hn Hex].
  apply negb_true_iff in Hn. apply existsb_exists in Hex.
  destruct Hex as [u [Hu Huv]].
  assert (In v S) as Hin by (apply (HS u v); auto; lia).
  apply memb_In in Hin. congruence.
Qed.

Lemma closed_flood : forall r S, closed S -> flood_fill r m (seq 0 n) S = S.
Proof.
  induction r as [|r IH]; intros S HS; simpl; auto.
  rewrite closed_expand; auto.
Qed.

Lemma stable_closed : forall S,
  filter (fun v => negb (memb v S) &&
                   existsb (fun u => undirected_edge m u v) S) (seq 0 n) = [] ->
  closed S.
Proof.
  intros S Hf u v Hu Hv Huv.
  destruct (memb v S) eqn:Hm; [now apply memb_In|].
  assert (In v (@nil nat)) as Hin; [|inversion Hin].
  rewrite <- Hf. apply filter_In. split.
  - apply in_seq. lia.
  - rewrite Hm. simpl. apply existsb_exists. exists u. auto.
Qed.

Lemma flood_progress : forall r S,
  NoDup S -> incl S (seq 0 n) ->
  NoDup (flood_fill r m (seq 0 n) S) /\
  incl (flood_fill r m (seq 0 n) S) (seq 0 n) /\
  incl S (flood_fill r m (seq 0 n) S) /\
  (closed (flood_fill r m (seq 0 n) S) \/
   length S + r <= length (flood_fill r m (seq 0 n) S)).
Proof.
  induction r as [|r IH]; intros S Hnd Hincl; simpl.
  - repeat split; auto using incl_refl. right. lia.
  - assert (NoDup (expand m (seq 0 n) S)) as Hnd'.
    { unfold expand. apply NoDup_app; auto.
      - apply NoDup_filter, seq_NoDup.
      - intros a Ha Hf. apply filter_In in Hf. destruct Hf as [_ Hc].
        apply andb_true_iff in Hc. destruct Hc as [Hc _].
        apply negb_true_iff in Hc. apply memb_In in Ha. congruence. }
    assert (incl (expand m (seq 0 n) S) (seq 0 n)) as Hincl'.
    { intros a Ha. apply expand_in in Ha. destruct Ha as [Ha|[Ha _]]; auto.
      apply in_seq. lia. }
    destruct (IH _ Hnd' Hincl') as (H1 & H2 & H3 & H4).
    repeat split; auto.
    + intros a Ha. apply H3. apply expand_in. auto.
    + destruct (filter (fun v => negb (memb v S) &&
                  existsb (fun u => undirected_edge m u v) S) (seq 0 n))
        as [|v l] eqn:Hf.
      * left. apply stable_closed in Hf.
        rewrite closed_expand by assumption.
        rewrite closed_flood by assumption. assumption.
      * destruct H4 as [H4|H4]; auto. right.
        unfold expand in H4 at 1. rewrite Hf, length_app in H4. simpl in H4. lia.
Qed.

Lemma fill_closed : forall s, s < n -> closed (fill s).
Proof.
  intros s Hs. unfold fill.
  destruct (flood_progress n (S := [s])) as (Hnd & Hincl & _ & [Hc|Hlen]); auto.
  - constructor; [intros []|constructor].
  - intros a [<-|[]]. apply in_seq. lia.
  - apply NoDup_incl_length in Hincl; auto.
    rewrite length_seq in Hincl. simpl in Hlen. lia.
Qed.

Lemma closed_reach : forall S s x,
  closed S -> In s S -> reach vertex edge s x -> In x S.
Proof.
  intros S s x HS Hs Hr. induction Hr as [v Hv | u v w Huv IH Hw Hvw]; auto.
  apply (HS v w); auto.
Qed.

Lemma fill_spec : forall s x, s < n -> (In x (fill s) <-> reach vertex edge s x).
Proof.
  intros s x Hs. split.
  - apply flood_sound. intros y [<-|[]]. now apply reach_refl.
  - apply closed_reach; [now apply fill_closed|].
    destruct (flood_progress n (S := [s])) as (_ & _ & Hi & _).
    + constructor; [intros []|constructor].
    + intros a [<-|[]]. apply in_seq. lia.
    + apply Hi. simpl. auto.
Qed.
End Flood.

(* ================================================================== *)
(** * The scan finds one starting vertex per component                  *)
(* ================================================================== *)

Section Scan.
Variable m : sparse_matrix.
Variable n : nat.

Let separated := separated m n.

Lemma labelled_reach : forall starts v,
  (forall s, In s starts -> s < n) ->
  (existsb (memb v) (map (fill m n) starts) = true <->
   exists s, In s starts /\ reach (vertex n) (edge m) s v).
Proof.
  intros starts v Hlt. rewrite existsb_exists. split.
  - intros [c [Hc Hv]]. apply in_map_iff in Hc. destruct Hc as [s [<- Hs]].
    exists s. split; auto. apply fill_spec; auto. now apply memb_In.
  - intros [s [Hs Hr]]. exists (fill m n s). split.
    + now apply in_map.
    + apply memb_In. apply fill_spec; auto.
Qed.

Lemma label_scan_spec : forall todo starts,
  separated starts ->
  (forall v, In v todo -> v < n) ->
  exists starts',
    label_scan m n todo (map (fill m n) starts) = map (fill m n) starts' /\
    separated starts' /\
    incl starts starts' /\
    (forall v, In v todo -> exists s, In s starts' /\ reach (vertex n) (edge m) s v).
Proof.
  induction todo as [|v rest IH]; intros starts Hsep Hlt; simpl.
  - exists starts. repeat split; try apply Hsep; auto using incl_refl.
    intros v [].
  - destruct Hsep as (Hnd & Hb & Hs).
    destruct (existsb (memb v) (map (fill m n) starts)) eqn:Hl.
    + apply labelled_reach in Hl; auto.
      destruct (IH starts) as (st & Heq & Hsep' & Hincl & Hcov).
      { repeat split; auto. }
      { intros; apply Hlt; simpl; auto. }
      exists st. repeat split; try apply Hsep'; auto.
      intros w [<-|Hw]; auto.
      destruct Hl as [s [Hin Hr]]. exists s. split; auto.
    + assert (forall s, In s starts -> ~ reach (vertex n) (edge m) s v) as Hnr.
      { intros s Hin Hr.
        assert (existsb (memb v) (map (fill m n) starts) = true) as Ht.
        { apply labelled_reach; eauto. }
        congruence. }
      assert (v < n) as Hv by (apply Hlt; simpl; auto).
      destruct (IH (starts ++ [v])) as (st & Heq & Hsep' & Hincl & Hcov).
      { repeat split.
        - apply NoDup_app; auto.
          + constructor; [intros []|constructor].
          + intros a Ha [<-|[]]. apply (Hnr _ Ha). now apply reach_refl.
        - intros s Hin. apply in_app_or in Hin. destruct Hin as [?|[<-|[]]]; auto.
        - intros s s' Hin Hin' Hr.
          apply in_app_or in Hin. apply in_app_or in Hin'.
          destruct Hin as [Hin|[<-|[]]]; destruct Hin' as [Hin'|[<-|[]]]; auto.
          + exfalso. apply (Hnr s Hin Hr).
          + exfalso. apply (Hnr s' Hin').
            apply reach_sym; auto. apply edge_sym. }
      { intros; apply Hlt; simpl; auto. }
      rewrite map_app in Heq. simpl in Heq.
      exists st. repeat split; try apply Hsep'; auto.
      * intros a Ha. apply Hincl. apply in_or_app. auto.
      * intros w [<-|Hw]; auto.
        exists v. split; [apply Hincl, in_or_app; simpl; auto|].
        now apply reach_refl.
Qed.

(** The number of labels handed out is the number of components. *)
Lemma label_scan_representatives :
  exists R,
    length (label_scan m n (seq 0 n) []) = length R /\
    representatives (vertex n) (reach (vertex n) (edge m)) R.
Proof.
  destruct (@label_scan_spec (seq 0 n) [])
    as (R & Heq & (Hnd & Hb & Hs) & _ & Hcov).
  - repeat split; [constructor | intros s [] | intros s s' []].
  - intros v Hv. apply in_seq in Hv. lia.
  - exists R. simpl in Heq. rewrite Heq, length_map. repeat split; auto.
    intros v Hv. apply Hcov. apply in_seq. unfold vertex in Hv. lia.
Qed.
End Scan.

(* ================================================================== *)
(** * Boolean-mask indexing                                             *)
(* ================================================================== *)

Lemma nonzero_from_in : forall mask i j,
  In j (nonzero_from i mask) <-> i <= j /\ nth (j - i) mask false = true.
Proof.
  induction mask as [|b m IH]; intros i j; simpl.
  - split; [intros [] | intros [_ H]]. destruct (j - i); discriminate.
  - assert (In j (nonzero_from (S i) m) <->
            i <= j /\ j <> i /\ nth (j - S i) m false = true) as IH'.
    { rewrite IH. intuition lia. }
    destruct (lt_eq_lt_dec j i) as [[Hlt| ->]|Hgt].
    + destruct b; simpl; rewrite IH'; intuition lia.
    + rewrite Nat.sub_diag. destruct b; simpl; rewrite ?IH'; intuition (try lia; try discriminate).
    + replace (j - i) with (S (j - S i)) by lia.
      destruct b; simpl; rewrite IH'; intuition lia.
Qed.

Lemma nonzero_in : forall mask j, In j (nonzero mask) <-> selected mask j.
Proof.
  intros mask j. unfold nonzero, selected. rewrite nonzero_from_in, Nat.sub_0_r.
  intuition lia.
Qed.

Lemma nonzero_from_NoDup : forall mask i, NoDup (nonzero_from i mask).
Proof.
  induction mask as [|b m IH]; intros i; simpl; [constructor|].
  destruct b; auto. constructor; auto.
  rewrite nonzero_from_in. lia.
Qed.

Lemma nonzero_nth_selected : forall mask a,
  a < length (nonzero mask) -> selected mask (nth a (nonzero mask) 0).
Proof. intros mask a Ha. apply nonzero_in. now apply nth_In. Qed.

Lemma selected_nonzero_nth : forall mask i,
  selected mask i -> exists a, a < length (nonzero mask) /\ nth a (nonzero mask) 0 = i.
Proof. intros mask i Hi. apply In_nth. now apply nonzero_in. Qed.

Lemma nonzero_nth_inj : forall mask a b,
  a < length (nonzero mask) -> b < length (nonzero mask) ->
  nth a (nonzero mask) 0 = nth b (nonzero mask) 0 -> a = b.
Proof.
  intros mask a b Ha Hb. revert a b Ha Hb.
  apply NoDup_nth. apply nonzero_from_NoDup.
Qed.

Lemma selected_lt_length : forall mask i, selected mask i -> i < length mask.
Proof.
  intros mask i Hi. destruct (Nat.lt_ge_cases i (length mask)) as [|Hge]; auto.
  unfold selected in Hi. rewrite nth_overflow in Hi by assumption. discriminate.
Qed.

Lemma in_range_nonzero : forall mask n,
  in_range n (nonzero mask) = true <-> forall i, selected mask i -> i < n.
Proof.
  intros mask n. unfold in_range. rewrite forallb_forall. split.
  - intros H i Hi. apply Nat.ltb_lt. apply H. now apply nonzero_in.
  - intros H i Hi. apply Nat.ltb_lt. apply H. now apply nonzero_in.
Qed.

Lemma in_range_length : forall mask n,
  length mask <= n -> in_range n (nonzero mask) = true.
Proof.
  intros mask n Hn. apply in_range_nonzero. intros i Hi.
  apply selected_lt_length in Hi. lia.
Qed.

(** With every selected position inside the matrix, the two selections give
    the sub-matrix of the selected pixels and the components are counted on
    it. *)
Lemma get_num_islands_in_range : forall camera mask event_image,
  in_range (n_rows (neighbor_matrix_sparse camera)) (nonzero mask) = true ->
  in_range (n_cols (neighbor_matrix_sparse camera)) (nonzero mask) = true ->
  get_num_islands camera mask event_image =
  Ok (length (label_scan (clean_neighbors camera mask) (length (nonzero mask))
                (seq 0 (length (nonzero mask))) [])).
Proof.
  intros camera mask img Hr Hc.
  unfold get_num_islands, select_rows. rewrite Hr. simpl.
  unfold select_cols. simpl. rewrite Hc. simpl.
  unfold connected_components. simpl. rewrite Nat.eqb_refl. simpl.
  reflexivity.
Qed.

(* ================================================================== *)
(** * The sub-matrix is the induced sub-graph, renumbered               *)
(* ================================================================== *)

Section Induced.
Variable camera : CameraGeometry.
Variable mask : list bool.

Let idx := nonzero mask.
Let k := length idx.
Let phi (a : nat) : nat := nth a idx 0.

Lemma get_num_islands_scan : forall event_image,
  well_shaped camera mask ->
  get_num_islands camera mask event_image =
  Ok (length (label_scan (clean_neighbors camera mask) k (seq 0 k) [])).
Proof.
  intros img (Hr & Hc & Hm).
  apply get_num_islands_in_range; apply in_range_length; lia.
Qed.

Lemma sub_edge : forall a b,
  edge (clean_neighbors camera mask) a b <-> adjacent camera (phi a) (phi b).
Proof. intros a b. unfold edge, adjacent, undirected_edge. simpl. tauto. Qed.

Lemma reach_sub_connected : forall a b,
  reach (vertex k) (edge (clean_neighbors camera mask)) a b ->
  connected camera mask (phi a) (phi b).
Proof.
  intros a b H. induction H as [v Hv | u v w Huv IH Hw Hvw].
  - apply reach_refl. now apply nonzero_nth_selected.
  - apply reach_step with (phi v);
      [exact IH | now apply nonzero_nth_selected | now apply sub_edge].
Qed.

Lemma connected_reach_sub : forall i j,
  connected camera mask i j ->
  forall a, a < k -> phi a = i ->
  exists b, b < k /\ phi b = j /\
            reach (vertex k) (edge (clean_neighbors camera mask)) a b.
Proof.
  intros i j H. induction H as [v Hv | u v w Huv IH Hw Hvw]; intros a Ha Hphi.
  - exists a. repeat split; auto. now apply reach_refl.
  - destruct (IH a Ha Hphi) as (b & Hb & Hpb & Hr).
    destruct (selected_nonzero_nth Hw) as (c & Hc & Hpc).
    exists c. repeat split; auto.
    apply reach_step with b; auto.
    apply sub_edge. fold idx in Hpc. fold (phi c) in Hpc.
    rewrite Hpb, Hpc. exact Hvw.
Qed.

Lemma representatives_induced : forall R,
  representatives (vertex k) (reach (vertex k) (edge (clean_neighbors camera mask))) R ->
  island_representatives camera mask (map phi R).
Proof.
  intros R (Hnd & Hd & Hsep & Hcov). repeat split.
  - apply NoDup_map_NoDup_ForallPairs; auto.
    intros a b Ha Hb Heq. apply (@nonzero_nth_inj mask); auto.
    + apply (Hd a Ha).
    + apply (Hd b Hb).
  - intros r Hr. apply in_map_iff in Hr. destruct Hr as (a & <- & Ha).
    apply nonzero_nth_selected. apply (Hd a Ha).
  - intros r r' Hr Hr' Hc.
    apply in_map_iff in Hr. destruct Hr as (a & <- & Ha).
    apply in_map_iff in Hr'. destruct Hr' as (b & <- & Hb).
    destruct (connected_reach_sub Hc (Hd a Ha) eq_refl) as (b' & Hb' & Hpb & Hreach).
    assert (b' = b) as ->.
    { apply (@nonzero_nth_inj mask); auto. apply (Hd b Hb). }
    f_equal. now apply Hsep.
  - intros v Hv. destruct (selected_nonzero_nth Hv) as (b & Hb & Hpb).
    destruct (Hcov b Hb) as (a & Ha & Hr).
    exists (phi a). split; [now apply in_map|].
    rewrite <- Hpb. now apply reach_sub_connected.
Qed.

(** Whatever pixels one picks, one per island, there are as many of them
    as [get_num_islands] reports. *)
Lemma get_num_islands_representatives : forall event_image R,
  well_shaped camera mask ->
  island_representatives camera mask R ->
  get_num_islands camera mask event_image = Ok (length R).
Proof.
  intros img R Hw HR. rewrite get_num_islands_scan by assumption.
  destruct (label_scan_representatives (clean_neighbors camera mask) k)
    as (R' & Hlen & HR').
  rewrite Hlen. f_equal.
  rewrite <- (length_map phi R').
  apply representatives_length with (D := selected mask) (E := adjacent camera); auto.
  - intros u v. apply undirected_edge_sym.
  - now apply representatives_induced.
Qed.

Lemma island_representatives_exist :
  exists R, island_representatives camera mask R.
Proof.
  destruct (label_scan_representatives (clean_neighbors camera mask) k)
    as (R' & _ & HR').
  exists (map phi R'). now apply representatives_induced.
Qed.
End Induced.

(* ================================================================== *)
(** * Island counting                                                   *)
(* ================================================================== *)

Lemma lonely_pair_disconnected : forall camera mask a b x,
  (forall i, selected mask i -> i = a \/ i = b) ->
  ~ adjacent camera a b ->
  connected camera mask a x -> x = a.
Proof.
  intros camera mask a b x Honly Hna Hc.
  induction Hc as [v Hv | u v w Huv IH Hw Hvw]; auto.
  specialize (IH Honly Hna). subst v.
  destruct (Honly w Hw) as [->| ->]; auto. contradiction.
Qed.

(** C5: for a camera whose neighbour matrix is N x N and a mask of N
    entries, [get_num_islands] returns the number of connected components
    of the adjacency graph restricted to the selected pixels: a choice of
    one pixel per component exists and every such choice has that many
    pixels.  In particular a mask that selects nothing gives 0, a mask that
    selects pixels which are pairwise neighbours gives 1, and a mask that
    selects exactly two pixels which are not neighbours gives 2. *)
Theorem get_num_islands_counts_components :
  forall camera mask event_image,
    well_shaped camera mask ->
    (exists R, island_representatives camera mask R /\
               get_num_islands camera mask event_image = Ok (length R)) /\
    (forall R, island_representatives camera mask R ->
               get_num_islands camera mask event_image = Ok (length R)) /\
    ((forall i, ~ selected mask i) ->
     get_num_islands camera mask event_image = Ok 0) /\
    ((exists i, selected mask i) ->
     (forall i j, selected mask i -> selected mask j -> i <> j -> adjacent camera i j) ->
     get_num_islands camera mask event_image = Ok 1) /\
    (forall a b,
       a <> b -> selected mask a -> selected mask b ->
       (forall i, selected mask i -> i = a \/ i = b) ->
       ~ adjacent camera a b ->
       get_num_islands camera mask event_image = Ok 2).
Proof.
  intros camera mask img Hw.
  assert (forall R, island_representatives camera mask R ->
                    get_num_islands camera mask img = Ok (length R)) as Hcount.
  { intros R HR. now apply get_num_islands_representatives. }
  split; [|split; [|split; [|split]]].
  - destruct (island_representatives_exist camera mask) as [R HR].
    exists R. split; auto.
  - exact Hcount.
  - intros Hnone. apply (Hcount []). repeat split.
    + constructor.
    + intros r [].
    + intros r r' [].
    + intros v Hv. destruct (Hnone v Hv).
  - intros [i0 Hi0] Hclique. apply (Hcount [i0]). repeat split.
    + constructor; [intros []|constructor].
    + intros r [<-|[]]. exact Hi0.
    + intros r r' [<-|[]] [<-|[]] _. reflexivity.
    + intros v Hv. exists i0. split; [simpl; auto|].
      destruct (Nat.eq_dec i0 v) as [->|Hne].
      * now apply reach_refl.
      * apply reach_step with i0; auto. now apply reach_refl.
  - intros a b Hab Ha Hb Honly Hna. apply (Hcount [a; b]). repeat split.
    + constructor; [intros [?|[]]; congruence|].
      constructor; [intros []|constructor].
    + intros r [<-|[<-|[]]]; assumption.
    + intros r r' [<-|[<-|[]]] [<-|[<-|[]]] Hc; auto.
      * symmetry. apply (@lonely_pair_disconnected camera mask a b b); auto.
      * symmetry. apply (@lonely_pair_disconnected camera mask b a a); auto.
        -- intros i Hi. destruct (Honly i Hi); auto.
        -- intros Hadj. apply Hna. now apply undirected_edge_sym.
    + intros v Hv. destruct (Honly v Hv) as [->| ->].
      * exists a. split; [simpl; auto|]. now apply reach_refl.
      * exists b. split; [simpl; auto|]. now apply reach_refl.
Qed.

Lemma get_num_islands_counts_components_witness :
  well_shaped (Samples.row_camera MAGICCam 5) [true; true; false; true; false] /\
  get_num_islands (Samples.row_camera MAGICCam 5)
    [true; true; false; true; false] [] = Ok 2 /\
  exists R, island_representatives (Samples.row_camera MAGICCam 5)
              [true; true; false; true; false] R /\ length R = 2.
Proof.
  assert (well_shaped (Samples.row_camera MAGICCam 5)
            [true; true; false; true; false]) as Hw.
  { repeat split; reflexivity. }
  split; [exact Hw|]. split; [reflexivity|].
  destruct (get_num_islands_counts_components [] Hw) as [[R [HR Hn]] _].
  exists R. split; [exact HR|].
  vm_compute in Hn. now inversion Hn.
Defined.

(** C9: the charge image handed to [get_num_islands] does not influence
    the island count; only the camera's neighbour matrix and the mask do. *)
Theorem get_num_islands_ignores_image :
  forall camera clean_mask event_image event_image',
    get_num_islands camera clean_mask event_image =
    get_num_islands camera clean_mask event_image'.
Proof. intros. reflexivity. Qed.

(** Five pixels in a row, evaluated. *)
Example islands_none :
  get_num_islands (Samples.row_camera MAGICCam 5)
    [false; false; false; false; false] [] = Ok 0.
Proof. reflexivity. Qed.

Example islands_one_blob :
  get_num_islands (Samples.row_camera MAGICCam 5)
    [false; true; true; true; false] [] = Ok 1.
Proof. reflexivity. Qed.

Example islands_alternating :
  get_num_islands (Samples.row_camera MAGICCam 5)
    [true; false; true; false; true] [] = Ok 3.
Proof. reflexivity. Qed.

Example islands_short_mask :
  get_num_islands (Samples.row_camera MAGICCam 5) [true; false; true] [] = Ok 2.
Proof. reflexivity. Qed.

Example islands_mask_beyond_camera :
  get_num_islands (Samples.row_camera MAGICCam 3)
    [true; false; false; false; true] [] = Raise IndexError.
Proof. reflexivity. Qed.

(* ================================================================== *)
(** * Zeroing outside the mask                                          *)
(* ================================================================== *)



Lemma np_any_zero_where_false : forall mask img,
  np_any (zero_where_false mask img) = true <->
  exists i, nth i mask false = true /\ truthy (nth i img fzero) = true.
Proof.
  unfold np_any. induction mask as [|b m IH]; intros [|v img]; simpl.
  - split; [discriminate | intros (i & H & _); destruct i; discriminate].
  - split; [discriminate | intros (i & H & _); destruct i; discriminate].
  - split; [discriminate|]. intros (i & _ & H). destruct i; discriminate.
  - rewrite orb_true_iff, IH. split.
    + intros [H|(i & Hm & Ht)].
      * exists 0. destruct b; simpl in *; auto. discriminate.
      * exists (S i). auto.
    + intros ([|i] & Hm & Ht); simpl in *.
      * left. now subst b.
      * right. eauto.
Qed.


(* ================================================================== *)
(** * The cleaning mask avoids unsuitable pixels                        *)
(* ================================================================== *)

Section EngineFacts.
Import CleaningEngine.

Variable is_hot : PixelTopology -> list float -> nat -> bool.
Variable max_passes : nat.
Variable topology : PixelTopology.
Variable image : list float.
Variable time_map : list float.
Variable unsuitable_mask : list bool.
Variable cfg : config.

Let avoids := avoids is_hot topology image unsuitable_mask cfg.

Lemma nth_map_pixels : forall (f : nat -> bool) i,
  nth i (map f (pixels topology)) false = true -> f i = true.
Proof.
  intros f i H. unfold pixels in H.
  destruct (Nat.lt_ge_cases i (pixel_count topology)) as [Hlt|Hge].
  - rewrite (nth_indep _ false (f 0)) in H by now rewrite length_map, length_seq.
    rewrite map_nth, seq_nth in H by assumption. exact H.
  - rewrite nth_overflow in H; [discriminate|].
    now rewrite length_map, length_seq.
Qed.

Lemma core_candidates_avoid :
  avoids (core_candidates is_hot topology image unsuitable_mask cfg).
Proof.
  intros i H. apply nth_map_pixels in H.
  apply andb_true_iff in H. destruct H as [H _].
  now apply negb_true_iff in H.
Qed.

Lemma reject_passes_avoid : forall p core,
  avoids core -> avoids (reject_passes topology image time_map cfg p core).
Proof.
  induction p as [|p IH]; intros core Hc; simpl; auto.
  apply IH. intros i H. apply nth_map_pixels in H.
  apply andb_true_iff in H. destruct H as [H _]. now apply Hc.
Qed.

Lemma expand_rounds_avoid : forall r mask,
  avoids mask ->
  avoids (expand_rounds is_hot topology image time_map unsuitable_mask cfg r mask).
Proof.
  induction r as [|r IH]; intros mask Hm; simpl; auto.
  apply IH. intros i H. apply nth_map_pixels in H.
  apply orb_true_iff in H. destruct H as [H|H]; [now apply Hm|].
  unfold recruits in H. rewrite !andb_true_iff in H.
  destruct H as [[H _] _]. now apply negb_true_iff in H.
Qed.

Lemma clean_avoids :
  avoids (clean is_hot max_passes topology image time_map unsuitable_mask cfg).
Proof.
  unfold clean. apply expand_rounds_avoid. unfold accepted_core.
  destruct (use_time cfg).
  - apply reject_passes_avoid, core_candidates_avoid.
  - apply core_candidates_avoid.
Qed.
End EngineFacts.

(** C7: whatever the configuration, the mask [clean] returns is false at
    every pixel that the unsuitable-pixel mask marks. *)
Theorem clean_never_selects_unsuitable :
  forall is_hot max_passes topology image time_map unsuitable_mask cfg i,
    nth i unsuitable_mask false = true ->
    nth i (CleaningEngine.clean is_hot max_passes topology image time_map
             unsuitable_mask cfg) false = false.
Proof.
  intros is_hot max_passes topology image time_map unsuitable_mask cfg i Hu.
  destruct (nth i (CleaningEngine.clean is_hot max_passes topology image time_map
                     unsuitable_mask cfg) false) eqn:Hm; auto.
  apply clean_avoids in Hm. unfold CleaningEngine.excluded in Hm.
  rewrite Hu in Hm. discriminate.
Qed.

Lemma clean_never_selects_unsuitable_witness :
  nth 2 Samples.Engine.unsuitable false = true /\
  CleaningEngine.clean Samples.Engine.never_hot 3 (Samples.Engine.row 5)
    Samples.Engine.image Samples.Engine.time_map Samples.Engine.unsuitable
    (Samples.Engine.cfg true) = [true; true; false; false; false] /\
  nth 2 (CleaningEngine.clean Samples.Engine.never_hot 3 (Samples.Engine.row 5)
           Samples.Engine.image Samples.Engine.time_map Samples.Engine.unsuitable
           (Samples.Engine.cfg true)) false = false.
Proof.
  split; [reflexivity|]. split; [vm_compute; reflexivity|].
  apply clean_never_selects_unsuitable. reflexivity.
Defined.

(* ================================================================== *)
(** * Laws of the trace                                                 *)
(* ================================================================== *)

Lemma bind_ret : forall A B (a : A) (k : A -> M B), bind (ret a) k = k a.
Proof. intros. unfold bind, ret. now destruct (k a). Qed.

Lemma bind_lift_ok : forall A B (a : A) (k : A -> M B), bind (lift (Ok a)) k = k a.
Proof. intros. apply bind_ret. Qed.

Lemma bind_nil_ok : forall A B (a : A) (k : A -> M B), bind ([], Ok a) k = k a.
Proof. intros. apply bind_ret. Qed.

Lemma bind_raise : forall A B (e : exn) (k : A -> M B),
  bind (lift (Raise e)) k = lift (Raise e).
Proof. reflexivity. Qed.

Lemma bind_emit : forall B (a : action) (k : unit -> M B),
  bind (emit a) k = (a :: trace_of (k tt), outcome_of (k tt)).
Proof. intros. unfold bind, emit. now destruct (k tt). Qed.

Lemma bind_ok : forall A B t (a : A) (k : A -> M B),
  bind (t, Ok a) k = (t ++ trace_of (k a), outcome_of (k a)).
Proof. intros. unfold bind. now destruct (k a). Qed.

Lemma bind_failed : forall A B t (e : exn) (k : A -> M B),
  bind (t, Raise e) k = (t, Raise e).
Proof. reflexivity. Qed.

Lemma surjective_trace : forall A (c : M A), c = (trace_of c, outcome_of c).
Proof. intros A [t r]. reflexivity. Qed.


Lemma bind_ext : forall A B (c : M A) (k k' : A -> M B),
  (forall a, k a = k' a) -> bind c k = bind c k'.
Proof. intros A B [t [a|e]] k k' H; simpl; auto. now rewrite H. Qed.


(* ================================================================== *)
(** * Dictionaries                                                      *)
(* ================================================================== *)

Lemma dict_keys_set_old : forall V k (v : V) d,
  In k (dict_keys d) -> dict_keys (dict_set k v d) = dict_keys d.
Proof.
  intros V k v. induction d as [|[k' v'] d IH]; simpl; intros H.
  - destruct H.
  - destruct (Z.eqb_spec k k') as [->|Hne]; simpl; auto.
    f_equal. apply IH. destruct H as [H|H]; auto. congruence.
Qed.

Lemma dict_keys_set_new : forall V k (v : V) d,
  ~ In k (dict_keys d) -> dict_keys (dict_set k v d) = dict_keys d ++ [k].
Proof.
  intros V k v. induction d as [|[k' v'] d IH]; simpl; intros H; auto.
  destruct (Z.eqb_spec k k') as [->|Hne]; simpl.
  - exfalso. auto.
  - f_equal. apply IH. auto.
Qed.

Lemma dict_keys_set_same : forall V W k (v : V) (w : W) d e,
  dict_keys d = dict_keys e ->
  dict_keys (dict_set k v d) = dict_keys (dict_set k w e).
Proof.
  intros V W k v w d e H.
  destruct (in_dec Z.eq_dec k (dict_keys d)) as [Hin|Hnin].
  - rewrite !dict_keys_set_old; auto. now rewrite <- H.
  - rewrite !dict_keys_set_new; auto; now rewrite <- H.
Qed.

Lemma dict_keys_set_in : forall V k (v : V) d k',
  In k' (dict_keys (dict_set k v d)) <-> k' = k \/ In k' (dict_keys d).
Proof.
  intros V k v d k'.
  destruct (in_dec Z.eq_dec k (dict_keys d)) as [Hin|Hnin].
  - rewrite dict_keys_set_old by assumption. intuition congruence.
  - rewrite dict_keys_set_new, in_app_iff by assumption. simpl. intuition.
Qed.

Lemma dict_keys_set_NoDup : forall V k (v : V) d,
  NoDup (dict_keys d) -> NoDup (dict_keys (dict_set k v d)).
Proof.
  intros V k v d H.
  destruct (in_dec Z.eq_dec k (dict_keys d)) as [Hin|Hnin].
  - now rewrite dict_keys_set_old.
  - rewrite dict_keys_set_new by assumption. apply NoDup_app; auto.
    + constructor; [intros []|constructor].
    + intros a Ha [<-|[]]. contradiction.
Qed.

Lemma dict_get_set_same : forall V k (v : V) d, dict_get k (dict_set k v d) = Some v.
Proof.
  intros V k v. induction d as [|[k' v'] d IH]; simpl.
  - now rewrite Z.eqb_refl.
  - destruct (Z.eqb_spec k k') as [->|Hne]; simpl.
    + now rewrite Z.eqb_refl.
    + destruct (Z.eqb_spec k k'); [contradiction | exact IH].
Qed.

Lemma dict_get_set_other : forall V k k' (v : V) d,
  k' <> k -> dict_get k' (dict_set k v d) = dict_get k' d.
Proof.
  intros V k k' v. induction d as [|[k0 v0] d IH]; simpl; intros Hne.
  - destruct (Z.eqb_spec k' k); [contradiction | reflexivity].
  - destruct (Z.eqb_spec k k0) as [->|Hne0]; simpl.
    + destruct (Z.eqb_spec k' k0); [contradiction | reflexivity].
    + destruct (Z.eqb_spec k' k0); auto.
Qed.

Lemma dict_set_in : forall V k (v : V) d k' v',
  In (k', v') (dict_set k v d) -> (k' = k /\ v' = v) \/ In (k', v') d.
Proof.
  intros V k v. induction d as [|[k0 v0] d IH]; simpl; intros k' v' H.
  - destruct H as [H|[]]. inversion H. auto.
  - destruct (Z.eqb_spec k k0) as [->|Hne]; simpl in H.
    + destruct H as [H|H]; [inversion H; auto | auto].
    + destruct H as [H|H]; [auto|].
      destruct (IH _ _ H); auto.
Qed.

Lemma dict_set_twice : forall V k (v v' : V) d,
  dict_set k v (dict_set k v' d) = dict_set k v d.
Proof.
  intros V k v v'. induction d as [|[k0 v0] d IH]; simpl.
  - now rewrite Z.eqb_refl.
  - destruct (Z.eqb_spec k k0) as [->|Hne]; simpl.
    + now rewrite Z.eqb_refl.
    + destruct (Z.eqb_spec k k0); [contradiction|]. now rewrite IH.
Qed.

Lemma dict_get_keys : forall V k (d : dict V) v,
  dict_get k d = Some v -> In k (dict_keys d).
Proof.
  intros V k. induction d as [|[k0 v0] d IH]; simpl; intros v H; [discriminate|].
  destruct (Z.eqb_spec k k0) as [->|Hne]; auto. right. eapply IH; eauto.
Qed.

Lemma dict_keys_length : forall V (d : dict V), length (dict_keys d) = length d.
Proof. intros. apply length_map. Qed.

(* ================================================================== *)
(** * The stereo step of the pre-processing script                      *)
(* ================================================================== *)

Lemma existsb_dict_values : forall V (p : V -> bool) (d : dict V),
  existsb p (dict_values d) = true <-> exists tel v, In (tel, v) d /\ p v = true.
Proof.
  intros V p d. unfold dict_values. rewrite existsb_exists. split.
  - intros (v & Hin & Hp). apply in_map_iff in Hin.
    destruct Hin as ([tel v'] & Heq & Hin). simpl in Heq. subst v'. eauto.
  - intros (tel & v & Hin & Hp). exists v. split; auto.
    apply in_map_iff. exists (tel, v). auto.
Qed.

Lemma existsb_dict_values_false : forall V (p : V -> bool) (d : dict V),
  existsb p (dict_values d) = false <-> forall tel v, In (tel, v) d -> p v = false.
Proof.
  intros V p d. split.
  - intros H tel v Hin. destruct (p v) eqn:Hp; auto.
    rewrite <- H. symmetry. apply existsb_dict_values. eauto.
  - intros H. destruct (existsb p (dict_values d)) eqn:He; auto.
    apply existsb_dict_values in He. destruct He as (tel & v & Hin & Hp).
    rewrite (H tel v Hin) in Hp. discriminate.
Qed.

Section StereoStep.
Import HillasPreprocessing.

Variable ext : collaborators.
Variable Info : Type.
Variable as_container : Info -> container.
Variable set_tel_id : Info -> Z -> Info.
Variable event : ArrayEvent.
Variable st : tel_state Info.

Let computed := computed_hillas_params st.
Let width_zero := Print (WidthZeroStereoSkipped (index_event_id event) (index_obs_id event)).
Let width_nan := Print (WidthNaNStereoSkipped (index_event_id event) (index_obs_id event)).

Lemma stereo_step_few :
  length computed < 2 ->
  stereo_step ext as_container set_tel_id event st = ([], Ok st).
Proof.
  intros H. unfold stereo_step, dict_keys. rewrite length_map.
  fold computed. destruct (1 <? length computed) eqn:E; auto.
  apply Nat.ltb_lt in E. lia.
Qed.

Lemma stereo_step_zero :
  2 <= length computed -> any_width_zero computed = true ->
  stereo_step ext as_container set_tel_id event st = ([width_zero], Ok st).
Proof.
  intros H Hz. unfold stereo_step, dict_keys. rewrite length_map.
  fold computed. rewrite (proj2 (Nat.ltb_lt 1 _) H), Hz. reflexivity.
Qed.

Lemma stereo_step_nan :
  2 <= length computed ->
  any_width_zero computed = false -> any_width_nan computed = true ->
  stereo_step ext as_container set_tel_id event st = ([width_nan], Ok st).
Proof.
  intros H Hz Hn. unfold stereo_step, dict_keys. rewrite length_map.
  fold computed. rewrite (proj2 (Nat.ltb_lt 1 _) H), Hz, Hn. reflexivity.
Qed.

(** With two or more sound ellipses both reconstructions are called; what
    reaches the output is either nothing (one of them raised) or the two
    stereo rows. *)
Lemma stereo_step_run :
  2 <= length computed ->
  any_width_zero computed = false -> any_width_nan computed = false ->
  (exists e, stereo_step ext as_container set_tel_id event st = ([], Raise e)) \/
  (exists info mars cta,
     stereo_par_calc_mars ext computed (telescope_pointings st) = Ok mars /\
     hillas_reconstructor_predict ext computed (pointing_array event) = Ok cta /\
     event_info st = Some info /\
     stereo_step ext as_container set_tel_id event st =
       ([Write "stereo_params_mars" [as_container (set_tel_id info (-1)%Z); CStereo mars];
         Write "stereo_params_cta" [as_container (set_tel_id info (-1)%Z); CStereo cta]],
        Ok {| computed_hillas_params := computed;
              telescope_pointings := telescope_pointings st;
              event_info := Some (set_tel_id info (-1)%Z) |})).
Proof.
  intros H Hz Hn. unfold stereo_step, dict_keys. rewrite length_map.
  fold computed. rewrite (proj2 (Nat.ltb_lt 1 _) H), Hz, Hn.
  destruct (stereo_par_calc_mars ext computed (telescope_pointings st)) as [mars|e];
    [|left; exists e; reflexivity].
  destruct (hillas_reconstructor_predict ext computed (pointing_array event)) as [cta|e];
    [|left; exists e; reflexivity].
  destruct (event_info st) as [info|]; [|left; exists NameError; reflexivity].
  right. exists info, mars, cta. repeat split; reflexivity.
Qed.
End StereoStep.

(** C1: with two or more ellipses in hand the stereo step looks first for a
    width equal to 0 and only then for a NaN width, and each of the two has
    its own message.  One ellipse of width 0 is enough for the zero-width
    message and for the stereo reconstruction to be left out, whatever the
    other widths are, NaN included; the NaN message needs every width to
    differ from 0; with neither, no message is printed. *)
Theorem stereo_gating_order :
  forall (ext : HillasPreprocessing.collaborators) (Info : Type)
         (as_container : Info -> container) (set_tel_id : Info -> Z -> Info)
         (event : HillasPreprocessing.ArrayEvent)
         (st : HillasPreprocessing.tel_state Info),
    2 <= length (HillasPreprocessing.computed_hillas_params st) ->
    let computed := HillasPreprocessing.computed_hillas_params st in
    let id := HillasPreprocessing.index_event_id event in
    let obs := HillasPreprocessing.index_obs_id event in
    let step := HillasPreprocessing.stereo_step ext as_container set_tel_id event st in
    Print (WidthZeroStereoSkipped id obs) <> Print (WidthNaNStereoSkipped id obs) /\
    ((exists tel h, In (tel, h) computed /\ feq0 (width h) = true) ->
     step = ([Print (WidthZeroStereoSkipped id obs)], Ok st)) /\
    ((forall tel h, In (tel, h) computed -> feq0 (width h) = false) ->
     (exists tel h, In (tel, h) computed /\ isnan (width h) = true) ->
     step = ([Print (WidthNaNStereoSkipped id obs)], Ok st)) /\
    ((forall tel h, In (tel, h) computed -> feq0 (width h) = false) ->
     (forall tel h, In (tel, h) computed -> isnan (width h) = false) ->
     forall msg, ~ In (Print msg) (trace_of step)).
Proof.
  intros ext Info as_container set_tel_id event st Hlen computed id obs step.
  split; [discriminate|]. split; [|split].
  - intros Hz. apply stereo_step_zero; auto.
    now apply existsb_dict_values.
  - intros Hz Hn. apply stereo_step_nan; auto.
    + now apply existsb_dict_values_false.
    + now apply existsb_dict_values.
  - intros Hz Hn msg Hin.
    destruct (@stereo_step_run ext Info as_container set_tel_id event st Hlen)
      as [[e He] | (info & mars & cta & _ & _ & _ & He)].
    + now apply existsb_dict_values_false.
    + now apply existsb_dict_values_false.
    + unfold step in Hin. rewrite He in Hin. destruct Hin.
    + unfold step in Hin. rewrite He in Hin.
      destruct Hin as [Hin|[Hin|[]]]; discriminate.
Qed.

Lemma stereo_gating_order_witness :
  HillasPreprocessing.stereo_step Samples.Magic.ext CInfoMC
    HillasPreprocessing.set_tel_id_mc (Samples.Magic.event 1)
    (Samples.Magic.state_with
       [(1%Z, Samples.ellipse S754_nan); (2%Z, Samples.ellipse (S754_zero true))]) =
  ([Print (WidthZeroStereoSkipped 1 7)],
   Ok (Samples.Magic.state_with
         [(1%Z, Samples.ellipse S754_nan); (2%Z, Samples.ellipse (S754_zero true))])).
Proof.
  apply (@stereo_gating_order Samples.Magic.ext InfoContainerMC CInfoMC
           HillasPreprocessing.set_tel_id_mc (Samples.Magic.event 1)
           (Samples.Magic.state_with
              [(1%Z, Samples.ellipse S754_nan); (2%Z, Samples.ellipse (S754_zero true))])).
  - simpl. lia.
  - exists 2%Z, (Samples.ellipse (S754_zero true)). split; [simpl; auto | reflexivity].
Defined.

(** C3: with fewer than two ellipses in hand (entries of
    [computed_hillas_params]) no stereo reconstruction is run, no stereo
    row is written and nothing is printed: the outcome is a silent skip,
    not a diagnostic.  In the pre-processing script the stereo step then
    does nothing at all, and it does nothing at all in this case only.  In
    the MAGIC+LST script the event is left before [check_write_stereo], and
    it is left in the same way, whatever the number of ellipses, when an
    exception in the telescope loop has set [skip]. *)
Theorem insufficient_telescopes_skip_stereo :
  (forall (ext : HillasPreprocessing.collaborators) (Info : Type)
          (as_container : Info -> container) (set_tel_id : Info -> Z -> Info)
          (event : HillasPreprocessing.ArrayEvent)
          (st : HillasPreprocessing.tel_state Info),
     length (HillasPreprocessing.computed_hillas_params st) < 2 <->
     HillasPreprocessing.stereo_step ext as_container set_tel_id event st = ([], Ok st)) /\
  (forall (ext : StereoReco.collaborators) (display : bool)
          (event : StereoReco.ArrayEvent) (ts : StereoReco.tel_state),
     length (StereoReco.computed_hillas_params ts) < 2 ->
     StereoReco.finish_event ext display event ts =
     ([], Ok {| StereoReco.last_event_info := StereoReco.event_info ts;
                StereoReco.last_tel_id := StereoReco.loop_tel_id ts |})) /\
  (forall (ext : StereoReco.collaborators) (display : bool)
          (event : StereoReco.ArrayEvent) (ts : StereoReco.tel_state),
     StereoReco.skip ts = true ->
     StereoReco.finish_event ext display event ts =
     ([], Ok {| StereoReco.last_event_info := StereoReco.event_info ts;
                StereoReco.last_tel_id := StereoReco.loop_tel_id ts |})).
Proof.
  split; [|split].
  - intros ext Info as_container set_tel_id event st. split.
    + apply stereo_step_few.
    + intros Heq.
      destruct (Nat.lt_ge_cases (length (HillasPreprocessing.computed_hillas_params st)) 2)
        as [|Hge]; auto. exfalso.
      destruct (any_width_zero (HillasPreprocessing.computed_hillas_params st)) eqn:Hz.
      { rewrite stereo_step_zero in Heq by assumption. discriminate. }
      destruct (any_width_nan (HillasPreprocessing.computed_hillas_params st)) eqn:Hn.
      { rewrite stereo_step_nan in Heq by assumption. discriminate. }
      destruct (@stereo_step_run ext Info as_container set_tel_id event st Hge Hz Hn)
        as [[e He] | (info & mars & cta & _ & _ & _ & He)];
        rewrite He in Heq; discriminate.
  - intros ext display event ts Hlen. unfold StereoReco.finish_event.
    destruct (StereoReco.skip ts); auto.
    destruct (length (StereoReco.computed_hillas_params ts) <? 2) eqn:E; auto.
    apply Nat.ltb_ge in E. lia.
  - intros ext display event ts Hskip. unfold StereoReco.finish_event.
    now rewrite Hskip.
Qed.

Lemma insufficient_telescopes_skip_stereo_witness :
  HillasPreprocessing.stereo_step Samples.Magic.ext CInfoMC
    HillasPreprocessing.set_tel_id_mc (Samples.Magic.event 1)
    (Samples.Magic.state_with [(2%Z, Samples.ellipse (of_Z 1))]) =
  ([], Ok (Samples.Magic.state_with [(2%Z, Samples.ellipse (of_Z 1))])) /\
  StereoReco.finish_event Samples.Sim.ext false Samples.Sim.event
    Samples.Sim.empty_state =
  ([], Ok {| StereoReco.last_event_info := None; StereoReco.last_tel_id := None |}) /\
  StereoReco.finish_event Samples.Sim.ext false Samples.Sim.event
    (StereoReco.set_skip Samples.Sim.empty_state) =
  ([], Ok {| StereoReco.last_event_info := None; StereoReco.last_tel_id := None |}).
Proof.
  split; [|split].
  - apply (proj1 insufficient_telescopes_skip_stereo). simpl. lia.
  - apply (proj1 (proj2 insufficient_telescopes_skip_stereo) Samples.Sim.ext false
             Samples.Sim.event Samples.Sim.empty_state).
    simpl. lia.
  - apply (proj2 (proj2 insufficient_telescopes_skip_stereo) Samples.Sim.ext false
             Samples.Sim.event (StereoReco.set_skip Samples.Sim.empty_state)).
    reflexivity.
Defined.

(** C3, as stated, fails: no outcome names the lack of telescopes.  An
    MC event of the pre-processing script with one ellipse prints and writes
    nothing in its stereo step.  In the MAGIC+LST script an event left with
    one ellipse (telescopes 1 and 3 dropped for their small images) and an
    event left with two ellipses by an exception in telescope 3 end in the
    same way, with nothing printed or written after the telescope loop and
    the same variables kept. *)
Lemma insufficient_telescopes_has_no_outcome_of_its_own :
  trace_of (HillasPreprocessing.stereo_step Samples.Magic.ext CInfoMC
              HillasPreprocessing.set_tel_id_mc (Samples.Magic.event 1)
              (Samples.Magic.state_with [(2%Z, Samples.ellipse (of_Z 1))])) = [] /\
  length (StereoReco.computed_hillas_params MoreSamples.one_ellipse_left) = 1 /\
  StereoReco.skip MoreSamples.one_ellipse_left = false /\
  length (StereoReco.computed_hillas_params MoreSamples.two_ellipses_and_skip) = 2 /\
  StereoReco.skip MoreSamples.two_ellipses_and_skip = true /\
  StereoReco.finish_event Samples.Sim.ext false Samples.Sim.event
    MoreSamples.one_ellipse_left =
  ([], Ok {| StereoReco.last_event_info := Some (StereoReco.mk_info Samples.Sim.event 2 1);
             StereoReco.last_tel_id := Some 3%Z |}) /\
  StereoReco.finish_event Samples.Sim.ext false Samples.Sim.event
    MoreSamples.two_ellipses_and_skip =
  ([], Ok {| StereoReco.last_event_info := Some (StereoReco.mk_info Samples.Sim.event 2 1);
             StereoReco.last_tel_id := Some 3%Z |}).
Proof. repeat split; vm_compute; reflexivity. Qed.

(* ================================================================== *)
(** * The try block of the pre-processing script                        *)
(* ================================================================== *)

(** How a [try] block with a handler that only prints ends, given how its
    body ends. *)
Lemma run_try_print :
  forall S (body : Block S unit) (caught : exn -> bool) (a : action) (s : S) t s' r,
    body s = (t, s', r) ->
    run_block (try_block body caught (fun _ => output a)) s =
    match r with
    | Ok _ => (t, Ok s')
    | Raise e => if caught e then (t ++ [a], Ok s') else (t, Raise e)
    end.
Proof.
  intros S body caught a s t s' r H. unfold run_block, try_block. rewrite H.
  destruct r as [u|e]; [reflexivity|]. destruct (caught e); reflexivity.
Qed.

Section TryBody.
Import HillasPreprocessing.

Variable ext : collaborators.
Variable camera : CameraGeometry.
Variable Info : Type.
Variable as_container : Info -> container.
Variable mk_info : ArrayEvent -> Z -> nat -> Info.
Variable event : ArrayEvent.
Variable tel : Z.
Variables (clean_mask : list bool) (event_image event_pulse_time : list float).
Variables (num_islands : nat) (image_cleaned time_cleaned : list float).

Let row (h : HillasParametersContainer) (l : LeakageContainer)
  (tp : TimingParametersContainer) : list container :=
  [as_container (mk_info event tel num_islands); CHillas h; CLeakage l; CTiming tp].

(** The body of the [try] block, call by call. *)
Lemma try_body_eq : forall st,
  try_body ext camera as_container mk_info event tel num_islands clean_mask event_image
    image_cleaned time_cleaned st =
  match hillas_parameters ext camera image_cleaned with
  | Raise e => ([], st, Raise e)
  | Ok h =>
      match timing_parameters ext camera image_cleaned time_cleaned h
              (gt0 image_cleaned) with
      | Raise e => ([], st, Raise e)
      | Ok tp =>
          match leakage ext camera event_image clean_mask with
          | Raise e => ([], st, Raise e)
          | Ok l =>
              match pointing_of ext event tel with
              | Raise e => ([], set_hillas_params tel h st, Raise e)
              | Ok p =>
                  match convert_units ext event tel with
                  | Raise e =>
                      ([], set_pointing tel p (set_hillas_params tel h st), Raise e)
                  | Ok _ =>
                      match writer_write ext "hillas_params" (row h l tp) with
                      | Raise e =>
                          ([], fully_recorded mk_info event tel h p num_islands st, Raise e)
                      | Ok _ =>
                          ([Write "hillas_params" (row h l tp)],
                           fully_recorded mk_info event tel h p num_islands st, Ok tt)
                      end
                  end
              end
          end
      end
  end.
Proof.
  intros st.
  unfold try_body, pointing_of, fully_recorded, row, bbind, call, assign, write.
  destruct (hillas_parameters ext camera image_cleaned) as [h|e]; [|reflexivity].
  destruct (timing_parameters ext camera image_cleaned time_cleaned h (gt0 image_cleaned))
    as [tp|e]; [|reflexivity].
  destruct (leakage ext camera event_image clean_mask) as [l|e]; [|reflexivity].
  destruct (sky_coord ext _ _) as [p|e]; [|reflexivity].
  destruct (convert_units ext event tel) as [u|e]; [|reflexivity].
  destruct (writer_write ext _ _) as [u'|e]; reflexivity.
Qed.

Hypothesis islands_ok : get_num_islands camera clean_mask event_image = Ok num_islands.
Hypothesis zeroed :
  zero_outside_mask clean_mask event_image event_pulse_time =
  Ok (image_cleaned, time_cleaned).

Lemma after_cleaning_empty : forall st,
  np_any image_cleaned = false ->
  after_cleaning ext camera as_container mk_info event st tel
    (clean_mask, event_image, event_pulse_time) =
  ([Print (DidNotPassCleaning (index_event_id event) (index_obs_id event) tel)], Ok st).
Proof.
  intros st Hany. unfold after_cleaning.
  rewrite islands_ok, bind_lift_ok, zeroed, bind_lift_ok, Hany. reflexivity.
Qed.

(** With a pixel left in the cleaned image, the iteration ends as the [try]
    block does: normally, or with the message if a [ValueError] left the
    body, or by the exception. *)
Lemma after_cleaning_try : forall st t st' r,
  np_any image_cleaned = true ->
  try_body ext camera as_container mk_info event tel num_islands clean_mask event_image
    image_cleaned time_cleaned st = (t, st', r) ->
  after_cleaning ext camera as_container mk_info event st tel
    (clean_mask, event_image, event_pulse_time) =
  match r with
  | Ok _ => (t, Ok st')
  | Raise e => if is_ValueError e then (t ++ failed_line event tel, Ok st')
               else (t, Raise e)
  end.
Proof.
  intros st t st' r Hany Hbody. unfold after_cleaning.
  rewrite islands_ok, bind_lift_ok, zeroed, bind_lift_ok, Hany.
  now apply run_try_print.
Qed.

Lemma after_cleaning_value_error : forall st,
  np_any image_cleaned = true ->
  hillas_parameters ext camera image_cleaned = Raise ValueError ->
  after_cleaning ext camera as_container mk_info event st tel
    (clean_mask, event_image, event_pulse_time) =
  (failed_line event tel, Ok st).
Proof.
  intros st Hany Hh.
  rewrite after_cleaning_try with (t := []) (st' := st) (r := Raise ValueError);
    [reflexivity | assumption |].
  now rewrite try_body_eq, Hh.
Qed.
End TryBody.

(** How a telescope iteration that ends normally has ended. *)
Lemma after_cleaning_outcome :
  forall ext camera Info (as_container : Info -> container) mk_info event st tel
         cleaned t st',
    HillasPreprocessing.after_cleaning ext camera as_container mk_info event st tel
      cleaned = (t, Ok st') ->
    telescope_outcome ext as_container mk_info event st tel t st'.
Proof.
  intros ext camera Info as_container mk_info event st tel [[mask img] tm] t st' H.
  destruct (get_num_islands camera mask img) as [n|e] eqn:Hn;
    [|unfold HillasPreprocessing.after_cleaning in H; rewrite Hn in H; discriminate].
  destruct (HillasPreprocessing.zero_outside_mask mask img tm) as [[ic tc]|e] eqn:Hz;
    [|unfold HillasPreprocessing.after_cleaning in H;
      rewrite Hn, bind_lift_ok, Hz in H; discriminate].
  destruct (np_any ic) eqn:Hany.
  - destruct (HillasPreprocessing.try_body ext camera as_container mk_info event tel n
                mask img ic tc st) as [[t0 s0] r0] eqn:Hbody.
    rewrite (@after_cleaning_try ext camera Info as_container mk_info event tel
               mask img tm n ic tc Hn Hz st t0 s0 r0 Hany Hbody) in H.
    rewrite try_body_eq in Hbody.
    destruct (HillasPreprocessing.hillas_parameters ext camera ic) as [h|e].
    2:{ inversion Hbody; subst. destruct e; inversion H; subst. left. auto. }
    destruct (HillasPreprocessing.timing_parameters ext camera ic tc h (gt0 ic))
      as [tp|e].
    2:{ inversion Hbody; subst. destruct e; inversion H; subst. left. auto. }
    destruct (HillasPreprocessing.leakage ext camera img mask) as [l|e].
    2:{ inversion Hbody; subst. destruct e; inversion H; subst. left. auto. }
    destruct (pointing_of ext event tel) as [p|e] eqn:Hp.
    2:{ inversion Hbody; subst. destruct e; inversion H; subst.
        right. left. exists h. auto. }
    destruct (HillasPreprocessing.convert_units ext event tel) as [u|e] eqn:Hu.
    2:{ inversion Hbody; subst. destruct e; inversion H; subst.
        right. right. left. exists h, p. auto. }
    destruct (HillasPreprocessing.writer_write ext "hillas_params" _) as [u'|e] eqn:Hw.
    2:{ inversion Hbody; subst. destruct e; inversion H; subst.
        right. right. right. left. eexists h, p, n, _. eauto. }
    inversion Hbody; subst. inversion H; subst.
    right. right. right. right. exists h, p, n, l, tp. auto.
  - rewrite (@after_cleaning_empty ext camera Info as_container mk_info event tel
               mask img tm n ic tc Hn Hz st Hany) in H.
    inversion H. left. auto.
Qed.


(* ================================================================== *)
(** * What the shape parameterizer is fed                               *)
(* ================================================================== *)









(* ================================================================== *)
(** * What an event of the pre-processing script writes                 *)
(* ================================================================== *)

Lemma trace_bind_Forall : forall A B (P : action -> Prop) (c : M A) (k : A -> M B),
  Forall P (trace_of c) ->
  (forall a, Forall P (trace_of (k a))) ->
  Forall P (trace_of (bind c k)).
Proof.
  intros A B P [t [a|e]] k Hc Hk; simpl in *; auto.
  specialize (Hk a). destruct (k a) as [t' r]. simpl in *.
  apply Forall_app. auto.
Qed.

Lemma trace_for_each_Forall :
  forall A S (P : action -> Prop) (body : S -> A -> M S),
    (forall st x, Forall P (trace_of (body st x))) ->
    forall xs st, Forall P (trace_of (for_each body xs st)).
Proof.
  intros A S P body Hb xs. induction xs as [|x xs IH]; intros st; simpl.
  - constructor.
  - apply trace_bind_Forall; auto.
Qed.

Lemma trace_lift : forall A (P : action -> Prop) (r : result A),
  Forall P (trace_of (lift r)).
Proof. intros. constructor. Qed.

Lemma trace_try_except_Forall :
  forall A (P : action -> Prop) (body : M A) caught (handler : exn -> M A),
    Forall P (trace_of body) ->
    (forall e, Forall P (trace_of (handler e))) ->
    Forall P (trace_of (try_except body caught handler)).
Proof.
  intros A P [t [a|e]] caught handler Hb Hh; simpl in *; auto.
  destruct (caught e); auto.
  specialize (Hh e). destruct (handler e) as [t' r]. simpl in *.
  apply Forall_app. auto.
Qed.

Lemma after_cleaning_monocular :
  forall ext camera Info (as_container : Info -> container) mk_info event st tel cleaned,
    Forall monocular
      (trace_of (HillasPreprocessing.after_cleaning ext camera as_container mk_info
                   event st tel cleaned)).
Proof.
  intros ext camera Info as_container mk_info event st tel [[mask img] tm].
  unfold HillasPreprocessing.after_cleaning.
  apply trace_bind_Forall; [apply trace_lift|]. intros n.
  apply trace_bind_Forall; [apply trace_lift|]. intros [ic tc].
  destruct (np_any ic); [|repeat constructor].
  unfold run_block, try_block. rewrite try_body_eq.
  destruct (HillasPreprocessing.hillas_parameters ext camera ic) as [h|[]];
    try (repeat constructor).
  destruct (HillasPreprocessing.timing_parameters ext camera ic tc h (gt0 ic))
    as [tp|[]]; try (repeat constructor).
  destruct (HillasPreprocessing.leakage ext camera img mask) as [l|[]];
    try (repeat constructor).
  destruct (pointing_of ext event tel) as [p|[]]; try (repeat constructor).
  destruct (HillasPreprocessing.convert_units ext event tel) as [u|[]];
    try (repeat constructor).
  destruct (HillasPreprocessing.writer_write ext "hillas_params" _) as [u'|[]];
    repeat constructor.
Qed.

Lemma telescope_loop_mc_monocular : forall ext camera event info,
  Forall monocular (trace_of (HillasPreprocessing.telescope_loop_mc ext camera event info)).
Proof.
  intros. unfold HillasPreprocessing.telescope_loop_mc.
  apply trace_for_each_Forall. intros st tel.
  unfold HillasPreprocessing.process_telescope_mc.
  apply trace_bind_Forall; [apply trace_lift|]. intros cleaned.
  apply after_cleaning_monocular.
Qed.





(* ================================================================== *)
(** * The try block of the MAGIC+LST script                             *)
(* ================================================================== *)

Lemma arrow_gradient_sized : forall tp, arrow_sized (arrow_gradient tp).
Proof.
  intros tp. unfold arrow_gradient.
  destruct (SFltb (SFabs (slope tp)) (literal 2 1)) eqn:E; [|exact E].
  vm_compute. reflexivity.
Qed.

Section SimTryBody.
Import StereoReco.

Variable ext : collaborators.
Variable tels : list Z.
Variable magic_clean : option engine_t.
Variable event : ArrayEvent.
Variable tel : Z.

Let row (n : nat) (h : HillasParametersContainer) (l : LeakageContainer)
  (tp : TimingParametersContainer) : list container :=
  [CInfoSim (mk_info event tel n); CHillas h; CLeakage l; CTiming tp].

(** The analysis of a cleaned image, call by call. *)
Lemma analyse_eq : forall geom img peakpos clean n st,
  analyse ext event tel geom img peakpos clean n st =
  match geometry_getitem geom clean with
  | Raise e => ([], st, Raise e)
  | Ok gc =>
  match bool_index img clean fzero with
  | Raise e => ([], st, Raise e)
  | Ok ic =>
  match hillas_parameters ext gc ic with
  | Raise e => ([], st, Raise e)
  | Ok h =>
  match leakage ext geom img clean with
  | Raise e => ([], st, Raise e)
  | Ok l =>
  match bool_index peakpos clean fzero with
  | Raise e => ([], st, Raise e)
  | Ok pc =>
  match timing_parameters ext gc ic pc h with
  | Raise e => ([], st, Raise e)
  | Ok tp =>
  match sky_coord ext (altitude (pointing_tel event tel))
          (azimuth (pointing_tel event tel)) with
  | Raise e => ([], set_hillas_params tel h st, Raise e)
  | Ok p =>
  match convert_units ext event tel with
  | Raise e => ([], sim_measured tel h p (arrow_gradient tp) st, Raise e)
  | Ok _ =>
  match writer_write ext "hillas_params" (row n h l tp) with
  | Raise e =>
      ([], set_event_info (mk_info event tel n)
             (sim_measured tel h p (arrow_gradient tp) st), Raise e)
  | Ok _ =>
      ([Write "hillas_params" (row n h l tp)],
       set_event_info (mk_info event tel n)
         (sim_measured tel h p (arrow_gradient tp) st), Ok tt)
  end end end end end end end end end.
Proof.
  intros geom img peakpos clean n st.
  unfold analyse, row, bbind, call, assign, write, bret.
  destruct (geometry_getitem geom clean) as [gc|e]; [|reflexivity].
  destruct (bool_index img clean fzero) as [ic|e]; [|reflexivity].
  destruct (hillas_parameters ext gc ic) as [h|e]; [|reflexivity].
  destruct (leakage ext geom img clean) as [l|e]; [|reflexivity].
  destruct (bool_index peakpos clean fzero) as [pc|e]; [|reflexivity].
  destruct (timing_parameters ext gc ic pc h) as [tp|e]; [|reflexivity].
  destruct (sky_coord ext _ _) as [p|e]; [|reflexivity].
  assert ((if SFltb (SFabs (slope tp)) (literal 2 1)
           then set_time_gradient tel (of_Z 1)
                  (set_time_gradient tel (slope tp)
                     (set_pointing tel p (set_hillas_params tel h st)))
           else set_time_gradient tel (slope tp)
                  (set_pointing tel p (set_hillas_params tel h st))) =
          sim_measured tel h p (arrow_gradient tp) st) as Hg.
  { unfold sim_measured, arrow_gradient.
    destruct (SFltb (SFabs (slope tp)) (literal 2 1)); [|reflexivity].
    unfold set_time_gradient. simpl. now rewrite dict_set_twice. }
  destruct (SFltb (SFabs (slope tp)) (literal 2 1)) eqn:E;
    simpl; rewrite <- Hg;
    destruct (convert_units ext event tel) as [u|e]; try reflexivity;
    destruct (writer_write ext _ _) as [u'|e]; reflexivity.
Qed.

Lemma analyse_left_as : forall geom img peakpos clean n st t st' r,
  analyse ext event tel geom img peakpos clean n st = (t, st', r) ->
  sim_left_as event tel st t st' r.
Proof.
  intros geom img peakpos clean n st t st' r H. rewrite analyse_eq in H.
  assert (forall e, ([], st, Raise e) = (t, st', r) -> sim_left_as event tel st t st' r) as Hearly.
  { intros e He. inversion He. subst. simpl. split; [reflexivity | left; reflexivity]. }
  destruct (geometry_getitem geom clean) as [gc|e]; [|eauto].
  destruct (bool_index img clean fzero) as [ic|e]; [|eauto].
  destruct (hillas_parameters ext gc ic) as [h|e]; [|eauto].
  destruct (leakage ext geom img clean) as [l|e]; [|eauto].
  destruct (bool_index peakpos clean fzero) as [pc|e]; [|eauto].
  destruct (timing_parameters ext gc ic pc h) as [tp|e]; [|eauto].
  pose proof (arrow_gradient_sized tp) as Hg.
  destruct (sky_coord ext _ _) as [p|e].
  2:{ inversion H. subst. simpl. split; [reflexivity|]. right. left. eauto. }
  destruct (convert_units ext event tel) as [u|e].
  2:{ inversion H. subst. simpl. split; [reflexivity|]. right. right. left.
      exists h, p, (arrow_gradient tp). split; [exact Hg | reflexivity]. }
  destruct (writer_write ext _ _) as [u'|e].
  - inversion H. subst. simpl. right.
    exists n, h, l, tp, p, (arrow_gradient tp). repeat split. exact Hg.
  - inversion H. subst. simpl. split; [reflexivity|]. right. right. right.
    exists h, p, (arrow_gradient tp), n. split; [exact Hg | reflexivity].
Qed.

Lemma telescope_body_left_as : forall dl1 st t st' r,
  telescope_body ext magic_clean event tel dl1 st = (t, st', r) ->
  sim_left_as event tel st t st' r.
Proof.
  intros dl1 st t st' r H.
  assert (forall e, ([], st, Raise e) = (t, st', r) -> sim_left_as event tel st t st' r) as Hearly.
  { intros e He. inversion He. subst. simpl. split; [reflexivity | left; reflexivity]. }
  assert (([], st, Ok tt) = (t, st', r) -> sim_left_as event tel st t st' r) as Hcontinue.
  { intros He. inversion He. subst. simpl. left. auto. }
  unfold telescope_body, bbind, call, bret in H.
  destruct (subarray_geometry ext tel) as [geom|e]; [|eauto].
  destruct (camera_name geom).
  - destruct (tailcuts_clean ext geom (image dl1) cleaning_config_LST) as [clean|e];
      [|eauto].
    destruct (mask_sum clean <? 5); [eauto|].
    destruct (number_of_islands ext geom clean) as [[n ids]|e]; [|eauto].
    destruct (analyse ext event tel geom (image dl1) (peak_time dl1) clean n st)
      as [[t1 s1] r1] eqn:Ha.
    apply analyse_left_as in Ha.
    destruct r1; inversion H; subst; simpl in *; rewrite ?app_nil_r; exact Ha.
  - destruct magic_clean as [engine|]; [|eauto].
    destruct (engine (image dl1) (peak_time dl1) None) as [[[clean ei] pp]|e];
      [|eauto].
    destruct (mask_sum clean <? 5); [eauto|].
    destruct (get_num_islands geom clean ei) as [n|e]; [|eauto].
    destruct (analyse ext event tel geom (image dl1) pp clean n st)
      as [[t1 s1] r1] eqn:Ha.
    apply analyse_left_as in Ha.
    destruct r1; inversion H; subst; simpl in *; rewrite ?app_nil_r; exact Ha.
  - eauto.
Qed.

(** A telescope that was not asked for only moves the loop variable. *)
Lemma process_telescope_unselected : forall st dl1,
  memZ tel tels = false ->
  process_telescope ext tels magic_clean event st (tel, dl1) =
  ([], Ok (set_loop_tel_id st tel)).
Proof. intros st dl1 H. unfold process_telescope. now rewrite H. Qed.

(** A telescope that was asked for ends as its [try] block does; every
    exception is caught, and the handler sets [skip] on the variables as
    the body left them. *)
Lemma process_telescope_selected : forall st dl1 t st' r,
  memZ tel tels = true ->
  telescope_body ext magic_clean event tel dl1 (set_loop_tel_id st tel) = (t, st', r) ->
  process_telescope ext tels magic_clean event st (tel, dl1) =
  match r with
  | Ok _ => (t, Ok st')
  | Raise e =>
      (t ++ [Print ImageNotReconstructed; Print (ExceptionText e)], Ok (set_skip st'))
  end.
Proof.
  intros st dl1 t st' r Hin Hbody. unfold process_telescope.
  rewrite Hin. simpl negb. cbv iota.
  unfold run_block, try_block. rewrite Hbody.
  destruct r as [u|e]; reflexivity.
Qed.
End SimTryBody.

(** Every exception of a telescope iteration is caught. *)
Lemma process_telescope_outcome :
  forall ext tels magic_clean event st tel dl1,
    exists t st',
      StereoReco.process_telescope ext tels magic_clean event st (tel, dl1) = (t, Ok st') /\
      sim_telescope_outcome event st tel t st'.
Proof.
  intros ext tels magic_clean event st tel dl1.
  destruct (StereoReco.memZ tel tels) eqn:Hin.
  2:{ exists [], (StereoReco.set_loop_tel_id st tel).
      split; [now apply process_telescope_unselected | left; auto]. }
  destruct (StereoReco.telescope_body ext magic_clean event tel dl1
              (StereoReco.set_loop_tel_id st tel)) as [[t s'] r] eqn:Hb.
  rewrite (@process_telescope_selected ext tels magic_clean event tel st dl1 t s' r
             Hin Hb).
  apply telescope_body_left_as in Hb.
  destruct r as [u|e]; simpl in Hb.
  - exists t, s'. split; [reflexivity|].
    destruct Hb as [[-> ->] | (n & h & l & tp & p & g & Hg & -> & ->)].
    + left. auto.
    + right. right. exists n, h, l, tp, p, g. auto.
  - destruct Hb as [-> Hrec]. eexists. eexists. split; [reflexivity|].
    right. left. exists e, s'. auto.
Qed.

Lemma sim_recorded_loop_var : forall event st tel left,
  sim_recorded event st tel left ->
  StereoReco.loop_tel_id left = StereoReco.loop_tel_id st /\
  StereoReco.skip left = StereoReco.skip st.
Proof.
  intros event st tel left
    [-> | [(h & ->) | [(h & p & g & _ & ->) | (h & p & g & n & _ & ->)]]];
    split; reflexivity.
Qed.

Lemma outcome_loop_var : forall event st tel t st',
  sim_telescope_outcome event st tel t st' -> StereoReco.loop_tel_id st' = Some tel.
Proof.
  intros event st tel t st'
    [[_ ->] | [(e & left & _ & Hrec & ->) | (n & h & l & tp & p & g & _ & _ & ->)]];
    try reflexivity.
  apply sim_recorded_loop_var in Hrec. simpl. now rewrite (proj1 Hrec).
Qed.

Lemma telescope_loop_cons : forall ext tels magic_clean event item rest st,
  StereoReco.telescope_loop ext tels magic_clean event (item :: rest) st =
  bind (StereoReco.process_telescope ext tels magic_clean event st item)
       (fun st => if StereoReco.skip st then ret st
                  else StereoReco.telescope_loop ext tels magic_clean event rest st).
Proof. reflexivity. Qed.

(* ================================================================== *)
(** * Small images in the MAGIC+LST script                              *)
(* ================================================================== *)

Lemma telescope_body_small :
  forall ext magic_clean event st tel dl1 geom,
    StereoReco.subarray_geometry ext tel = Ok geom ->
    keeps_fewer_than_five ext magic_clean geom dl1 ->
    StereoReco.telescope_body ext magic_clean event tel dl1 st = ([], st, Ok tt).
Proof.
  intros ext magic_clean event st tel dl1 geom Hgeom Hsmall.
  unfold StereoReco.telescope_body, bbind, call, bret. rewrite Hgeom.
  destruct Hsmall as [(Hname & clean & Hclean & Hsum)
                     |(Hname & engine & clean & img & pp & Hmc & Hclean & Hsum)];
    rewrite Hname.
  - rewrite Hclean. now rewrite (proj2 (Nat.ltb_lt _ _) Hsum).
  - rewrite Hmc, Hclean. now rewrite (proj2 (Nat.ltb_lt _ _) Hsum).
Qed.

Lemma process_telescope_small :
  forall ext tels magic_clean event st tel dl1 geom,
    StereoReco.subarray_geometry ext tel = Ok geom ->
    keeps_fewer_than_five ext magic_clean geom dl1 ->
    StereoReco.process_telescope ext tels magic_clean event st (tel, dl1) =
    ([], Ok (StereoReco.set_loop_tel_id st tel)).
Proof.
  intros ext tels magic_clean event st tel dl1 geom Hgeom Hsmall.
  destruct (StereoReco.memZ tel tels) eqn:Hin;
    [|now apply process_telescope_unselected].
  pose proof (@telescope_body_small ext magic_clean event
                (StereoReco.set_loop_tel_id st tel) tel dl1 geom Hgeom Hsmall) as Hb.
  now rewrite (@process_telescope_selected ext tels magic_clean event tel st dl1
                 _ _ _ Hin Hb).
Qed.






(* ================================================================== *)
(** * Repeated event identifiers                                        *)
(* ================================================================== *)

Lemma process_event_data_repeat : forall ext camera st event,
  HillasPreprocessing.previous_event_id st = HillasPreprocessing.index_event_id event ->
  HillasPreprocessing.process_event_data ext camera st event = ([], Ok st).
Proof.
  intros ext camera st event H. unfold HillasPreprocessing.process_event_data.
  now rewrite H, Z.eqb_refl.
Qed.





(* ================================================================== *)
(** * Failures confined to one telescope                                *)
(* ================================================================== *)

Lemma for_each_cons_ok : forall A S (body : S -> A -> M S) x xs st t st',
  body st x = (t, Ok st') ->
  for_each body (x :: xs) st =
  (t ++ trace_of (for_each body xs st'), outcome_of (for_each body xs st')).
Proof. intros A S body x xs st t st' H. simpl. now rewrite H, bind_ok. Qed.

(** A failure in the image leaves the variables of the event alone. *)
Lemma after_cleaning_image_failure :
  forall ext camera Info (as_container : Info -> container) mk_info event
         (st : HillasPreprocessing.tel_state Info) tel cleaned msg,
    image_failure ext camera event tel cleaned msg ->
    HillasPreprocessing.after_cleaning ext camera as_container mk_info event st tel
      cleaned = ([Print msg], Ok st).
Proof.
  intros ext camera Info as_container mk_info event st tel [[mask img] tm] msg
         (n & ic & tc & Hn & Hz & Hfail).
  simpl in Hn, Hz.
  destruct Hfail as [[Hany ->] | (Hany & Hh & ->)].
  - now apply after_cleaning_empty with n ic tc.
  - now apply after_cleaning_value_error with n ic tc.
Qed.

Lemma process_telescope_mc_cleaned : forall ext camera event st tel cleaned,
  cleaned_mc ext camera event tel cleaned ->
  HillasPreprocessing.process_telescope_mc ext camera event st tel =
  HillasPreprocessing.after_cleaning ext camera CInfoMC HillasPreprocessing.mk_info_mc
    event st tel cleaned.
Proof.
  intros ext camera event st tel cleaned H.
  unfold HillasPreprocessing.process_telescope_mc. unfold cleaned_mc in H.
  now rewrite H, bind_lift_ok.
Qed.

Lemma process_telescope_data_cleaned : forall ext camera event st tel cleaned,
  cleaned_data ext camera event tel cleaned ->
  HillasPreprocessing.process_telescope_data ext camera event st tel =
  HillasPreprocessing.after_cleaning ext camera CInfoData HillasPreprocessing.mk_info_data
    event st tel cleaned.
Proof.
  intros ext camera event st tel cleaned (rms & dead & b & d & u & Hr & Hd & Hb & Hdd & Hu & Hc).
  unfold HillasPreprocessing.process_telescope_data.
  now rewrite Hr, bind_lift_ok, Hd, bind_lift_ok, Hb, bind_lift_ok, Hdd, bind_lift_ok,
    Hu, bind_lift_ok, Hc, bind_lift_ok.
Qed.

(** C2, as the code has it: in the telescope loops of the pre-processing
    script, MC and real data alike, a telescope whose cleaned image has no
    non-zero pixel, or whose Hillas computation raises [ValueError], is
    passed over with a message that carries the event, observation and
    telescope identifiers, and the loop goes on with the other telescopes of
    the event from the same state.  In the MAGIC+LST script an image of
    fewer than five pixels is passed over without a message, and an
    exception raised while a telescope is processed prints a message without
    identifiers, leaves the telescope loop and makes the event end without a
    stereo step.  In each of these cases the event ends normally, so the
    loop over the events goes on. *)
Theorem telescope_failures_are_recovered :
  (forall (ext : HillasPreprocessing.collaborators) (camera : CameraGeometry)
          (event : HillasPreprocessing.ArrayEvent)
          (st : HillasPreprocessing.tel_state InfoContainerMC)
          (tel : Z) (rest : list Z)
          (cleaned : list bool * list float * list float) (msg : message),
     cleaned_mc ext camera event tel cleaned ->
     image_failure ext camera event tel cleaned msg ->
     let loop := for_each (HillasPreprocessing.process_telescope_mc ext camera event) in
     loop (tel :: rest) st =
     (Print msg :: trace_of (loop rest st), outcome_of (loop rest st))) /\
  (forall (ext : HillasPreprocessing.collaborators) (camera : CameraGeometry)
          (event : HillasPreprocessing.ArrayEvent)
          (st : HillasPreprocessing.tel_state InfoContainerData)
          (tel : Z) (rest : list Z)
          (cleaned : list bool * list float * list float) (msg : message),
     cleaned_data ext camera event tel cleaned ->
     image_failure ext camera event tel cleaned msg ->
     let loop := for_each (HillasPreprocessing.process_telescope_data ext camera event) in
     loop (tel :: rest) st =
     (Print msg :: trace_of (loop rest st), outcome_of (loop rest st))) /\
  (forall (ext : StereoReco.collaborators) (tels : list Z)
          (magic_clean : option StereoReco.engine_t)
          (event : StereoReco.ArrayEvent) (st : StereoReco.tel_state)
          (tel : Z) (dl1 : DL1CameraContainer) (geom : CameraGeometry),
     StereoReco.subarray_geometry ext tel = Ok geom ->
     keeps_fewer_than_five ext magic_clean geom dl1 ->
     StereoReco.process_telescope ext tels magic_clean event st (tel, dl1) =
     ([], Ok (StereoReco.set_loop_tel_id st tel))) /\
  (forall (ext : StereoReco.collaborators) (tels : list Z)
          (magic_clean : option StereoReco.engine_t) (display : bool)
          (event : StereoReco.ArrayEvent) (st : StereoReco.tel_state)
          (tel : Z) (dl1 : DL1CameraContainer)
          (rest : list (Z * DL1CameraContainer))
          (t : list action) (left : StereoReco.tel_state) (e : exn),
     StereoReco.memZ tel tels = true ->
     StereoReco.telescope_body ext magic_clean event tel dl1
       (StereoReco.set_loop_tel_id st tel) = (t, left, Raise e) ->
     t = [] /\
     StereoReco.telescope_loop ext tels magic_clean event ((tel, dl1) :: rest) st =
     ([Print ImageNotReconstructed; Print (ExceptionText e)],
      Ok (StereoReco.set_skip left)) /\
     StereoReco.finish_event ext display event (StereoReco.set_skip left) =
     ([], Ok {| StereoReco.last_event_info := StereoReco.event_info left;
                StereoReco.last_tel_id := Some tel |})).
Proof.
  split; [|split; [|split]].
  - intros ext camera event st tel rest cleaned msg Hclean Hfail loop. unfold loop.
    rewrite for_each_cons_ok with (t := [Print msg]) (st' := st); [reflexivity|].
    rewrite (process_telescope_mc_cleaned st Hclean).
    now apply after_cleaning_image_failure.
  - intros ext camera event st tel rest cleaned msg Hclean Hfail loop. unfold loop.
    rewrite for_each_cons_ok with (t := [Print msg]) (st' := st); [reflexivity|].
    rewrite (process_telescope_data_cleaned st Hclean).
    now apply after_cleaning_image_failure.
  - intros. now apply process_telescope_small with geom.
  - intros ext tels magic_clean display event st tel dl1 rest t left e Hin Hbody.
    pose proof (telescope_body_left_as _ _ _ _ _ _ Hbody) as Hleft.
    simpl in Hleft. destruct Hleft as [-> Hrec].
    apply sim_recorded_loop_var in Hrec. destruct Hrec as [Hvar _].
    split; [reflexivity|]. split.
    + rewrite telescope_loop_cons.
      rewrite (@process_telescope_selected ext tels magic_clean event tel st dl1
                 _ _ _ Hin Hbody).
      reflexivity.
    + unfold StereoReco.finish_event. simpl. now rewrite Hvar.
Qed.

Lemma telescope_failures_are_recovered_witness :
  for_each (HillasPreprocessing.process_telescope_mc Samples.Magic.ext
              Samples.Magic.camera (Samples.Magic.event 1))
    [1; 2]%Z Samples.Magic.empty_state =
  (Print (HillasCalculationFailed 1 7 1)
     :: trace_of (for_each (HillasPreprocessing.process_telescope_mc Samples.Magic.ext
                              Samples.Magic.camera (Samples.Magic.event 1))
                    [2%Z] Samples.Magic.empty_state),
   outcome_of (for_each (HillasPreprocessing.process_telescope_mc Samples.Magic.ext
                           Samples.Magic.camera (Samples.Magic.event 1))
                 [2%Z] Samples.Magic.empty_state)) /\
  for_each (HillasPreprocessing.process_telescope_data Samples.Magic.ext
              Samples.Magic.camera (Samples.Magic.event 1))
    [1; 2]%Z MoreSamples.empty_data_state =
  (Print (HillasCalculationFailed 1 7 1)
     :: trace_of (for_each (HillasPreprocessing.process_telescope_data Samples.Magic.ext
                              Samples.Magic.camera (Samples.Magic.event 1))
                    [2%Z] MoreSamples.empty_data_state),
   outcome_of (for_each (HillasPreprocessing.process_telescope_data Samples.Magic.ext
                           Samples.Magic.camera (Samples.Magic.event 1))
                 [2%Z] MoreSamples.empty_data_state)) /\
  StereoReco.telescope_loop Samples.Sim.ext [1; 2]%Z None Samples.Sim.event
    [(1%Z, Samples.Sim.saturated); (2%Z, Samples.Sim.bright)] Samples.Sim.empty_state =
  ([Print ImageNotReconstructed; Print (ExceptionText RuntimeError)],
   Ok (StereoReco.set_skip (StereoReco.set_loop_tel_id Samples.Sim.empty_state 1))).
Proof.
  assert (image_failure Samples.Magic.ext Samples.Magic.camera (Samples.Magic.event 1) 1
            ([true; false; false; false],
             Samples.charges [10; 0; 0; 0]%Z, Samples.charges [3; 3; 3; 3]%Z)
            (HillasCalculationFailed 1 7 1)) as Hfail.
  { exists 1, (Samples.charges [10; 0; 0; 0]%Z), [of_Z 3; fzero; fzero; fzero].
    split; [vm_compute; reflexivity|]. split; [vm_compute; reflexivity|].
    right. split; [vm_compute; reflexivity|]. split; reflexivity. }
  split; [|split].
  - apply (proj1 telescope_failures_are_recovered Samples.Magic.ext Samples.Magic.camera
             (Samples.Magic.event 1) Samples.Magic.empty_state 1%Z [2%Z]
             ([true; false; false; false],
              Samples.charges [10; 0; 0; 0]%Z, Samples.charges [3; 3; 3; 3]%Z)
             (HillasCalculationFailed 1 7 1)); [|exact Hfail].
    vm_compute. reflexivity.
  - apply (proj1 (proj2 telescope_failures_are_recovered) Samples.Magic.ext
             Samples.Magic.camera (Samples.Magic.event 1) MoreSamples.empty_data_state
             1%Z [2%Z]
             ([true; false; false; false],
              Samples.charges [10; 0; 0; 0]%Z, Samples.charges [3; 3; 3; 3]%Z)
             (HillasCalculationFailed 1 7 1)); [|exact Hfail].
    exists [repeat false 4; repeat false 4], [repeat false 4; repeat false 4],
      (repeat false 4), (repeat false 4), (repeat false 4).
    repeat split; vm_compute; reflexivity.
  - apply (proj2 (proj2 (proj2 telescope_failures_are_recovered)) Samples.Sim.ext
             [1; 2]%Z None false Samples.Sim.event Samples.Sim.empty_state 1%Z
             Samples.Sim.saturated [(2%Z, Samples.Sim.bright)] []
             (StereoReco.set_loop_tel_id Samples.Sim.empty_state 1) RuntimeError);
      vm_compute; reflexivity.
Defined.

(** C2, as stated, fails: in the MAGIC+LST script the failure of one
    telescope is not confined to it.  Telescope 2, which yields a row of
    Hillas parameters when it is alone, is not processed at all once
    telescope 1 has raised, and the message printed names neither the event
    nor the telescope. *)
Lemma telescope_failure_is_not_local :
  (exists row,
     trace_of (StereoReco.telescope_loop Samples.Sim.ext [1; 2]%Z None Samples.Sim.event
                 [(2%Z, Samples.Sim.bright)] Samples.Sim.empty_state) =
     [Write "hillas_params" row]) /\
  trace_of (StereoReco.telescope_loop Samples.Sim.ext [1; 2]%Z None Samples.Sim.event
              [(1%Z, Samples.Sim.saturated); (2%Z, Samples.Sim.bright)]
              Samples.Sim.empty_state) =
  [Print ImageNotReconstructed; Print (ExceptionText RuntimeError)] /\
  StereoReco.stereo_reco_MAGIC_LST Samples.Sim.ext [Samples.Sim.event] [1; 2]%Z 0 false =
  ([Print (EventCount 0); Print ImageNotReconstructed; Print (ExceptionText RuntimeError)],
   Ok tt).
Proof.
  split; [|split].
  - eexists. vm_compute. reflexivity.
  - vm_compute. reflexivity.
  - vm_compute. reflexivity.
Qed.

(* ================================================================== *)
(** * Further properties of the island count                            *)
(* ================================================================== *)

Lemma nonzero_from_length : forall mask i,
  length (nonzero_from i mask) = mask_sum mask.
Proof.
  unfold mask_sum. induction mask as [|b m IH]; intros i; simpl; auto.
  destruct b; simpl.
  - destruct (bool_dec true true); [|congruence]. now rewrite IH.
  - destruct (bool_dec false true); [discriminate|]. apply IH.
Qed.

Lemma mask_sum_zero : forall mask,
  mask_sum mask = 0 <-> forall i, ~ selected mask i.
Proof.
  intros mask. rewrite <- (nonzero_from_length mask 0). fold (nonzero mask). split.
  - intros H i Hi. apply nonzero_in in Hi.
    destruct (nonzero mask); [destruct Hi | discriminate].
  - intros H. destruct (nonzero mask) as [|i l] eqn:E; auto.
    exfalso. apply (H i). apply nonzero_in. rewrite E. simpl. auto.
Qed.

Lemma reach_more_edges : forall (D : nat -> Prop) (E E' : nat -> nat -> Prop),
  (forall u v, D u -> D v -> E u v -> E' u v) ->
  forall u v, reach D E u v -> reach D E' u v.
Proof.
  intros D E E' Hsub u v H. induction H as [v Hv | u v w Huv IH Hw Hvw].
  - now apply reach_refl.
  - apply reach_step with v; auto. apply Hsub; auto.
    eapply reach_dom_r; eauto.
Qed.

(** X1: the island count is at most the number of selected pixels, and it
    is 0 exactly when the mask selects nothing. *)
Theorem island_count_bounds :
  forall camera mask event_image,
    well_shaped camera mask ->
    exists n,
      get_num_islands camera mask event_image = Ok n /\
      n <= mask_sum mask /\
      (n = 0 <-> mask_sum mask = 0).
Proof.
  intros camera mask img Hw.
  destruct (island_representatives_exist camera mask) as [R HR].
  exists (length R). split; [now apply get_num_islands_representatives|].
  destruct HR as (Hnd & Hsel & _ & Hcov).
  assert (length R <= mask_sum mask) as Hle.
  { rewrite <- (nonzero_from_length mask 0). fold (nonzero mask).
    apply NoDup_incl_length; auto.
    intros r Hr. apply nonzero_in. now apply Hsel. }
  split; [exact Hle|]. split.
  - intros Hz. apply mask_sum_zero. intros i Hi.
    destruct (Hcov i Hi) as (r & Hr & _).
    destruct R; [destruct Hr | discriminate].
  - lia.
Qed.

Lemma island_count_bounds_witness :
  exists n,
    get_num_islands (Samples.row_camera MAGICCam 5)
      [true; true; false; true; false] [] = Ok n /\
    n <= 3 /\ (n = 0 <-> 3 = 0).
Proof.
  apply (@island_count_bounds (Samples.row_camera MAGICCam 5)
           [true; true; false; true; false] []).
  repeat split; reflexivity.
Defined.

Lemma nonzero_from_app : forall a b i,
  nonzero_from i (a ++ b) = nonzero_from i a ++ nonzero_from (i + length a) b.
Proof.
  induction a as [|x a IH]; intros b i; simpl.
  - now rewrite Nat.add_0_r.
  - rewrite IH. replace (S i + length a) with (i + S (length a)) by lia.
    now destruct x.
Qed.

Lemma nonzero_from_all_false : forall k i, nonzero_from i (repeat false k) = [].
Proof. induction k as [|k IH]; intros i; simpl; auto. Qed.

(** The count depends on the mask through its true positions only. *)
Lemma get_num_islands_nonzero : forall camera mask mask' event_image,
  nonzero mask = nonzero mask' ->
  get_num_islands camera mask event_image = get_num_islands camera mask' event_image.
Proof.
  intros camera mask mask' img H.
  unfold get_num_islands, select_rows, select_cols. now rewrite H.
Qed.

(** X2: [get_num_islands] can only fail with [IndexError], and it does so
    exactly when the mask selects a position beyond the rows or the columns
    of the neighbour matrix.  The length of the mask is not checked: a mask
    shorter than the camera is read as if it were completed with [false],
    and entries [false] beyond the camera do no harm.  The matrix handed to
    [connected_components] is always square, so that call never raises. *)
Theorem get_num_islands_failure :
  forall camera mask event_image,
    let m := neighbor_matrix_sparse camera in
    ((forall i, selected mask i -> i < n_rows m /\ i < n_cols m) ->
     exists n, get_num_islands camera mask event_image = Ok n) /\
    ((exists i, selected mask i /\ (n_rows m <= i \/ n_cols m <= i)) ->
     get_num_islands camera mask event_image = Raise IndexError) /\
    (forall e, get_num_islands camera mask event_image = Raise e -> e = IndexError) /\
    (forall k, get_num_islands camera (mask ++ repeat false k) event_image =
               get_num_islands camera mask event_image).
Proof.
  intros camera mask img m.
  assert (in_range (n_rows m) (nonzero mask) = true ->
          in_range (n_cols m) (nonzero mask) = true ->
          exists n, get_num_islands camera mask img = Ok n) as Hok.
  { intros Hr Hc. rewrite get_num_islands_in_range by assumption. eauto. }
  assert (in_range (n_rows m) (nonzero mask) = false \/
          in_range (n_cols m) (nonzero mask) = false ->
          get_num_islands camera mask img = Raise IndexError) as Hbad.
  { intros H. unfold get_num_islands, select_rows. fold m.
    destruct (in_range (n_rows m) (nonzero mask)) eqn:Hr; simpl; auto.
    destruct H as [H|H]; [discriminate|].
    unfold select_cols. simpl. fold m. now rewrite H. }
  split; [|split; [|split]].
  - intros H. apply Hok; apply in_range_nonzero; intros i Hi; now apply H.
  - intros (i & Hi & Hout). apply Hbad.
    destruct Hout as [Hout|Hout]; [left|right].
    + destruct (in_range (n_rows m) (nonzero mask)) eqn:E; auto.
      exfalso. pose proof (proj1 (in_range_nonzero mask _) E i Hi). lia.
    + destruct (in_range (n_cols m) (nonzero mask)) eqn:E; auto.
      exfalso. pose proof (proj1 (in_range_nonzero mask _) E i Hi). lia.
  - intros e He.
    destruct (in_range (n_rows m) (nonzero mask)) eqn:Hr.
    + destruct (in_range (n_cols m) (nonzero mask)) eqn:Hc.
      * destruct (Hok eq_refl eq_refl) as [n Hn]. congruence.
      * rewrite Hbad in He by auto. congruence.
    + rewrite Hbad in He by auto. congruence.
  - intros k. apply get_num_islands_nonzero. unfold nonzero.
    now rewrite nonzero_from_app, nonzero_from_all_false, app_nil_r.
Qed.

Lemma get_num_islands_failure_witness :
  (exists n, get_num_islands (Samples.row_camera MAGICCam 3) [true; false] [] = Ok n) /\
  get_num_islands (Samples.row_camera MAGICCam 3) [true; false; false; true] [] =
    Raise IndexError /\
  get_num_islands (Samples.row_camera MAGICCam 3) ([true; false] ++ repeat false 1) [] =
    get_num_islands (Samples.row_camera MAGICCam 3) [true; false] [].
Proof.
  split; [|split].
  - apply (proj1 (get_num_islands_failure (Samples.row_camera MAGICCam 3)
                    [true; false] [])).
    intros i Hi. apply selected_lt_length in Hi. simpl in *. lia.
  - apply (proj1 (proj2 (get_num_islands_failure (Samples.row_camera MAGICCam 3)
                           [true; false; false; true] []))).
    exists 3. split; [reflexivity | left; simpl; lia].
  - apply (proj2 (proj2 (proj2 (get_num_islands_failure (Samples.row_camera MAGICCam 3)
                                  [true; false] [])))).
Defined.

(** X3: when no two selected pixels are neighbours, every selected pixel is
    an island of its own: the count is the number of selected pixels. *)
Theorem scattered_pixels_are_islands :
  forall camera mask event_image,
    well_shaped camera mask ->
    (forall i j, selected mask i -> selected mask j -> i <> j -> ~ adjacent camera i j) ->
    get_num_islands camera mask event_image = Ok (mask_sum mask).
Proof.
  intros camera mask img Hw Hscattered.
  rewrite <- (nonzero_from_length mask 0). fold (nonzero mask).
  apply get_num_islands_representatives; auto.
  assert (forall i j, connected camera mask i j -> j = i) as Halone.
  { intros i j H. induction H as [v Hv | u v w Huv IH Hw' Hvw]; auto.
    subst v. destruct (Nat.eq_dec w u) as [|Hne]; auto.
    exfalso. apply (Hscattered u w); auto.
    eapply reach_dom_l; eauto. }
  repeat split.
  - apply nonzero_from_NoDup.
  - intros r Hr. now apply nonzero_in.
  - intros r r' _ _ Hc. symmetry. now apply Halone.
  - intros v Hv. exists v. split; [now apply nonzero_in | now apply reach_refl].
Qed.

Lemma scattered_pixels_are_islands_witness :
  get_num_islands (Samples.row_camera MAGICCam 5)
    [true; false; true; false; true] [] = Ok 3.
Proof.
  apply (@scattered_pixels_are_islands (Samples.row_camera MAGICCam 5)
           [true; false; true; false; true] []).
  - repeat split; reflexivity.
  - intros i j Hi Hj Hne Hadj.
    assert (i < 5) as Hi5 by (apply (selected_lt_length Hi)).
    assert (j < 5) as Hj5 by (apply (selected_lt_length Hj)).
    unfold adjacent, undirected_edge in Hadj. simpl in Hadj.
    destruct i as [|[|[|[|[|i]]]]]; try lia; try discriminate Hi;
      destruct j as [|[|[|[|[|j]]]]]; try lia; try discriminate Hj;
        try discriminate Hadj; congruence.
Defined.

(** X4: only the undirected neighbour relation matters, and more
    neighbours never make more islands: if every pair of selected pixels
    that is adjacent in one camera is adjacent in another, the second
    camera's count is at most the first's.  Two cameras with the same
    adjacency, such as a matrix and its transpose, give the same count. *)
Theorem more_neighbours_fewer_islands :
  forall camera camera' mask event_image n n',
    well_shaped camera mask -> well_shaped camera' mask ->
    (forall i j, selected mask i -> selected mask j ->
                 adjacent camera i j -> adjacent camera' i j) ->
    get_num_islands camera mask event_image = Ok n ->
    get_num_islands camera' mask event_image = Ok n' ->
    n' <= n /\
    ((forall i j, selected mask i -> selected mask j ->
                  adjacent camera' i j -> adjacent camera i j) -> n' = n).
Proof.
  assert (forall camera camera' mask img n n',
    well_shaped camera mask -> well_shaped camera' mask ->
    (forall i j, selected mask i -> selected mask j ->
                 adjacent camera i j -> adjacent camera' i j) ->
    get_num_islands camera mask img = Ok n ->
    get_num_islands camera' mask img = Ok n' -> n' <= n) as Hle.
  { intros camera camera' mask img n n' Hw Hw' Hsub Hn Hn'.
    destruct (island_representatives_exist camera mask) as [R HR].
    destruct (island_representatives_exist camera' mask) as [R' HR'].
    rewrite (get_num_islands_representatives img Hw HR) in Hn.
    rewrite (get_num_islands_representatives img Hw' HR') in Hn'.
    inversion Hn. inversion Hn'. subst n n'.
    destruct HR as (_ & _ & _ & Hcov). destruct HR' as (Hnd' & Hsel' & Hsep' & _).
    apply injection_length with (C := fun x y => connected camera mask y x).
    - exact Hnd'.
    - intros x Hx. destruct (Hcov x (Hsel' x Hx)) as [y [Hy Hyx]]. eauto.
    - intros x x' y Hx Hx' Hyx Hyx'. apply Hsep'; auto.
      apply reach_more_edges with (E := adjacent camera); auto.
      apply reach_trans with y; auto.
      apply reach_sym; [intros u v; apply undirected_edge_sym | assumption]. }
  intros camera camera' mask img n n' Hw Hw' Hsub Hn Hn'.
  split; [now apply (Hle camera camera' mask img n n')|].
  intros Hsup. apply Nat.le_antisymm.
  - now apply (Hle camera camera' mask img n n').
  - now apply (Hle camera' camera mask img n' n).
Qed.

Lemma more_neighbours_fewer_islands_witness :
  get_num_islands (Samples.row_camera MAGICCam 5)
    [true; true; false; true; false] [] = Ok 2 /\
  get_num_islands (MoreSamples.one_way_row_camera MAGICCam 5)
    [true; true; false; true; false] [] = Ok 2 /\
  2 <= 2 /\ 2 = 2.
Proof.
  split; [reflexivity|]. split; [reflexivity|].
  destruct (@more_neighbours_fewer_islands (Samples.row_camera MAGICCam 5)
              (MoreSamples.one_way_row_camera MAGICCam 5)
              [true; true; false; true; false] [] 2 2) as [Hle Heq].
  - repeat split; reflexivity.
  - repeat split; reflexivity.
  - intros i j _ _. unfold adjacent, undirected_edge. simpl.
    destruct (i =? S j), (j =? S i); simpl; auto.
  - reflexivity.
  - reflexivity.
  - split; [exact Hle|]. apply Heq.
    intros i j _ _. unfold adjacent, undirected_edge. simpl.
    destruct (i =? S j), (j =? S i); simpl; auto.
Defined.

(* ================================================================== *)
(** * Which telescopes pass the cleaning                                *)
(* ================================================================== *)

(** X5: a telescope is reported as [did not pass cleaning] exactly when no
    selected pixel carries a charge other than 0; an empty mask is one such
    case, a selected pixel with a NaN charge is not.  Nothing is computed or
    recorded for such a telescope. *)
Theorem did_not_pass_cleaning_iff :
  forall (ext : HillasPreprocessing.collaborators) (camera : CameraGeometry)
         (Info : Type) (as_container : Info -> container)
         (mk_info : HillasPreprocessing.ArrayEvent -> Z -> nat -> Info)
         (event : HillasPreprocessing.ArrayEvent)
         (st : HillasPreprocessing.tel_state Info) (tel : Z)
         (clean_mask : list bool) (event_image event_pulse_time : list float),
    well_shaped camera clean_mask ->
    length clean_mask = length event_image ->
    length clean_mask = length event_pulse_time ->
    ((forall i, nth i clean_mask false = true ->
                feq0 (nth i event_image fzero) = true) <->
     HillasPreprocessing.after_cleaning ext camera as_container mk_info event st tel
       (clean_mask, event_image, event_pulse_time) =
     ([Print (DidNotPassCleaning (HillasPreprocessing.index_event_id event)
                (HillasPreprocessing.index_obs_id event) tel)], Ok st)).
Proof.
  intros ext camera Info as_container mk_info event st tel mask img tm Hw Hi Ht.
  destruct (island_representatives_exist camera mask) as [R HR].
  pose proof (get_num_islands_representatives img Hw HR) as Hn.
  assert (HillasPreprocessing.zero_outside_mask mask img tm =
          Ok (zero_where_false mask img, zero_where_false mask tm)) as Hz.
  { unfold HillasPreprocessing.zero_outside_mask, copy_and_zero.
    now rewrite (proj2 (Nat.eqb_eq _ _) Hi), (proj2 (Nat.eqb_eq _ _) Ht). }
  assert ((forall i, nth i mask false = true -> feq0 (nth i img fzero) = true) <->
          np_any (zero_where_false mask img) = false) as Hany.
  { split.
    - intros H. destruct (np_any (zero_where_false mask img)) eqn:E; auto.
      apply np_any_zero_where_false in E. destruct E as (i & Hm & Htr).
      unfold truthy in Htr. rewrite (H i Hm) in Htr. discriminate.
    - intros H i Hm. destruct (feq0 (nth i img fzero)) eqn:E; auto.
      assert (np_any (zero_where_false mask img) = true) as Hc.
      { apply np_any_zero_where_false. exists i. unfold truthy. now rewrite E. }
      congruence. }
  rewrite Hany. split.
  - intros H. now apply after_cleaning_empty with (length R)
      (zero_where_false mask img) (zero_where_false mask tm).
  - intros H. destruct (np_any (zero_where_false mask img)) eqn:E; auto.
    exfalso.
    destruct (HillasPreprocessing.try_body ext camera as_container mk_info event tel
                (length R) mask img (zero_where_false mask img)
                (zero_where_false mask tm) st) as [[t0 s0] r0] eqn:Hbody.
    rewrite (@after_cleaning_try ext camera Info as_container mk_info event tel
               mask img tm (length R) (zero_where_false mask img)
               (zero_where_false mask tm) Hn Hz st t0 s0 r0 E Hbody) in H.
    rewrite try_body_eq in Hbody.
    repeat match type of Hbody with
           | context [match ?c with Ok _ => _ | Raise _ => _ end] =>
               destruct c as [?|[]]
           end;
      inversion Hbody; subst; simpl in H; discriminate.
Qed.

Lemma did_not_pass_cleaning_iff_witness :
  HillasPreprocessing.after_cleaning Samples.Magic.ext Samples.Magic.camera
    CInfoMC HillasPreprocessing.mk_info_mc (Samples.Magic.event 1)
    Samples.Magic.empty_state 2
    ([false; true; false; false], Samples.charges [10; 0; 5; 7]%Z,
     Samples.charges [3; 3; 3; 3]%Z) =
  ([Print (DidNotPassCleaning 1 7 2)], Ok Samples.Magic.empty_state).
Proof.
  apply (@did_not_pass_cleaning_iff Samples.Magic.ext Samples.Magic.camera
           InfoContainerMC CInfoMC HillasPreprocessing.mk_info_mc
           (Samples.Magic.event 1) Samples.Magic.empty_state 2%Z
           [false; true; false; false] (Samples.charges [10; 0; 5; 7]%Z)
           (Samples.charges [3; 3; 3; 3]%Z)).
  - repeat split; reflexivity.
  - reflexivity.
  - reflexivity.
  - intros [|[|[|[|i]]]] H; try discriminate H; try reflexivity.
    simpl in H. destruct i; discriminate.
Defined.

(* ================================================================== *)
(** * The telescope loop of the pre-processing script                   *)
(* ================================================================== *)

Lemma process_telescope_mc_outcome : forall ext camera event st tel t st',
  HillasPreprocessing.process_telescope_mc ext camera event st tel = (t, Ok st') ->
  telescope_outcome ext CInfoMC HillasPreprocessing.mk_info_mc event st tel t st'.
Proof.
  intros ext camera event st tel t st' H.
  unfold HillasPreprocessing.process_telescope_mc in H.
  destruct (HillasPreprocessing.magic_clean_clean_image ext camera
              (cleaning_config_MAGIC false)
              (image (HillasPreprocessing.dl1_tel event tel))
              (peak_time (HillasPreprocessing.dl1_tel event tel)) None)
    as [cleaned|e]; [|discriminate].
  rewrite bind_lift_ok in H. now apply after_cleaning_outcome in H.
Qed.

Lemma process_telescope_data_outcome : forall ext camera event st tel t st',
  HillasPreprocessing.process_telescope_data ext camera event st tel = (t, Ok st') ->
  telescope_outcome ext CInfoData HillasPreprocessing.mk_info_data event st tel t st'.
Proof.
  intros ext camera event st tel t st' H.
  unfold HillasPreprocessing.process_telescope_data in H.
  destruct (HillasPreprocessing.get_badrmspixel_mask ext event) as [rms|e];
    [|discriminate]. rewrite bind_lift_ok in H.
  destruct (HillasPreprocessing.get_deadpixel_mask ext event) as [dead|e];
    [|discriminate]. rewrite bind_lift_ok in H.
  destruct (HillasPreprocessing.py_index rms (tel - 1)) as [b|e];
    [|discriminate]. rewrite bind_lift_ok in H.
  destruct (HillasPreprocessing.py_index dead (tel - 1)) as [d|e];
    [|discriminate]. rewrite bind_lift_ok in H.
  destruct (HillasPreprocessing.logical_or b d) as [u|e];
    [|discriminate]. rewrite bind_lift_ok in H.
  destruct (HillasPreprocessing.magic_clean_clean_image ext camera
              (cleaning_config_MAGIC true)
              (image (HillasPreprocessing.dl1_tel event tel))
              (peak_time (HillasPreprocessing.dl1_tel event tel)) (Some u))
    as [cleaned|e]; [|discriminate].
  rewrite bind_lift_ok in H. now apply after_cleaning_outcome in H.
Qed.

Lemma for_each_ok_inv : forall A S (body : S -> A -> M S) x xs st t st',
  for_each body (x :: xs) st = (t, Ok st') ->
  exists t1 st1 t2,
    body st x = (t1, Ok st1) /\ for_each body xs st1 = (t2, Ok st') /\ t = t1 ++ t2.
Proof.
  intros A S body x xs st t st' H. simpl in H.
  destruct (body st x) as [t1 [st1|e]]; [|discriminate].
  rewrite bind_ok in H. inversion H.
  exists t1, st1, (trace_of (for_each body xs st1)).
  repeat split. rewrite (surjective_trace (for_each body xs st1)) at 1.
  simpl. congruence.
Qed.

Lemma length_dict_set_new : forall V k (v : V) d,
  ~ In k (dict_keys d) -> length (dict_set k v d) = S (length d).
Proof.
  intros V k v d H. rewrite <- !dict_keys_length, dict_keys_set_new by assumption.
  rewrite length_app. simpl. lia.
Qed.

Section TelescopeLoop.
Import HillasPreprocessing.

Variable ext : collaborators.
Variable Info : Type.
Variable as_container : Info -> container.
Variable mk_info : ArrayEvent -> Z -> nat -> Info.
Variable event : ArrayEvent.
Variable body : tel_state Info -> Z -> M (tel_state Info).

Hypothesis body_outcome : forall st tel t st',
  body st tel = (t, Ok st') ->
  telescope_outcome ext as_container mk_info event st tel t st'.

(** The three ways in which an iteration leaves the dictionaries: as they
    were, with one ellipse more and no pointing for it, or with the ellipse
    and the pointing of the telescope. *)
Lemma step_dictionaries : forall st tel t st',
  body st tel = (t, Ok st') ->
  (computed_hillas_params st' = computed_hillas_params st /\
   telescope_pointings st' = telescope_pointings st) \/
  (exists h,
     pointing_of ext event tel = Raise ValueError /\
     computed_hillas_params st' = dict_set tel h (computed_hillas_params st) /\
     telescope_pointings st' = telescope_pointings st) \/
  (exists h p,
     pointing_of ext event tel = Ok p /\
     computed_hillas_params st' = dict_set tel h (computed_hillas_params st) /\
     telescope_pointings st' = dict_set tel p (telescope_pointings st)).
Proof.
  intros st tel t st' H.
  destruct (body_outcome H)
    as [[-> _] | [(h & _ & Hp & ->) | [(h & p & _ & Hp & _ & ->)
       | [(h & p & n & row & _ & Hp & _ & ->) | (h & p & n & l & tm & _ & Hp & ->)]]]].
  - left. auto.
  - right. left. exists h. auto.
  - right. right. exists h, p. auto.
  - right. right. exists h, p. auto.
  - right. right. exists h, p. auto.
Qed.

Lemma step_agree : forall st tel t st',
  body st tel = (t, Ok st') ->
  dictionaries_agree ext event st -> dictionaries_agree ext event st'.
Proof.
  intros st tel t st' H (Hincl & Hnd & Hndp & Hp).
  unfold dictionaries_agree.
  destruct (step_dictionaries H)
    as [[-> ->] | [(h & _ & -> & ->) | (h & p & Hpo & -> & ->)]].
  - auto.
  - repeat split; auto.
    + intros k Hk. apply dict_keys_set_in. right. now apply Hincl.
    + now apply dict_keys_set_NoDup.
  - repeat split.
    + intros k Hk. apply dict_keys_set_in in Hk. apply dict_keys_set_in.
      destruct Hk as [->|Hk]; [left; reflexivity | right; now apply Hincl].
    + now apply dict_keys_set_NoDup.
    + now apply dict_keys_set_NoDup.
    + intros k p' Hget. destruct (Z.eq_dec k tel) as [->|Hne].
      * rewrite dict_get_set_same in Hget. inversion Hget. now subst.
      * rewrite dict_get_set_other in Hget by assumption. now apply Hp.
Qed.

Lemma loop_agree : forall tels st t st',
  for_each body tels st = (t, Ok st') ->
  dictionaries_agree ext event st -> dictionaries_agree ext event st'.
Proof.
  induction tels as [|tel tels IH]; intros st t st' H Hst.
  - inversion H. now subst.
  - apply for_each_ok_inv in H. destruct H as (t1 & st1 & t2 & H1 & H2 & _).
    apply (IH _ _ _ H2). now apply (step_agree H1).
Qed.

Lemma step_keys : forall st tel t st' k,
  body st tel = (t, Ok st') ->
  (In k (dict_keys (computed_hillas_params st)) ->
   In k (dict_keys (computed_hillas_params st'))) /\
  (In k (dict_keys (computed_hillas_params st')) ->
   In k (dict_keys (computed_hillas_params st)) \/ k = tel).
Proof.
  intros st tel t st' k H.
  destruct (step_dictionaries H)
    as [[-> _] | [(h & _ & -> & _) | (h & p & _ & -> & _)]].
  - auto.
  - rewrite dict_keys_set_in. tauto.
  - rewrite dict_keys_set_in. tauto.
Qed.


Lemma loop_keys : forall tels st t st',
  for_each body tels st = (t, Ok st') ->
  forall k, In k (dict_keys (computed_hillas_params st')) ->
            In k (dict_keys (computed_hillas_params st)) \/ In k tels.
Proof.
  induction tels as [|tel tels IH]; intros st t st' H k Hk.
  - inversion H. subst. auto.
  - apply for_each_ok_inv in H. destruct H as (t1 & st1 & t2 & H1 & H2 & _).
    destruct (IH _ _ _ H2 k Hk) as [Hin|Hin]; [|right; simpl; auto].
    destruct (proj2 (@step_keys st tel t1 st1 k H1) Hin) as [Hin'| ->];
      [left|right; simpl]; auto.
Qed.

(** When the [SkyCoord] constructor accepts the pointing of every
    telescope, an ellipse never stays without its pointing. *)
Lemma loop_same_keys : forall tels st t st',
  for_each body tels st = (t, Ok st') ->
  (forall tel, In tel tels -> pointing_of ext event tel <> Raise ValueError) ->
  dict_keys (telescope_pointings st) = dict_keys (computed_hillas_params st) ->
  dict_keys (telescope_pointings st') = dict_keys (computed_hillas_params st').
Proof.
  induction tels as [|tel tels IH]; intros st t st' H Hsky Hst.
  - inversion H. now subst.
  - apply for_each_ok_inv in H. destruct H as (t1 & st1 & t2 & H1 & H2 & _).
    apply (IH _ _ _ H2); [intros tel' Hin; apply Hsky; simpl; auto|].
    destruct (step_dictionaries H1)
      as [[-> ->] | [(h & Hp & _) | (h & p & _ & -> & ->)]].
    + exact Hst.
    + exfalso. apply (Hsky tel); simpl; auto.
    + now apply dict_keys_set_same.
Qed.

(** A row is written for a telescope only with its ellipse recorded; an
    ellipse is recorded without a row exactly when a [ValueError] came
    after it. *)
Lemma loop_rows : forall tels st t st',
  for_each body tels st = (t, Ok st') ->
  NoDup tels ->
  (forall k, In k tels -> ~ In k (dict_keys (computed_hillas_params st))) ->
  length (rows_of "hillas_params" t) + length (computed_hillas_params st) <=
    length (computed_hillas_params st') /\
  ((forall tel, In tel tels -> bookkeeping_sound ext event tel) ->
   length (rows_of "hillas_params" t) + length (computed_hillas_params st) =
     length (computed_hillas_params st')).
Proof.
  induction tels as [|tel tels IH]; intros st t st' H Hnd Hfresh.
  - inversion H. subst. simpl. split; [lia | reflexivity].
  - apply for_each_ok_inv in H. destruct H as (t1 & st1 & t2 & H1 & H2 & ->).
    inversion Hnd as [|? ? Hnin Hnd']; subst.
    unfold rows_of. rewrite flat_map_app, length_app. fold (rows_of "hillas_params" t2).
    assert (~ In tel (dict_keys (computed_hillas_params st))) as Htel
      by (apply Hfresh; simpl; auto).
    assert (forall h,
              computed_hillas_params st1 = dict_set tel h (computed_hillas_params st) ->
              length (computed_hillas_params st1) = S (length (computed_hillas_params st)) /\
              (forall k, In k tels ->
                         ~ In k (dict_keys (computed_hillas_params st1)))) as Hgrow.
    { intros h Hc. rewrite Hc. split; [now apply length_dict_set_new|].
      intros k Hk Hin. apply dict_keys_set_in in Hin.
      destruct Hin as [->|Hin]; [contradiction|].
      apply (Hfresh k); simpl; auto. }
    destruct (body_outcome H1)
      as [[-> Ht] | [(h & -> & Hp & ->) | [(h & p & -> & Hp & Hu & ->)
         | [(h & p & n & row & -> & Hp & Hw & ->) | (h & p & n & l & tm & -> & Hp & ->)]]]].
    + assert (flat_map
                (fun a => match a with
                          | Write name row =>
                              if String.eqb name "hillas_params" then [row] else []
                          | Print _ => []
                          end) t1 = []) as ->
        by (destruct Ht as [-> | ->]; reflexivity).
      destruct (IH _ _ _ H2 Hnd') as [Hle Heq];
        [intros k Hk; apply Hfresh; simpl; auto|].
      simpl. split; [exact Hle|].
      intros Hs. apply Heq. intros tel' Hin. apply Hs. simpl. auto.
    + destruct (Hgrow h eq_refl) as [Hlen Hfresh1].
      destruct (IH _ _ _ H2 Hnd' Hfresh1) as [Hle _].
      simpl in *. split; [lia|].
      intros Hsound. exfalso. apply (proj1 (Hsound tel (or_introl eq_refl))). exact Hp.
    + destruct (Hgrow h eq_refl) as [Hlen Hfresh1].
      destruct (IH _ _ _ H2 Hnd' Hfresh1) as [Hle _].
      simpl in *. split; [lia|].
      intros Hsound. exfalso.
      apply (proj1 (proj2 (Hsound tel (or_introl eq_refl)))). exact Hu.
    + destruct (Hgrow h eq_refl) as [Hlen Hfresh1].
      destruct (IH _ _ _ H2 Hnd' Hfresh1) as [Hle _].
      simpl in *. split; [lia|].
      intros Hsound. exfalso.
      apply (proj2 (proj2 (Hsound tel (or_introl eq_refl))) row). exact Hw.
    + destruct (Hgrow h eq_refl) as [Hlen Hfresh1].
      destruct (IH _ _ _ H2 Hnd' Hfresh1) as [Hle Heq].
      simpl in *. split; [lia|].
      intros Hsound. rewrite <- Heq; [lia|].
      intros tel' Hin. apply Hsound. auto.
Qed.

End TelescopeLoop.

Lemma empty_dictionaries_agree : forall Info ext event (info : option Info),
  dictionaries_agree ext event
    {| HillasPreprocessing.computed_hillas_params := [];
       HillasPreprocessing.telescope_pointings := [];
       HillasPreprocessing.event_info := info |}.
Proof.
  intros. repeat split; simpl; try constructor.
  - intros k [].
  - intros k p H. discriminate.
Qed.

(** What holds of the dictionaries of an event for any loop body that ends
    as the shared one does. *)
Lemma loop_recorded :
  forall ext Info (as_container : Info -> container) mk_info event
         (body : HillasPreprocessing.tel_state Info -> Z ->
                 M (HillasPreprocessing.tel_state Info)),
    (forall st tel t st',
       body st tel = (t, Ok st') ->
       telescope_outcome ext as_container mk_info event st tel t st') ->
    forall info t ts,
      for_each body (HillasPreprocessing.r1_tels_with_data event)
        {| HillasPreprocessing.computed_hillas_params := [];
           HillasPreprocessing.telescope_pointings := [];
           HillasPreprocessing.event_info := info |} = (t, Ok ts) ->
      recorded_for_event ext event ts.
Proof.
  intros ext Info as_container mk_info event body Hbody info t ts H.
  split; [|split].
  - eapply loop_agree; [exact Hbody | exact H | apply empty_dictionaries_agree].
  - intros k Hk.
    destruct (@loop_keys ext Info as_container mk_info event body Hbody _ _ _ _ H k Hk)
      as [[]|Hin]. exact Hin.
  - intros Hsky.
    apply (@loop_same_keys ext Info as_container mk_info event body Hbody _ _ _ _ H Hsky).
    reflexivity.
Qed.

(** X7: when the telescope loop of an event ends, in the MC as in the data
    path, every telescope with a pointing has an ellipse, no telescope is
    recorded twice, all of them are telescopes of the event, and the
    pointing recorded for a telescope is the one built from its pointing in
    this event.  An ellipse can be left without a pointing, namely when the
    [SkyCoord] constructor raised [ValueError] for its telescope; when the
    constructor raises it for no telescope of the event, the ellipses and
    the pointings are recorded under the same telescopes. *)
Theorem pointings_within_ellipses :
  forall (ext : HillasPreprocessing.collaborators) (camera : CameraGeometry)
         (event : HillasPreprocessing.ArrayEvent),
    (forall info t ts,
       HillasPreprocessing.telescope_loop_mc ext camera event info = (t, Ok ts) ->
       recorded_for_event ext event ts) /\
    (forall info t ts,
       HillasPreprocessing.telescope_loop_data ext camera event info = (t, Ok ts) ->
       recorded_for_event ext event ts).
Proof.
  intros ext camera event. split; intros info t ts H.
  - eapply loop_recorded; [apply process_telescope_mc_outcome | exact H].
  - eapply loop_recorded; [apply process_telescope_data_outcome | exact H].
Qed.

Lemma pointings_within_ellipses_witness :
  recorded_for_event MoreSamples.strict_sky MoreSamples.tilted_event
    (Samples.value_or Samples.Magic.empty_state
       (outcome_of (HillasPreprocessing.telescope_loop_mc MoreSamples.strict_sky
                      Samples.Magic.camera MoreSamples.tilted_event None))) /\
  dict_keys (HillasPreprocessing.computed_hillas_params
               (Samples.value_or Samples.Magic.empty_state
                  (outcome_of (HillasPreprocessing.telescope_loop_mc MoreSamples.strict_sky
                                 Samples.Magic.camera MoreSamples.tilted_event None)))) =
  [1; 2]%Z /\
  dict_keys (HillasPreprocessing.telescope_pointings
               (Samples.value_or Samples.Magic.empty_state
                  (outcome_of (HillasPreprocessing.telescope_loop_mc MoreSamples.strict_sky
                                 Samples.Magic.camera MoreSamples.tilted_event None)))) =
  [2%Z].
Proof.
  split; [|split; vm_compute; reflexivity].
  apply (proj1 (pointings_within_ellipses MoreSamples.strict_sky Samples.Magic.camera
                  MoreSamples.tilted_event) None
           (trace_of (HillasPreprocessing.telescope_loop_mc MoreSamples.strict_sky
                        Samples.Magic.camera MoreSamples.tilted_event None))).
  vm_compute. reflexivity.
Defined.

(** X8: when the telescopes of an event are distinct, the telescope loop
    writes at most as many rows of Hillas parameters as it records
    ellipses: a telescope for which a [ValueError] came after its ellipse
    was stored has an ellipse and no row, so that the stereo step can be
    entered with fewer than two rows written.  The two numbers are equal
    when, for every telescope of the event, neither the [SkyCoord]
    constructor, nor the unit conversions, nor the writer raise
    [ValueError]. *)
Theorem hillas_rows_within_ellipses :
  forall (ext : HillasPreprocessing.collaborators) (camera : CameraGeometry)
         (event : HillasPreprocessing.ArrayEvent),
    NoDup (HillasPreprocessing.r1_tels_with_data event) ->
    (forall info t ts,
       HillasPreprocessing.telescope_loop_mc ext camera event info = (t, Ok ts) ->
       rows_and_ellipses ext event t ts) /\
    (forall info t ts,
       HillasPreprocessing.telescope_loop_data ext camera event info = (t, Ok ts) ->
       rows_and_ellipses ext event t ts).
Proof.
  intros ext camera event Hnd. split; intros info t ts H.
  - destruct (@loop_rows ext _ _ _ event _ (@process_telescope_mc_outcome ext camera event)
                _ _ _ _ H Hnd) as [Hle Heq].
    + intros k _ [].
    + simpl in Hle, Heq. split; [lia|]. intros Hs. rewrite <- (Heq Hs). lia.
  - destruct (@loop_rows ext _ _ _ event _ (@process_telescope_data_outcome ext camera event)
                _ _ _ _ H Hnd) as [Hle Heq].
    + intros k _ [].
    + simpl in Hle, Heq. split; [lia|]. intros Hs. rewrite <- (Heq Hs). lia.
Qed.

Lemma hillas_rows_within_ellipses_witness :
  rows_and_ellipses MoreSamples.strict_sky MoreSamples.tilted_event
    (trace_of (HillasPreprocessing.telescope_loop_mc MoreSamples.strict_sky
                 Samples.Magic.camera MoreSamples.tilted_event None))
    (Samples.value_or Samples.Magic.empty_state
       (outcome_of (HillasPreprocessing.telescope_loop_mc MoreSamples.strict_sky
                      Samples.Magic.camera MoreSamples.tilted_event None))) /\
  length (rows_of "hillas_params"
            (trace_of (HillasPreprocessing.telescope_loop_mc MoreSamples.strict_sky
                         Samples.Magic.camera MoreSamples.tilted_event None))) = 1 /\
  length (HillasPreprocessing.computed_hillas_params
            (Samples.value_or Samples.Magic.empty_state
               (outcome_of (HillasPreprocessing.telescope_loop_mc MoreSamples.strict_sky
                              Samples.Magic.camera MoreSamples.tilted_event None)))) = 2.
Proof.
  split; [|split; vm_compute; reflexivity].
  apply (proj1 (@hillas_rows_within_ellipses MoreSamples.strict_sky Samples.Magic.camera
                  MoreSamples.tilted_event
                  ltac:(repeat constructor; simpl; intuition discriminate)) None).
  vm_compute. reflexivity.
Defined.



(** X10: the message [Hillas calculation failed] is also what a
    [ValueError] of the timing or of the leakage computation gives, although
    the Hillas parameters were obtained: the telescope then gets no row and
    no ellipse, and the loop goes on. *)
Theorem timing_or_leakage_value_error :
  forall (ext : HillasPreprocessing.collaborators) (camera : CameraGeometry)
         (Info : Type) (as_container : Info -> container)
         (mk_info : HillasPreprocessing.ArrayEvent -> Z -> nat -> Info)
         (event : HillasPreprocessing.ArrayEvent)
         (st : HillasPreprocessing.tel_state Info) (tel : Z)
         (clean_mask : list bool) (event_image event_pulse_time : list float)
         (num_islands : nat) (image_cleaned time_cleaned : list float)
         (hillas : HillasParametersContainer),
    get_num_islands camera clean_mask event_image = Ok num_islands ->
    HillasPreprocessing.zero_outside_mask clean_mask event_image event_pulse_time =
      Ok (image_cleaned, time_cleaned) ->
    np_any image_cleaned = true ->
    HillasPreprocessing.hillas_parameters ext camera image_cleaned = Ok hillas ->
    (HillasPreprocessing.timing_parameters ext camera image_cleaned time_cleaned
       hillas (gt0 image_cleaned) = Raise ValueError \/
     (exists timing,
        HillasPreprocessing.timing_parameters ext camera image_cleaned time_cleaned
          hillas (gt0 image_cleaned) = Ok timing) /\
     HillasPreprocessing.leakage ext camera event_image clean_mask = Raise ValueError) ->
    HillasPreprocessing.after_cleaning ext camera as_container mk_info event st tel
      (clean_mask, event_image, event_pulse_time) =
    ([Print (HillasCalculationFailed (HillasPreprocessing.index_event_id event)
               (HillasPreprocessing.index_obs_id event) tel)], Ok st).
Proof.
  intros ext camera Info as_container mk_info event st tel mask img tm n ic tc h
         Hn Hzero Hany Hh Hfail.
  rewrite (@after_cleaning_try ext camera Info as_container mk_info event tel
             mask img tm n ic tc Hn Hzero st [] st (Raise ValueError) Hany);
    [reflexivity|].
  rewrite try_body_eq, Hh.
  destruct Hfail as [Ht | [[timing Ht] Hl]].
  - now rewrite Ht.
  - now rewrite Ht, Hl.
Qed.

Lemma timing_or_leakage_value_error_witness :
  HillasPreprocessing.after_cleaning MoreSamples.no_time_fit Samples.Magic.camera
    CInfoMC HillasPreprocessing.mk_info_mc (Samples.Magic.event 1)
    Samples.Magic.empty_state 2
    ([true; true; false; false], Samples.charges [10; 10; 0; 0]%Z,
     Samples.charges [3; 3; 3; 3]%Z) =
  ([Print (HillasCalculationFailed 1 7 2)], Ok Samples.Magic.empty_state).
Proof.
  apply (@timing_or_leakage_value_error MoreSamples.no_time_fit Samples.Magic.camera
           InfoContainerMC CInfoMC HillasPreprocessing.mk_info_mc
           (Samples.Magic.event 1) Samples.Magic.empty_state 2%Z
           [true; true; false; false] (Samples.charges [10; 10; 0; 0]%Z)
           (Samples.charges [3; 3; 3; 3]%Z) 1
           (Samples.charges [10; 10; 0; 0]%Z)
           [of_Z 3; of_Z 3; fzero; fzero] (Samples.ellipse (of_Z 1)));
    try (vm_compute; reflexivity).
  left. reflexivity.
Defined.

(* ================================================================== *)
(** * The header table of an MC run                                     *)
(* ================================================================== *)

Lemma rows_of_app : forall table t1 t2,
  rows_of table (t1 ++ t2) = rows_of table t1 ++ rows_of table t2.
Proof. intros. unfold rows_of. apply flat_map_app. Qed.

Lemma monocular_no_header : forall t,
  Forall monocular t -> rows_of "mc_header" t = [].
Proof.
  induction 1 as [|a t Ha _ IH]; simpl; auto.
  destruct a as [msg|table row]; simpl in *; auto.
  subst table. simpl. exact IH.
Qed.

Lemma stereo_step_output :
  forall ext Info (as_container : Info -> container) set_tel_id event
         (ts : HillasPreprocessing.tel_state Info),
    Forall stereo_output
      (trace_of (HillasPreprocessing.stereo_step ext as_container set_tel_id event ts)).
Proof.
  intros ext Info as_container set_tel_id event ts.
  destruct (Nat.lt_ge_cases (length (HillasPreprocessing.computed_hillas_params ts)) 2)
    as [Hlt|Hge].
  { rewrite stereo_step_few by assumption. constructor. }
  destruct (any_width_zero (HillasPreprocessing.computed_hillas_params ts)) eqn:Hz.
  { rewrite stereo_step_zero by assumption. repeat constructor. }
  destruct (any_width_nan (HillasPreprocessing.computed_hillas_params ts)) eqn:Hn.
  { rewrite stereo_step_nan by assumption. repeat constructor. }
  destruct (@stereo_step_run ext Info as_container set_tel_id event ts Hge Hz Hn)
    as [[e He] | (info & mars & cta & _ & _ & _ & He)]; rewrite He; simpl.
  - constructor.
  - constructor; [simpl; auto|]. constructor; [simpl; auto|]. constructor.
Qed.

Lemma stereo_output_no_header : forall t,
  Forall stereo_output t -> rows_of "mc_header" t = [].
Proof.
  induction 1 as [|a t Ha _ IH]; simpl; auto.
  destruct a as [msg|table row]; simpl in *; auto.
  destruct Ha as [-> | ->]; simpl; exact IH.
Qed.

Lemma process_event_mc_header : forall ext camera st event t st',
  HillasPreprocessing.process_event_mc ext camera st event = (t, Ok st') ->
  HillasPreprocessing.obs_id_last st' = HillasPreprocessing.index_obs_id event /\
  rows_of "mc_header" t =
  header_rows (HillasPreprocessing.obs_id_last st) [event].
Proof.
  intros ext camera st event t st' H.
  unfold HillasPreprocessing.process_event_mc in H.
  assert (exists header,
            HillasPreprocessing.write_mc_header event st =
              (header,
               Ok {| HillasPreprocessing.obs_id_last :=
                       HillasPreprocessing.index_obs_id event;
                     HillasPreprocessing.mc_event_info :=
                       HillasPreprocessing.mc_event_info st |}) /\
            rows_of "mc_header" header =
            header_rows (HillasPreprocessing.obs_id_last st) [event])
    as (header & Hh & Hrows).
  { destruct st as [last info]. unfold HillasPreprocessing.write_mc_header. simpl.
    destruct (Z.eqb_spec (HillasPreprocessing.index_obs_id event) last) as [->|Hne];
      simpl; eexists; split; reflexivity. }
  rewrite Hh, bind_ok in H. simpl HillasPreprocessing.mc_event_info in H.
  pose proof (telescope_loop_mc_monocular ext camera event
                (HillasPreprocessing.mc_event_info st)) as Hm.
  destruct (HillasPreprocessing.telescope_loop_mc ext camera event
              (HillasPreprocessing.mc_event_info st)) as [t1 [ts|e]];
    [|discriminate].
  rewrite bind_ok in H. simpl in Hm.
  pose proof (stereo_step_output ext CInfoMC HillasPreprocessing.set_tel_id_mc event ts)
    as Hs.
  destruct (HillasPreprocessing.stereo_step ext CInfoMC
              HillasPreprocessing.set_tel_id_mc event ts) as [t2 [ts'|e]];
    [|discriminate].
  simpl in H, Hs. inversion H. split; [reflexivity|].
  rewrite !rows_of_app, (monocular_no_header Hm), (stereo_output_no_header Hs), Hrows.
  simpl. now rewrite !app_nil_r.
Qed.

Lemma event_loop_mc_headers : forall ext camera evs st t st',
  for_each (HillasPreprocessing.process_event_mc ext camera) evs st = (t, Ok st') ->
  rows_of "mc_header" t = header_rows (HillasPreprocessing.obs_id_last st) evs.
Proof.
  intros ext camera. induction evs as [|e evs IH]; intros st t st' H.
  - inversion H. reflexivity.
  - apply for_each_ok_inv in H. destruct H as (t1 & st1 & t2 & H1 & H2 & ->).
    apply process_event_mc_header in H1. destruct H1 as [Hlast Hrows].
    rewrite rows_of_app, Hrows, (IH _ _ _ H2), Hlast. simpl.
    now rewrite app_nil_r.
Qed.

(** X11: in a run of the MC path that comes to its end, the [mc_header]
    table gets one row for every event whose observation identifier differs
    from that of the event before it, and no other row; the first event is
    compared with -1, so that events of observation -1 at the start of a run
    get no header row. *)
Theorem mc_header_rows :
  forall (ext : HillasPreprocessing.collaborators) (camera : CameraGeometry)
         (evs : list HillasPreprocessing.ArrayEvent) (t : list action)
         (st : HillasPreprocessing.mc_state),
    HillasPreprocessing.event_loop_mc ext camera evs = (t, Ok st) ->
    rows_of "mc_header" t = header_rows (-1) evs.
Proof.
  intros ext camera evs t st H.
  now apply event_loop_mc_headers in H.
Qed.

Lemma mc_header_rows_witness :
  rows_of "mc_header"
    (trace_of (HillasPreprocessing.event_loop_mc Samples.Magic.ext Samples.Magic.camera
                 [MoreSamples.event_of_obs (-1) 1; MoreSamples.event_of_obs 7 2;
                  MoreSamples.event_of_obs 7 3; MoreSamples.event_of_obs 8 4])) =
  [[CObsId 7; CMcHeader 7]; [CObsId 8; CMcHeader 8]].
Proof.
  rewrite (@mc_header_rows Samples.Magic.ext Samples.Magic.camera
             [MoreSamples.event_of_obs (-1) 1; MoreSamples.event_of_obs 7 2;
              MoreSamples.event_of_obs 7 3; MoreSamples.event_of_obs 8 4]
             (trace_of (HillasPreprocessing.event_loop_mc Samples.Magic.ext
                          Samples.Magic.camera
                          [MoreSamples.event_of_obs (-1) 1; MoreSamples.event_of_obs 7 2;
                           MoreSamples.event_of_obs 7 3; MoreSamples.event_of_obs 8 4]))
             (Samples.value_or Samples.Magic.start
                (outcome_of (HillasPreprocessing.event_loop_mc Samples.Magic.ext
                               Samples.Magic.camera
                               [MoreSamples.event_of_obs (-1) 1;
                                MoreSamples.event_of_obs 7 2;
                                MoreSamples.event_of_obs 7 3;
                                MoreSamples.event_of_obs 8 4])))).
  - reflexivity.
  - vm_compute. reflexivity.
Defined.

(* ================================================================== *)
(** * Edges of the real-data path                                       *)
(* ================================================================== *)

(** X12: the real-data path starts with 0 as the identifier of the event
    before the first one, so the events at the head of a run whose
    identifier is 0 are passed over like repeated events: the run gives what
    it gives without them. *)
Theorem leading_events_with_id_zero_are_skipped :
  forall (ext : HillasPreprocessing.collaborators) (camera : CameraGeometry)
         (zeros rest : list HillasPreprocessing.ArrayEvent),
    (forall e, In e zeros -> HillasPreprocessing.index_event_id e = 0%Z) ->
    HillasPreprocessing.event_loop_data ext camera (zeros ++ rest) =
    HillasPreprocessing.event_loop_data ext camera rest.
Proof.
  intros ext camera zeros rest Hz. unfold HillasPreprocessing.event_loop_data.
  induction zeros as [|e zeros IH]; simpl; auto.
  rewrite process_event_data_repeat, bind_nil_ok.
  - apply IH. intros e' He'. apply Hz. simpl. auto.
  - simpl. symmetry. apply Hz. simpl. auto.
Qed.

Lemma leading_events_with_id_zero_are_skipped_witness :
  HillasPreprocessing.event_loop_data Samples.Magic.ext Samples.Magic.camera
    ([Samples.Magic.event 0] ++ [Samples.Magic.event 5]) =
  HillasPreprocessing.event_loop_data Samples.Magic.ext Samples.Magic.camera
    [Samples.Magic.event 5].
Proof.
  apply leading_events_with_id_zero_are_skipped.
  intros e [<-|[]]. reflexivity.
Defined.




(* ================================================================== *)
(** * The scaled camera of a run                                        *)
(* ================================================================== *)

(** X24: [scale_camera_geometry] reads the name [geom], which the script
    binds nowhere.  As the script stands the call raises [NameError]
    whatever the camera and the factor, so that [process_dataset_mc] and
    [process_dataset_data] end with this exception before the first event
    is read, with nothing printed and no row written.  With the name bound
    to a module whose [guess_pixel_area] answers, the function hands the
    scaled coordinates and that area to the [CameraGeometry] constructor,
    under the name [MAGICCam]. *)
Theorem scale_camera_geometry_as_shipped :
  forall (ext : HillasPreprocessing.collaborators),
    (forall camera factor,
       HillasPreprocessing.scale_camera_geometry HillasPreprocessing.as_shipped
         ext camera factor = Raise NameError) /\
    (forall source,
       HillasPreprocessing.process_dataset_mc HillasPreprocessing.as_shipped ext source =
       ([], Raise NameError)) /\
    (forall source,
       HillasPreprocessing.process_dataset_data HillasPreprocessing.as_shipped ext source =
       ([], Raise NameError)) /\
    (forall guess camera factor area,
       guess (map (fmul factor) (pix_x camera)) (map (fmul factor) (pix_y camera))
         (pix_type camera) = Ok area ->
       HillasPreprocessing.scale_camera_geometry
         {| HillasPreprocessing.geom := Some guess |} ext camera factor =
       HillasPreprocessing.camera_geometry ext MAGICCam (pix_id camera)
         (map (fmul factor) (pix_x camera)) (map (fmul factor) (pix_y camera))
         area (pix_type camera) (pix_rotation camera) (cam_rotation camera)).
Proof.
  intros ext. split; [|split; [|split]].
  - reflexivity.
  - reflexivity.
  - reflexivity.
  - intros guess camera factor area H.
    unfold HillasPreprocessing.scale_camera_geometry. simpl. now rewrite H.
Qed.

Lemma scale_camera_geometry_as_shipped_witness :
  HillasPreprocessing.scale_camera_geometry
    {| HillasPreprocessing.geom := Some (fun x _ _ => Ok x) |}
    Samples.Magic.ext Samples.Magic.camera (of_Z 2) =
  HillasPreprocessing.camera_geometry Samples.Magic.ext MAGICCam
    (pix_id Samples.Magic.camera)
    (map (fmul (of_Z 2)) (pix_x Samples.Magic.camera))
    (map (fmul (of_Z 2)) (pix_y Samples.Magic.camera))
    (map (fmul (of_Z 2)) (pix_x Samples.Magic.camera))
    (pix_type Samples.Magic.camera) (pix_rotation Samples.Magic.camera)
    (cam_rotation Samples.Magic.camera).
Proof.
  apply (proj2 (proj2 (proj2 (scale_camera_geometry_as_shipped Samples.Magic.ext)))
           (fun x _ _ => Ok x) Samples.Magic.camera (of_Z 2)).
  reflexivity.
Defined.

(* ================================================================== *)
(** * The telescope loop of the MAGIC+LST script                        *)
(* ================================================================== *)

Lemma same_products_loop_var : forall st st' tel,
  same_products st st' ->
  StereoReco.set_loop_tel_id st tel = StereoReco.set_loop_tel_id st' tel.
Proof.
  intros [p c g s i v] [p' c' g' s' i' v'] tel (Hp & Hc & Hg & Hs & Hi).
  simpl in *. subst. reflexivity.
Qed.

Lemma process_telescope_same_products :
  forall ext tels magic_clean event st st' item,
    same_products st st' ->
    StereoReco.process_telescope ext tels magic_clean event st item =
    StereoReco.process_telescope ext tels magic_clean event st' item.
Proof.
  intros ext tels magic_clean event st st' [tel dl1] H.
  unfold StereoReco.process_telescope.
  now rewrite (same_products_loop_var tel H).
Qed.

Lemma same_products_refl : forall st, same_products st st.
Proof. intros st. repeat split. Qed.

Lemma selected_items_cons : forall tels tel dl1 items,
  selected_items tels ((tel, dl1) :: items) =
  if StereoReco.memZ tel tels then (tel, dl1) :: selected_items tels items
  else selected_items tels items.
Proof. reflexivity. Qed.

Lemma telescope_loop_ends_normally :
  forall ext tels magic_clean event items st,
    exists t ts,
      StereoReco.telescope_loop ext tels magic_clean event items st = (t, Ok ts).
Proof.
  intros ext tels magic_clean event.
  induction items as [|[tel dl1] items IH]; intros st.
  - exists [], st. reflexivity.
  - rewrite telescope_loop_cons.
    destruct (process_telescope_outcome ext tels magic_clean event st tel dl1)
      as (t1 & st1 & H1 & _).
    rewrite H1, bind_ok. destruct (StereoReco.skip st1).
    + eexists. eexists. reflexivity.
    + destruct (IH st1) as (t2 & ts & H2). rewrite H2. eexists. eexists. reflexivity.
Qed.

(** X14: no exception leaves the telescope loop of the MAGIC+LST script,
    and the telescopes of [event.dl1.tel] that were not asked for leave no
    trace: the loop prints and writes what it prints and writes over the
    telescopes asked for alone, and ends with the same ellipses, pointings,
    time gradients, metadata and [skip] flag. *)
Theorem unselected_telescopes_are_ignored :
  forall (ext : StereoReco.collaborators) (tels : list Z)
         (magic_clean : option StereoReco.engine_t)
         (event : StereoReco.ArrayEvent)
         (items : list (Z * DL1CameraContainer)) (st : StereoReco.tel_state),
    StereoReco.skip st = false ->
    exists t ts ts',
      StereoReco.telescope_loop ext tels magic_clean event items st = (t, Ok ts) /\
      StereoReco.telescope_loop ext tels magic_clean event
        (selected_items tels items) st = (t, Ok ts') /\
      same_products ts ts'.
Proof.
  intros ext tels magic_clean event items st Hskip.
  assert (forall st', same_products st st' ->
            exists t ts ts',
              StereoReco.telescope_loop ext tels magic_clean event items st = (t, Ok ts) /\
              StereoReco.telescope_loop ext tels magic_clean event
                (selected_items tels items) st' = (t, Ok ts') /\
              same_products ts ts') as Hgen;
    [|apply Hgen, same_products_refl].
  revert st Hskip. induction items as [|[tel dl1] items IH]; intros st Hskip st' Hsame.
  - exists [], st, st'. repeat split; try reflexivity; apply Hsame.
  - rewrite selected_items_cons, telescope_loop_cons.
    destruct (StereoReco.memZ tel tels) eqn:Hin.
    + rewrite telescope_loop_cons.
      rewrite <- (@process_telescope_same_products ext tels magic_clean event
                    st st' (tel, dl1) Hsame).
      destruct (process_telescope_outcome ext tels magic_clean event st tel dl1)
        as (t1 & st1 & H1 & _).
      rewrite H1, !bind_ok.
      destruct (StereoReco.skip st1) eqn:Hs1.
      * exists t1, st1, st1. simpl. rewrite app_nil_r.
        repeat split; reflexivity.
      * destruct (IH st1 Hs1 st1 (same_products_refl st1))
          as (t2 & ts & ts' & H2 & H2' & Hp).
        rewrite H2, H2'. simpl.
        exists (t1 ++ t2), ts, ts'. repeat split; auto; apply Hp.
    + unfold StereoReco.process_telescope. rewrite Hin. simpl negb. cbv iota.
      rewrite bind_ret. simpl StereoReco.skip. rewrite Hskip.
      apply IH; [exact Hskip|].
      destruct Hsame as (Hp & Hc & Hg & Hs & Hi). repeat split; simpl; auto.
Qed.

Lemma unselected_telescopes_are_ignored_witness :
  exists t ts ts',
    StereoReco.telescope_loop Samples.Sim.ext [1; 2]%Z None Samples.Sim.event
      [(1%Z, Samples.Sim.bright); (9%Z, Samples.Sim.bright); (2%Z, Samples.Sim.faint)]
      Samples.Sim.empty_state = (t, Ok ts) /\
    StereoReco.telescope_loop Samples.Sim.ext [1; 2]%Z None Samples.Sim.event
      (selected_items [1; 2]%Z
         [(1%Z, Samples.Sim.bright); (9%Z, Samples.Sim.bright); (2%Z, Samples.Sim.faint)])
      Samples.Sim.empty_state = (t, Ok ts') /\
    same_products ts ts'.
Proof.
  apply unselected_telescopes_are_ignored. reflexivity.
Defined.

Lemma length_dict_set_le : forall V k (v : V) d,
  length (dict_set k v d) <= S (length d).
Proof.
  intros V k v d. induction d as [|[k' v'] d IH]; simpl; [lia|].
  destruct (Z.eqb k k'); simpl; lia.
Qed.

Lemma agree_nest : forall st, sim_dictionaries_agree st -> sim_dictionaries_nest st.
Proof.
  intros st (Hp & Hg & Hnd & Ha).
  split; [|split; [|split; [|split]]]; auto.
  - now rewrite Hg, Hp.
  - rewrite Hp. apply incl_refl.
  - rewrite <- (dict_keys_length (StereoReco.computed_hillas_params st)),
            <- (dict_keys_length (StereoReco.telescope_pointings st)), Hp. lia.
Qed.

Lemma sim_measured_agree : forall tel h p g st,
  arrow_sized g -> sim_dictionaries_agree st ->
  sim_dictionaries_agree (sim_measured tel h p g st).
Proof.
  intros tel h p g st Hsize (Hp & Hg & Hnd & Ha).
  split; [|split; [|split]]; simpl.
  - now apply dict_keys_set_same.
  - now apply dict_keys_set_same.
  - now apply dict_keys_set_NoDup.
  - intros k g' Hin. apply dict_set_in in Hin.
    destruct Hin as [[_ ->]|Hin]; [exact Hsize | eapply Ha; eauto].
Qed.

(** An exception leaves at most the ellipse of its telescope without a
    pointing and a time gradient. *)
Lemma sim_recorded_nest : forall event st tel left,
  sim_recorded event st tel left ->
  sim_dictionaries_agree st -> sim_dictionaries_nest left.
Proof.
  intros event st tel left
    [-> | [(h & ->) | [(h & p & g & Hg & ->) | (h & p & g & n & Hg & ->)]]] Hst.
  - now apply agree_nest.
  - destruct Hst as (Hp & Hgr & Hnd & Ha).
    split; [|split; [|split; [|split]]]; simpl; auto.
    + now rewrite Hgr, Hp.
    + intros k Hk. apply dict_keys_set_in. right. now rewrite <- Hp.
    + pose proof (length_dict_set_le tel h (StereoReco.computed_hillas_params st)).
      rewrite <- (dict_keys_length (StereoReco.computed_hillas_params st)) in H.
      rewrite <- (dict_keys_length (StereoReco.telescope_pointings st)), Hp. lia.
    + now apply dict_keys_set_NoDup.
  - now apply agree_nest, sim_measured_agree.
  - apply agree_nest.
    apply (@sim_measured_agree tel h p g st Hg) in Hst.
    exact Hst.
Qed.

Lemma outcome_agree : forall event st tel t st',
  sim_telescope_outcome event st tel t st' ->
  sim_dictionaries_agree st ->
  sim_dictionaries_nest st' /\
  (StereoReco.skip st' = false -> sim_dictionaries_agree st').
Proof.
  intros event st tel t st' H Hst.
  destruct H as [[_ ->] | [(e & left & _ & Hrec & ->)
                           | (n & h & l & tp & p & g & Hsize & _ & ->)]].
  - split; [apply agree_nest|intros _]; exact Hst.
  - split; [|discriminate].
    apply (@sim_recorded_nest event (StereoReco.set_loop_tel_id st tel) tel left Hrec Hst).
  - assert (sim_dictionaries_agree
              (StereoReco.set_event_info (StereoReco.mk_info event tel n)
                 (sim_measured tel h p g (StereoReco.set_loop_tel_id st tel)))) as Hag.
    { apply (@sim_measured_agree tel h p g (StereoReco.set_loop_tel_id st tel) Hsize Hst). }
    split; [apply agree_nest|intros _]; exact Hag.
Qed.

Lemma telescope_loop_agree : forall ext tels magic_clean event items st t ts,
  StereoReco.telescope_loop ext tels magic_clean event items st = (t, Ok ts) ->
  sim_dictionaries_agree st ->
  sim_dictionaries_nest ts /\
  (StereoReco.skip ts = false -> sim_dictionaries_agree ts).
Proof.
  intros ext tels magic_clean event.
  induction items as [|[tel dl1] items IH]; intros st t ts H Hst.
  - inversion H. subst. split; [apply agree_nest|intros _]; exact Hst.
  - rewrite telescope_loop_cons in H.
    destruct (process_telescope_outcome ext tels magic_clean event st tel dl1)
      as (t1 & st1 & H1 & Ho).
    rewrite H1, bind_ok in H.
    pose proof (outcome_agree Ho Hst) as [Hnest Hagree].
    destruct (StereoReco.skip st1) eqn:Hs1.
    + simpl in H. inversion H. subst. split; [exact Hnest|]. congruence.
    + destruct (StereoReco.telescope_loop ext tels magic_clean event items st1)
        as [t2 r] eqn:H2. simpl in H. inversion H. subst.
      eapply IH; eauto.
Qed.

(** X15: the telescope loop of an event of the MAGIC+LST script always
    ends normally.  When it ends without [skip] set, the ellipses, the
    pointings and the time gradients are recorded under the same
    telescopes, each once, and every time gradient is large enough to be
    drawn: a slope smaller than 0.2 in absolute value has been replaced by
    1.  When an exception set [skip], the dictionaries can be left apart,
    the ellipse of the failing telescope being stored before its pointing is
    built: the pointings and the time gradients still hold the same
    telescopes, all of which have an ellipse, and at most one ellipse has
    neither. *)
Theorem gradients_and_ellipses_agree :
  forall (ext : StereoReco.collaborators) (tels : list Z)
         (magic_clean : option StereoReco.engine_t)
         (event : StereoReco.ArrayEvent) (items : list (Z * DL1CameraContainer))
         (info : option InfoContainerSim) (tel : option Z),
    exists t ts,
      StereoReco.telescope_loop ext tels magic_clean event items
        (fresh_state info tel) = (t, Ok ts) /\
      sim_dictionaries_nest ts /\
      (StereoReco.skip ts = false -> sim_dictionaries_agree ts).
Proof.
  intros ext tels magic_clean event items info tel.
  destruct (@telescope_loop_ends_normally ext tels magic_clean event items
              (fresh_state info tel)) as (t & ts & H).
  exists t, ts. split; [exact H|].
  apply (@telescope_loop_agree ext tels magic_clean event items
           (fresh_state info tel) t ts H).
  split; [|split; [|split]]; simpl; try constructor. intros k g [].
Qed.

Lemma gradients_and_ellipses_agree_witness :
  exists t ts,
    StereoReco.telescope_loop MoreSamples.no_second_pointing [1; 2]%Z None
      MoreSamples.sim_tilted_event
      [(1%Z, Samples.Sim.bright); (2%Z, Samples.Sim.bright)]
      (fresh_state None None) = (t, Ok ts) /\
    sim_dictionaries_nest ts /\
    (StereoReco.skip ts = false -> sim_dictionaries_agree ts) /\
    StereoReco.skip ts = true /\
    dict_keys (StereoReco.computed_hillas_params ts) = [1; 2]%Z /\
    dict_keys (StereoReco.telescope_pointings ts) = [1%Z] /\
    dict_keys (StereoReco.time_gradients ts) = [1%Z].
Proof.
  destruct (gradients_and_ellipses_agree MoreSamples.no_second_pointing [1; 2]%Z None
              MoreSamples.sim_tilted_event
              [(1%Z, Samples.Sim.bright); (2%Z, Samples.Sim.bright)] None None)
    as (t & ts & H & Hnest & Hagree).
  exists t, ts. split; [exact H|]. split; [exact Hnest|]. split; [exact Hagree|].
  vm_compute in H. inversion H. repeat split.
Defined.

Lemma telescope_loop_last : forall ext tels magic_clean event items st t ts d,
  items <> [] ->
  StereoReco.telescope_loop ext tels magic_clean event items st = (t, Ok ts) ->
  StereoReco.skip ts = false ->
  StereoReco.loop_tel_id ts = Some (fst (last items d)).
Proof.
  intros ext tels magic_clean event.
  induction items as [|[tel dl1] items IH]; intros st t ts d Hne H Hskip;
    [contradiction|].
  rewrite telescope_loop_cons in H.
  destruct (process_telescope_outcome ext tels magic_clean event st tel dl1)
    as (t1 & st1 & H1 & Ho).
  rewrite H1, bind_ok in H.
  destruct (StereoReco.skip st1) eqn:Hs1.
  - simpl in H. inversion H. subst. congruence.
  - destruct items as [|item items].
    + simpl in H. inversion H. subst. simpl. eapply outcome_loop_var; eauto.
    + destruct (StereoReco.telescope_loop ext tels magic_clean event (item :: items) st1)
        as [t2 r] eqn:H2. simpl in H. inversion H. subst.
      change (last ((tel, dl1) :: item :: items) d) with (last (item :: items) d).
      eapply IH; eauto. discriminate.
Qed.

(** X16: the telescope identifier handed to [check_write_stereo] is the
    loop variable left by the telescope loop, that is the last telescope of
    [event.dl1.tel], whether or not that telescope was asked for or got an
    ellipse. *)
Theorem stereo_called_with_last_telescope :
  forall (ext : StereoReco.collaborators) (tels : list Z)
         (magic_clean : option StereoReco.engine_t) (display : bool)
         (event : StereoReco.ArrayEvent) (items : list (Z * DL1CameraContainer))
         (st : StereoReco.tel_state) (t : list action) (ts : StereoReco.tel_state)
         (info : InfoContainerSim) (d : Z * DL1CameraContainer),
    StereoReco.telescope_loop ext tels magic_clean event items st = (t, Ok ts) ->
    StereoReco.skip ts = false ->
    2 <= length (StereoReco.computed_hillas_params ts) ->
    StereoReco.event_info ts = Some info ->
    items <> [] ->
    StereoReco.finish_event ext display event ts =
    bind (StereoReco.check_write_stereo ext event (fst (last items d))
            (StereoReco.computed_hillas_params ts) (StereoReco.pointing_array event)
            (StereoReco.telescope_pointings ts) info)
         (fun r =>
            bind (if display
                  then StereoReco.show_array_display ext event
                         (StereoReco.computed_hillas_params ts)
                         (StereoReco.time_gradients ts) (fst r)
                  else ret tt)
                 (fun _ => ret {| StereoReco.last_event_info := Some (snd r);
                                  StereoReco.last_tel_id := Some (fst (last items d)) |})).
Proof.
  intros ext tels magic_clean display event items st t ts info d Hloop Hskip Hlen Hinfo Hne.
  pose proof (@telescope_loop_last ext tels magic_clean event items st t ts d
                Hne Hloop Hskip) as Hvar.
  unfold StereoReco.finish_event. rewrite Hskip, Hvar, Hinfo.
  destruct (length (StereoReco.computed_hillas_params ts) <? 2) eqn:E.
  { apply Nat.ltb_lt in E. lia. }
  apply bind_ext. intros [sp info']. reflexivity.
Qed.

Lemma stereo_called_with_last_telescope_witness :
  dict_keys (StereoReco.computed_hillas_params MoreSamples.after_three_items) = [1; 2]%Z /\
  StereoReco.finish_event Samples.Sim.ext false Samples.Sim.event
    MoreSamples.after_three_items =
  bind (StereoReco.check_write_stereo Samples.Sim.ext Samples.Sim.event 3
          (StereoReco.computed_hillas_params MoreSamples.after_three_items)
          (StereoReco.pointing_array Samples.Sim.event)
          (StereoReco.telescope_pointings MoreSamples.after_three_items)
          (StereoReco.mk_info Samples.Sim.event 2 1))
       (fun r =>
          bind (ret tt)
               (fun _ => ret {| StereoReco.last_event_info := Some (snd r);
                                StereoReco.last_tel_id := Some 3%Z |})).
Proof.
  split; [vm_compute; reflexivity|].
  apply (@stereo_called_with_last_telescope Samples.Sim.ext [1; 2; 3]%Z None false
           Samples.Sim.event MoreSamples.three_items Samples.Sim.empty_state
           (trace_of (StereoReco.telescope_loop Samples.Sim.ext [1; 2; 3]%Z None
                        Samples.Sim.event MoreSamples.three_items
                        Samples.Sim.empty_state))
           MoreSamples.after_three_items
           (StereoReco.mk_info Samples.Sim.event 2 1)
           (0%Z, Samples.Sim.faint)).
  - vm_compute. reflexivity.
  - vm_compute. reflexivity.
  - vm_compute. lia.
  - vm_compute. reflexivity.
  - discriminate.
Defined.

(* ================================================================== *)
(** * Which telescopes the MAGIC+LST script takes                       *)
(* ================================================================== *)

Lemma memZ_In : forall t l, StereoReco.memZ t l = true <-> In t l.
Proof.
  intros t l. unfold StereoReco.memZ. rewrite existsb_exists. split.
  - intros (x & Hx & He). apply Z.eqb_eq in He. now subst.
  - intros H. exists t. split; auto. apply Z.eqb_refl.
Qed.

Lemma set_intersection_In : forall a b t,
  In t (StereoReco.set_intersection a b) <-> In t a /\ In t b.
Proof.
  intros a b t. unfold StereoReco.set_intersection.
  rewrite nodup_In, filter_In, memZ_In. tauto.
Qed.

Lemma set_intersection_small : forall a b,
  (forall x y, In x a -> In y a -> In x b -> In y b -> x = y) ->
  length (StereoReco.set_intersection a b) < 2.
Proof.
  intros a b H.
  assert (NoDup (StereoReco.set_intersection a b)) as Hnd by apply NoDup_nodup.
  destruct (StereoReco.set_intersection a b) as [|x [|y l]] eqn:E; simpl; try lia.
  exfalso.
  assert (In x (StereoReco.set_intersection a b)) as Hx by (rewrite E; simpl; auto).
  assert (In y (StereoReco.set_intersection a b)) as Hy by (rewrite E; simpl; auto).
  apply set_intersection_In in Hx. apply set_intersection_In in Hy.
  assert (x = y) by (apply H; tauto). subst y.
  inversion Hnd as [|? ? Hnin _]. apply Hnin. simpl. auto.
Qed.

Lemma set_intersection_large : forall a b x y,
  x <> y -> In x a -> In y a -> In x b -> In y b ->
  2 <= length (StereoReco.set_intersection a b).
Proof.
  intros a b x y Hne Hxa Hya Hxb Hyb.
  assert (In x (StereoReco.set_intersection a b)) as Hx
    by (apply set_intersection_In; auto).
  assert (In y (StereoReco.set_intersection a b)) as Hy
    by (apply set_intersection_In; auto).
  destruct (StereoReco.set_intersection a b) as [|u [|v l]]; simpl; try lia.
  - destruct Hx.
  - destruct Hx as [<-|[]]. destruct Hy as [<-|[]]. congruence.
Qed.

Lemma valid_telescope : forall t,
  In t (StereoReco.id_LST ++ StereoReco.id_MAGIC) <-> (1 <= t <= 6)%Z.
Proof.
  intros t. unfold StereoReco.id_LST, StereoReco.id_MAGIC. simpl. lia.
Qed.

(** X17: when the telescopes asked for hold fewer than two distinct
    identifiers among 1 to 6, the run of the MAGIC+LST script comes down to
    the message [Select at least two telescopes in the MAGIC + LST array]:
    repeated identifiers count once, identifiers outside 1 to 6 do not
    count, and no event is read. *)
Theorem fewer_than_two_telescopes_asked :
  forall (ext : StereoReco.collaborators) (source : list StereoReco.ArrayEvent)
         (tels : list Z) (max_events : nat) (display : bool),
    (forall a b, In a tels -> In b tels ->
                 (1 <= a <= 6)%Z -> (1 <= b <= 6)%Z -> a = b) ->
    StereoReco.stereo_reco_MAGIC_LST ext source tels max_events display =
    ([Print SelectAtLeastTwoTelescopes], Ok tt).
Proof.
  intros ext source tels max_events display H.
  unfold StereoReco.stereo_reco_MAGIC_LST.
  assert (length (StereoReco.set_intersection tels
                    (StereoReco.id_LST ++ StereoReco.id_MAGIC)) < 2) as Hlen.
  { apply set_intersection_small. intros x y Hx Hy Hvx Hvy.
    apply H; auto; now apply valid_telescope. }
  now rewrite (proj2 (Nat.ltb_lt _ _) Hlen).
Qed.

Lemma fewer_than_two_telescopes_asked_witness :
  StereoReco.stereo_reco_MAGIC_LST Samples.Sim.ext [Samples.Sim.event]
    [2; 2; 7; 0; 2]%Z 0 false =
  ([Print SelectAtLeastTwoTelescopes], Ok tt).
Proof.
  apply fewer_than_two_telescopes_asked.
  intros a b Ha Hb Hva Hvb. simpl in Ha, Hb. lia.
Defined.

(** X18: an event in which fewer than two of the telescopes asked for have
    data is left at once: beyond the line that counts the events nothing is
    printed or written for it, it is not calibrated, and the variables kept
    from one event to the next stay as they were. *)
Theorem event_with_one_telescope_is_left :
  forall (ext : StereoReco.collaborators) (tels : list Z) (display : bool)
         (magic_clean : option StereoReco.engine_t)
         (st : StereoReco.loop_state) (event : StereoReco.ArrayEvent),
    (forall a b, In a (StereoReco.r0_tels_with_data event) ->
                 In b (StereoReco.r0_tels_with_data event) ->
                 In a tels -> In b tels -> a = b) ->
    StereoReco.process_event ext tels display magic_clean st event =
    (trace_of (StereoReco.print_count display event), Ok st) /\
    length (trace_of (StereoReco.print_count display event)) <= 1.
Proof.
  intros ext tels display magic_clean st event H.
  unfold StereoReco.process_event.
  rewrite (proj2 (Nat.ltb_lt _ _) (set_intersection_small _ _ H)).
  unfold StereoReco.print_count.
  destruct display; [split; [reflexivity | simpl; lia]|].
  destruct (StereoReco.count event mod 10 =? 0)%Z; split; simpl; auto.
Qed.

Lemma event_with_one_telescope_is_left_witness :
  StereoReco.process_event Samples.Sim.ext [1; 2]%Z false None
    {| StereoReco.last_event_info := None; StereoReco.last_tel_id := None |}
    MoreSamples.lonely_event =
  ([], Ok {| StereoReco.last_event_info := None; StereoReco.last_tel_id := None |}).
Proof.
  apply (@event_with_one_telescope_is_left Samples.Sim.ext [1; 2]%Z false None
           {| StereoReco.last_event_info := None; StereoReco.last_tel_id := None |}
           MoreSamples.lonely_event).
  intros a b Ha Hb Hta Htb. simpl in Ha, Hb, Hta, Htb. lia.
Defined.

(** X19: a MAGIC camera met while no MAGIC telescope was asked for finds
    the cleaning object unbound: the [NameError] is caught like any failure
    of the telescope, [Image not reconstructed] is printed and the event is
    given up.  The run binds the cleaning object only when telescope 5 or 6
    is among those asked for. *)
Theorem magic_camera_without_magic_cleaning :
  (forall (ext : StereoReco.collaborators) (tels : list Z)
          (event : StereoReco.ArrayEvent) (st : StereoReco.tel_state)
          (tel : Z) (dl1 : DL1CameraContainer) (geom : CameraGeometry)
          (rest : list (Z * DL1CameraContainer)),
     In tel tels ->
     StereoReco.subarray_geometry ext tel = Ok geom ->
     camera_name geom = MAGICCam ->
     StereoReco.telescope_loop ext tels None event ((tel, dl1) :: rest) st =
     ([Print ImageNotReconstructed; Print (ExceptionText NameError)],
      Ok (StereoReco.set_skip (StereoReco.set_loop_tel_id st tel)))) /\
  (forall (ext : StereoReco.collaborators) (source : list StereoReco.ArrayEvent)
          (tels : list Z) (display : bool) (a b : Z),
     In a tels -> In b tels -> (1 <= a <= 4)%Z -> (1 <= b <= 4)%Z -> a <> b ->
     ~ In 5%Z tels -> ~ In 6%Z tels ->
     StereoReco.stereo_reco_MAGIC_LST ext source tels 0 display =
     bind (StereoReco.event_loop ext
             (StereoReco.set_intersection tels (StereoReco.id_LST ++ StereoReco.id_MAGIC))
             display None source)
          (fun _ => ret tt)).
Proof.
  split.
  - intros ext tels event st tel dl1 geom rest Hin Hgeom Hname.
    rewrite telescope_loop_cons.
    assert (StereoReco.telescope_body ext None event tel dl1
              (StereoReco.set_loop_tel_id st tel) =
            ([], StereoReco.set_loop_tel_id st tel, Raise NameError)) as Hb.
    { unfold StereoReco.telescope_body, bbind, call. now rewrite Hgeom, Hname. }
    rewrite (@process_telescope_selected ext tels None event tel st dl1 []
               (StereoReco.set_loop_tel_id st tel) (Raise NameError)
               (proj2 (memZ_In tel tels) Hin) Hb).
    reflexivity.
  - intros ext source tels display a b Ha Hb Hva Hvb Hne H5 H6.
    unfold StereoReco.stereo_reco_MAGIC_LST.
    assert (2 <= length (StereoReco.set_intersection tels
                           (StereoReco.id_LST ++ StereoReco.id_MAGIC))) as Hlen.
    { apply set_intersection_large with a b; auto; apply valid_telescope; lia. }
    destruct (length (StereoReco.set_intersection tels
                        (StereoReco.id_LST ++ StereoReco.id_MAGIC)) <? 2) eqn:E.
    { apply Nat.ltb_lt in E. lia. }
    assert (existsb (fun t => StereoReco.memZ t StereoReco.id_MAGIC)
              (StereoReco.set_intersection tels
                 (StereoReco.id_LST ++ StereoReco.id_MAGIC)) = false) as Hm.
    { destruct (existsb _ _) eqn:Hex; auto. exfalso.
      apply existsb_exists in Hex. destruct Hex as (t & Ht & Hmem).
      apply set_intersection_In in Ht. apply memZ_In in Hmem.
      unfold StereoReco.id_MAGIC in Hmem. simpl in Hmem.
      destruct Ht as [Ht _]. destruct Hmem as [<-|[<-|[]]]; contradiction. }
    rewrite Hm, bind_ret. reflexivity.
Qed.

Lemma magic_camera_without_magic_cleaning_witness :
  StereoReco.telescope_loop Samples.Sim.ext [5; 6]%Z None Samples.Sim.event
    [(5%Z, Samples.Sim.bright); (6%Z, Samples.Sim.bright)] Samples.Sim.empty_state =
  ([Print ImageNotReconstructed; Print (ExceptionText NameError)],
   Ok (StereoReco.set_skip (StereoReco.set_loop_tel_id Samples.Sim.empty_state 5))).
Proof.
  apply (proj1 magic_camera_without_magic_cleaning Samples.Sim.ext [5; 6]%Z
           Samples.Sim.event Samples.Sim.empty_state 5%Z Samples.Sim.bright
           (Samples.row_camera MAGICCam 6)).
  - simpl. auto.
  - reflexivity.
  - reflexivity.
Defined.

(* ================================================================== *)
(** * The main code of the pre-processing script                        *)
(* ================================================================== *)

Section MainFacts.
Import PreprocessingMain.

Lemma andthen_exn : forall (r k : run) e,
  snd (andthen r k) = Some e -> snd r = Some e \/ (snd r = None /\ snd k = Some e).
Proof.
  intros [t [e'|]] [t' e''] e; simpl; auto.
Qed.

Lemma for_all_exn : forall A (body : A -> run) xs e,
  snd (for_all body xs) = Some e -> exists x, In x xs /\ snd (body x) = Some e.
Proof.
  intros A body xs e. induction xs as [|x xs IH]; simpl; intros H.
  - discriminate.
  - apply andthen_exn in H. destruct H as [H|[_ H]].
    + exists x. auto.
    + destruct (IH H) as (y & Hy & He). exists y. auto.
Qed.

Lemma andthen_Forall : forall (P : main_action -> Prop) (r k : run),
  Forall P (fst r) -> Forall P (fst k) -> Forall P (fst (andthen r k)).
Proof.
  intros P [t [e|]] [t' e'] Hr Hk; simpl in *; auto.
  apply Forall_app. auto.
Qed.

Lemma for_all_Forall : forall A (P : main_action -> Prop) (body : A -> run) xs,
  (forall x, In x xs -> Forall P (fst (body x))) ->
  Forall P (fst (for_all body xs)).
Proof.
  intros A P body xs. induction xs as [|x xs IH]; simpl; intros H.
  - constructor.
  - apply andthen_Forall; [apply H; auto | apply IH; auto].
Qed.

Lemma for_all_ext : forall A (body body' : A -> run) xs,
  (forall x, In x xs -> body x = body' x) -> for_all body xs = for_all body' xs.
Proof.
  intros A body body' xs. induction xs as [|x xs IH]; simpl; intros H; auto.
  rewrite H, IH; auto.
Qed.

Lemma andthen_count : forall (r k : run),
  snd (andthen r k) = None ->
  snd r = None /\ snd k = None /\
  processed_count (fst (andthen r k)) = processed_count (fst r) + processed_count (fst k).
Proof.
  intros [t [e|]] [t' e']; simpl; intros H; try discriminate.
  repeat split; auto. unfold processed_count. now rewrite filter_app, length_app.
Qed.

Lemma for_all_count : forall A (body : A -> run) xs n,
  (forall x, In x xs -> snd (body x) = None -> processed_count (fst (body x)) = n) ->
  snd (for_all body xs) = None ->
  processed_count (fst (for_all body xs)) = length xs * n.
Proof.
  intros A body xs n. induction xs as [|x xs IH]; simpl; intros Hb H.
  - reflexivity.
  - apply andthen_count in H. destruct H as (Hx & Hxs & ->).
    rewrite Hb, IH; auto.
Qed.

Lemma sdict_mem_keys : forall V (k : string) (d : sdict V),
  sdict_mem k d = true <-> In k (sdict_keys d).
Proof.
  intros V k d. unfold sdict_mem. rewrite existsb_exists. split.
  - intros (x & Hx & He). apply String.eqb_eq in He. now subst.
  - intros H. exists k. split; auto. apply String.eqb_refl.
Qed.

Variable C : Type.
Variable process_dataset_mc : string -> string -> M unit.
Variable process_dataset_data : string -> string -> M unit.

Lemma call_outcome : forall is_mc input output,
  (forall e, snd (call process_dataset_mc process_dataset_data is_mc input output)
             = Some e -> exists e', e = Propagated e') /\
  fst (call process_dataset_mc process_dataset_data is_mc input output) =
    [Processed is_mc input output
       (trace_of ((if is_mc then process_dataset_mc else process_dataset_data)
                    input output))].
Proof.
  intros is_mc input output. unfold call.
  destruct ((if is_mc then process_dataset_mc else process_dataset_data) input output)
    as [t [u|e]]; simpl; split; auto; intros e' H; inversion H; eauto.
Qed.

(** What the body of the innermost loop does for a telescope type that has
    cleaning settings. *)
Lemma process_one_outcome :
  forall files (cleaning : sdict C) data_type sample telescope,
    In telescope (sdict_keys cleaning) ->
    let r := process_one process_dataset_mc process_dataset_data files cleaning
               data_type sample telescope in
    (forall t, snd r <> Some (TelescopeWithoutCleaningSettings t)) /\
    Forall (of_kind data_type (String.eqb (lower data_type) "mc")) (fst r) /\
    (snd r = None -> processed_count (fst r) = 1).
Proof.
  intros files cleaning data_type sample telescope Hin r. unfold r, process_one, lookup.
  destruct (sdict_get data_type files) as [by_sample|];
    [|simpl; repeat split; [discriminate | constructor | discriminate]].
  destruct (sdict_get sample by_sample) as [by_telescope|];
    [|simpl; repeat split; [discriminate | constructor | discriminate]].
  destruct (sdict_mem telescope by_telescope);
    [|simpl; repeat split; [discriminate | constructor | discriminate]].
  rewrite (proj2 (sdict_mem_keys telescope cleaning) Hin). simpl negb. cbv iota.
  destruct (sdict_get telescope by_telescope) as [names|];
    [|simpl; repeat split; [discriminate | repeat constructor | discriminate]].
  destruct (sdict_get "input_mask" names) as [input|];
    [|simpl; repeat split; [discriminate | repeat constructor | discriminate]].
  destruct (sdict_get "hillas_output" names) as [output|];
    [|simpl; repeat split; [discriminate | repeat constructor | discriminate]].
  destruct (call_outcome (String.eqb (lower data_type) "mc") input output)
    as [Hexn Htrace].
  destruct (call process_dataset_mc process_dataset_data
              (String.eqb (lower data_type) "mc") input output) as [t e] eqn:Hc.
  simpl in Htrace. subst t. simpl. split; [|split].
  - intros t H. destruct (Hexn _ H) as [e' He']. discriminate.
  - repeat constructor.
  - reflexivity.
Qed.
End MainFacts.

(** X20: the second check of the innermost loop, [telescope_type not in
    config['image_cleaning']], can never fail, because the telescope types
    looped over are the keys of that very section: the main code never
    raises the error [... does not have image cleaning settings]. *)
Theorem cleaning_settings_check_never_fails :
  forall (C : Type) (process_dataset_mc process_dataset_data : string -> string -> M unit)
         (args : PreprocessingMain.args_t)
         (loaded : option (PreprocessingMain.config_t C)) (telescope_type : string),
    snd (PreprocessingMain.main process_dataset_mc process_dataset_data args loaded) <>
    Some (PreprocessingMain.TelescopeWithoutCleaningSettings telescope_type).
Proof.
  intros C mc data args loaded tel H. unfold PreprocessingMain.main in H.
  destruct loaded as [config|]; [|discriminate].
  destruct (PreprocessingMain.data_files config) as [files|]; [|discriminate].
  destruct (PreprocessingMain.image_cleaning config) as [cleaning|]; [|discriminate].
  apply for_all_exn in H. destruct H as (dt & _ & H).
  apply for_all_exn in H. destruct H as (sample & _ & H).
  apply for_all_exn in H. destruct H as (t & Ht & H).
  destruct (process_one_outcome mc data files cleaning dt sample t Ht) as [Hno _].
  exact (Hno tel H).
Qed.

Lemma process_one_keys :
  forall C C' mc data files (cleaning : PreprocessingMain.sdict C)
         (cleaning' : PreprocessingMain.sdict C') dt sample t,
    PreprocessingMain.sdict_keys cleaning = PreprocessingMain.sdict_keys cleaning' ->
    PreprocessingMain.process_one mc data files cleaning dt sample t =
    PreprocessingMain.process_one mc data files cleaning' dt sample t.
Proof.
  intros C C' mc data files cleaning cleaning' dt sample t Hk.
  unfold PreprocessingMain.process_one, PreprocessingMain.sdict_mem.
  now rewrite Hk.
Qed.

(** X21: the settings written under [image_cleaning] are not read: two
    configurations with the same [data_files] section and the same telescope
    types under [image_cleaning] make the main code do the same, whatever
    the settings are. *)
Theorem cleaning_settings_are_not_read :
  forall (C C' : Type)
         (process_dataset_mc process_dataset_data : string -> string -> M unit)
         (args : PreprocessingMain.args_t)
         (config : PreprocessingMain.config_t C)
         (config' : PreprocessingMain.config_t C'),
    PreprocessingMain.data_files config = PreprocessingMain.data_files config' ->
    option_map (@PreprocessingMain.sdict_keys C) (PreprocessingMain.image_cleaning config) =
    option_map (@PreprocessingMain.sdict_keys C') (PreprocessingMain.image_cleaning config') ->
    PreprocessingMain.main process_dataset_mc process_dataset_data args (Some config) =
    PreprocessingMain.main process_dataset_mc process_dataset_data args (Some config').
Proof.
  intros C C' mc data args config config' Hf Hc. unfold PreprocessingMain.main.
  rewrite <- Hf. destruct (PreprocessingMain.data_files config) as [files|]; auto.
  destruct (PreprocessingMain.image_cleaning config) as [cleaning|];
    destruct (PreprocessingMain.image_cleaning config') as [cleaning'|];
    try discriminate Hc; auto.
  assert (PreprocessingMain.sdict_keys cleaning =
          PreprocessingMain.sdict_keys cleaning') as Hk by (now inversion Hc).
  cbv zeta. rewrite <- Hk.
  apply for_all_ext. intros dt _. apply for_all_ext. intros sample _.
  apply for_all_ext. intros t _. now apply process_one_keys.
Qed.

Lemma cleaning_settings_are_not_read_witness :
  PreprocessingMain.main MoreSamples.quiet MoreSamples.quiet (MoreSamples.args true true)
    (Some MoreSamples.config) =
  PreprocessingMain.main MoreSamples.quiet MoreSamples.quiet (MoreSamples.args true true)
    (Some {| PreprocessingMain.data_files :=
               PreprocessingMain.data_files MoreSamples.config;
             PreprocessingMain.image_cleaning := Some [("magic"%string, true)] |}).
Proof.
  apply cleaning_settings_are_not_read; reflexivity.
Defined.

(** X22: with [--usereal] alone only the data type [data] is looked up and
    every dataset goes through [process_dataset_data]; with [--usemc] alone
    only [mc] is looked up and every dataset goes through
    [process_dataset_mc]. *)
Theorem single_flag_selects_one_path :
  forall (C : Type) (process_dataset_mc process_dataset_data : string -> string -> M unit)
         (args : PreprocessingMain.args_t)
         (loaded : option (PreprocessingMain.config_t C)),
    (PreprocessingMain.usereal args = true -> PreprocessingMain.usemc args = false ->
     Forall (of_kind "data" false)
       (fst (PreprocessingMain.main process_dataset_mc process_dataset_data args loaded))) /\
    (PreprocessingMain.usereal args = false -> PreprocessingMain.usemc args = true ->
     Forall (of_kind "mc" true)
       (fst (PreprocessingMain.main process_dataset_mc process_dataset_data args loaded))).
Proof.
  intros C mc data args loaded.
  assert (forall dt as_mc,
            (forall files, PreprocessingMain.data_type_to_process args files = [dt]) ->
            String.eqb (PreprocessingMain.lower dt) "mc" = as_mc ->
            Forall (of_kind dt as_mc)
              (fst (PreprocessingMain.main mc data args loaded))) as Hgen.
  { intros dt as_mc Hdt Hmc. unfold PreprocessingMain.main.
    destruct loaded as [config|]; [|repeat constructor].
    destruct (PreprocessingMain.data_files config) as [files|]; [|repeat constructor].
    destruct (PreprocessingMain.image_cleaning config) as [cleaning|];
      [|repeat constructor].
    rewrite Hdt. apply for_all_Forall. intros dt' [<-|[]].
    apply for_all_Forall. intros sample _.
    apply for_all_Forall. intros t Ht.
    destruct (process_one_outcome mc data files cleaning dt sample t Ht) as (_ & Hk & _).
    now rewrite Hmc in Hk. }
  split; intros Hr Hm; apply Hgen; auto; intros files;
    unfold PreprocessingMain.data_type_to_process; now rewrite Hr, Hm.
Qed.

Lemma single_flag_selects_one_path_witness :
  Forall (of_kind "data" false)
    (fst (PreprocessingMain.main MoreSamples.quiet MoreSamples.quiet
            (MoreSamples.args true false) (Some MoreSamples.config))) /\
  processed_count
    (fst (PreprocessingMain.main MoreSamples.quiet MoreSamples.quiet
            (MoreSamples.args true false) (Some MoreSamples.config))) = 2.
Proof.
  split; [|reflexivity].
  apply (proj1 (@single_flag_selects_one_path nat MoreSamples.quiet MoreSamples.quiet
                  (MoreSamples.args true false) (Some MoreSamples.config)));
    reflexivity.
Defined.

(** X23: when the main code comes to its end without an exception, it has
    processed one dataset for every data type, sample and telescope type it
    looped over. *)
Theorem datasets_processed :
  forall (C : Type) (process_dataset_mc process_dataset_data : string -> string -> M unit)
         (args : PreprocessingMain.args_t) (config : PreprocessingMain.config_t C)
         files cleaning,
    PreprocessingMain.data_files config = Some files ->
    PreprocessingMain.image_cleaning config = Some cleaning ->
    snd (PreprocessingMain.main process_dataset_mc process_dataset_data args
           (Some config)) = None ->
    processed_count
      (fst (PreprocessingMain.main process_dataset_mc process_dataset_data args
              (Some config))) =
    length (PreprocessingMain.data_type_to_process args files) *
    (length (PreprocessingMain.data_sample_to_process args) *
     length (PreprocessingMain.sdict_keys cleaning)).
Proof.
  intros C mc data args config files cleaning Hf Hc H.
  unfold PreprocessingMain.main in *. rewrite Hf, Hc in *.
  apply for_all_count; [|exact H].
  intros dt _ Hdt. apply for_all_count; [|exact Hdt].
  intros sample _ Hs.
  rewrite (@for_all_count _ _ _ 1); [lia| |exact Hs].
  intros t Ht Hone.
  destruct (process_one_outcome mc data files cleaning dt sample t Ht) as (_ & _ & Hn).
  now apply Hn.
Qed.

Lemma datasets_processed_witness :
  processed_count
    (fst (PreprocessingMain.main MoreSamples.quiet MoreSamples.quiet
            (MoreSamples.args false false) (Some MoreSamples.config))) =
  2 * (2 * 1).
Proof.
  apply (@datasets_processed nat MoreSamples.quiet MoreSamples.quiet
           (MoreSamples.args false false) MoreSamples.config
           [("mc"%string, MoreSamples.both_samples); ("data"%string, MoreSamples.both_samples)]
           [("magic"%string, 6)]); reflexivity.
Defined.
